(** * SqlUtils: the SQL builder, the parameter adapter and the data corrector

    A shallow embedding of [sql_builder/conditions.py],
    [sql_builder/query_builder.py], [sql_builder/adapt_sql.py],
    [sql_builder/json_handler.py], [sqlbbw/corrector.py] and the tables of
    [sqlbbw/mappings.py], and the properties of the specification and of
    the code that were checked against it.

    Conventions of the embedding.
    - Python [str] is [string]; the development is about ASCII text: a
      character of code 128 or more is in none of the classes [\w], [\d],
      [\s] and is left alone by [upper] and [lower].
    - A Python [dict] is an association list in insertion order
      ([list(d.values())] depends on that order); a schema, whose order is
      never observed, is a [gmap].
    - Scalars are [pyval]; floats and other objects, which the builder only
      carries around, are left out.
    - An exception is a value of [exn]; a function that can raise returns
      [result].  [Condition._ids], the class-level counter, is threaded as
      a [nat] (the next id) through the monad [M].
    - Calls into [re] are modelled by matchers that follow the patterns of
      the sources; calls into pandas, the schema inspector and the
      built-ins [int] and [float] are parameters.

    Not embedded: [create_table], the DataFrame front end [df_sql], the
    connection, audit and fallback modules of [sqlbbw], and what pandas
    does with a column once [cast_df] has chosen its conversion. *)

From Stdlib Require Import ZArith Ascii String List Bool Lia QArith.
From stdpp Require Import base option list strings pretty gmap.

Local Open Scope string_scope.
Local Open Scope list_scope.
Local Open Scope Z_scope.

(** ** Characters and strings *)

Module Str.

Definition code (c : ascii) : nat := nat_of_ascii c.

Definition in_range (lo hi : nat) (c : ascii) : bool :=
  (lo <=? code c)%nat && (code c <=? hi)%nat.

Definition is_digit (c : ascii) : bool := in_range 48 57 c.
Definition is_upper (c : ascii) : bool := in_range 65 90 c.
Definition is_lower (c : ascii) : bool := in_range 97 122 c.

(** [\w] *)
Definition is_word (c : ascii) : bool :=
  is_digit c || is_upper c || is_lower c || Ascii.eqb c "_".

(** [\s]: tab, newline, vertical tab, form feed, carriage return, the four
    separators 0x1c..0x1f and the space. *)
Definition is_space (c : ascii) : bool :=
  in_range 9 13 c || in_range 28 31 c || Ascii.eqb c " ".

Definition upper_char (c : ascii) : ascii :=
  if is_lower c then ascii_of_nat (code c - 32)%nat else c.

Definition lower_char (c : ascii) : ascii :=
  if is_upper c then ascii_of_nat (code c + 32)%nat else c.

Fixpoint map (f : ascii -> ascii) (s : string) : string :=
  match s with
  | EmptyString => EmptyString
  | String c r => String (f c) (map f r)
  end.

Definition upper : string -> string := map upper_char.
Definition lower : string -> string := map lower_char.

Definition newline : ascii := ascii_of_nat 10.

(** The string made of one double quote. *)
Definition dquote : string := String (ascii_of_nat 34) EmptyString.

(** [sep.join(parts)] *)
Definition join (sep : string) (parts : list string) : string :=
  String.concat sep parts.

(** [x in (a, b, ...)] for strings *)
Definition mem (x : string) (l : list string) : bool :=
  existsb (String.eqb x) l.

(** [s] without its last character, when that character is a newline. *)
Fixpoint chop_newline (s : string) : option string :=
  match s with
  | EmptyString => None
  | String c EmptyString => if Ascii.eqb c newline then Some EmptyString else None
  | String c r => option_map (String c) (chop_newline r)
  end.

Fixpoint lstrip (s : string) : string :=
  match s with
  | String c r => if is_space c then lstrip r else s
  | EmptyString => EmptyString
  end.

Fixpoint rstrip (s : string) : string :=
  match s with
  | EmptyString => EmptyString
  | String c r =>
      match rstrip r with
      | EmptyString => if is_space c then EmptyString else String c EmptyString
      | r' => String c r'
      end
  end.

(** Every character of [s] satisfies [P]. *)
Fixpoint all (P : ascii -> bool) (s : string) : bool :=
  match s with
  | EmptyString => true
  | String c r => P c && all P r
  end.

(** [s.strip()] *)
Definition strip (s : string) : string := rstrip (lstrip s).

(** [s.split(sep)] for a separator of one character *)
Fixpoint split (sep : ascii) (s : string) : list string :=
  match s with
  | EmptyString => [EmptyString]
  | String c r =>
      if Ascii.eqb c sep then EmptyString :: split sep r
      else match split sep r with
           | w :: ws => String c w :: ws
           | [] => [String c EmptyString]
           end
  end.

End Str.

(** ** Regular expressions

    The anchored patterns of the sources are matched with Brzozowski
    derivatives.  [re.match('^r$', s)] holds when [r] matches all of [s], or
    all of [s] but a final newline ([$] also matches just before a newline
    that ends the string). *)

Module Re.

Inductive regex : Type :=
| Nul
| Eps
| Cls (p : ascii -> bool)
| Cat (r1 r2 : regex)
| Alt (r1 r2 : regex)
| Star (r : regex).

Fixpoint nullable (r : regex) : bool :=
  match r with
  | Nul => false
  | Eps => true
  | Cls _ => false
  | Cat r1 r2 => nullable r1 && nullable r2
  | Alt r1 r2 => nullable r1 || nullable r2
  | Star _ => true
  end.

Definition cat (r1 r2 : regex) : regex :=
  match r1, r2 with
  | Nul, _ => Nul
  | _, Nul => Nul
  | Eps, _ => r2
  | _, _ => Cat r1 r2
  end.

Definition alt (r1 r2 : regex) : regex :=
  match r1, r2 with
  | Nul, _ => r2
  | _, Nul => r1
  | _, _ => Alt r1 r2
  end.

Fixpoint deriv (c : ascii) (r : regex) : regex :=
  match r with
  | Nul => Nul
  | Eps => Nul
  | Cls p => if p c then Eps else Nul
  | Cat r1 r2 =>
      alt (cat (deriv c r1) r2) (if nullable r1 then deriv c r2 else Nul)
  | Alt r1 r2 => alt (deriv c r1) (deriv c r2)
  | Star r1 => cat (deriv c r1) (Star r1)
  end.

Fixpoint fullmatch (r : regex) (s : string) : bool :=
  match s with
  | EmptyString => nullable r
  | String c s' => fullmatch (deriv c r) s'
  end.

(** [re.match('^' r '$', s)] *)
Definition match_anchored (r : regex) (s : string) : bool :=
  fullmatch r s ||
  match Str.chop_newline s with
  | Some s' => fullmatch r s'
  | None => false
  end.

Definition chr (c : ascii) : regex := Cls (Ascii.eqb c).
Definition plus (r : regex) : regex := Cat r (Star r).
Definition opt (r : regex) : regex := Alt r Eps.

Fixpoint rep (n : nat) (r : regex) : regex :=
  match n with
  | O => Eps
  | S n' => Cat r (rep n' r)
  end.

Definition d : regex := Cls Str.is_digit.
Definition w : regex := Cls Str.is_word.

End Re.

(** [re.match(r'^[\w]+$', name)]: the identifier check of every builder. *)
Definition is_identifier (name : string) : bool :=
  Re.match_anchored (Re.plus Re.w) name.

(** ** Exceptions *)

Inductive exn : Type :=
| InvalidFieldName (field : string)
| InvalidOperator (op : string)
| UnsupportedOperator (op : string)
| InvalidIndexInExpression (index : string)
| InvalidCharactersInExpression (expression : string)
| InvalidTableName (table : string)
| InvalidColumnName (column : string)
| InvalidColumnNames (columns : list string)
| InvalidGroupBy (columns : list string)
| InvalidOrderBy (order_by : list (string * string))
| NoRowsProvided
| UpdateWithoutWhere
| DeleteWithoutWhere
| UpsertNotSupported (dialect : string)
| UnknownDialect (dialect : string)
| IndexError
| KeyError
| LibraryError (message : string).

Inductive result (A : Type) : Type :=
| Ok (a : A)
| Err (e : exn).
Arguments Ok {A} a.
Arguments Err {A} e.

#[global] Instance result_ret : MRet result := fun _ a => Ok a.
#[global] Instance result_bind : MBind result := fun _ _ k m =>
  match m with
  | Ok a => k a
  | Err e => Err e
  end.

#[global] Instance result_fmap : FMap result := fun _ _ f m =>
  match m with
  | Ok a => Ok (f a)
  | Err e => Err e
  end.

(** [raise e] *)
Definition raise {A} (e : exn) : result A := Err e.

(** ** Values and dictionaries *)

Inductive pyval : Type :=
| VNone
| VBool (b : bool)
| VInt (z : Z)
| VStr (s : string).

Module Dict.
Section Dict.
Context {V : Type}.

Definition t : Type := list (string * V).

Fixpoint get (k : string) (d : t) : option V :=
  match d with
  | [] => None
  | (k', v) :: d' => if String.eqb k k' then Some v else get k d'
  end.

(** [d[k] = v]: an existing key keeps its position, a new one goes last. *)
Fixpoint set (k : string) (v : V) (d : t) : t :=
  match d with
  | [] => [(k, v)]
  | (k', v') :: d' =>
      if String.eqb k k' then (k', v) :: d' else (k', v') :: set k v d'
  end.

(** [d.update(d')] *)
Definition update (d d' : t) : t :=
  fold_left (fun acc kv => set (fst kv) (snd kv) acc) d' d.

(** [{k: v for ...}] over the pairs in order *)
Definition of_pairs (kvs : list (string * V)) : t := update [] kvs.

Definition keys (d : t) : list string := List.map fst d.
Definition values (d : t) : list V := List.map snd d.

End Dict.
Arguments t : clear implicits.
End Dict.

(** ** [sql_builder/conditions.py] *)

(** Modelled from the spec: [valid_operators] of [sql_builder/mappings.py],
    a file that is not part of the sources; the closed operator set of the
    data model. *)
Definition valid_operators : list string :=
  ["="; "!="; "<>"; "<"; ">"; "<="; ">="; "LIKE"; "ILIKE"; "IN"; "NOT IN";
   "BETWEEN"; "IS NULL"; "IS NOT NULL"].

(** The monad of the code that builds conditions: the state is the next
    value of [Condition._ids]; an exception leaves the counter where it
    was when it was raised. *)
Definition M (A : Type) : Type := nat -> result A * nat.

#[global] Instance M_ret : MRet M := fun _ a n => (Ok a, n).
#[global] Instance M_bind : MBind M := fun _ _ k m n =>
  match m n with
  | (Ok a, n') => k a n'
  | (Err e, n') => (Err e, n')
  end.

Definition lift {A} (r : result A) : M A := fun n => (r, n).

(** [next(self._ids)] *)
Definition next_id : M nat := fun n => (Ok n, S n).

(** [itertools.count(1)] *)
Definition ids_initial : nat := 1.

(** Unfolds the operations of the monads [M] and [result]. *)
Ltac run_M :=
  cbv [mbind mret M_bind M_ret lift result_bind result_ret raise];
  cbn [fst snd].

Fixpoint mapM {A B} (f : A -> M B) (l : list A) : M (list B) :=
  match l with
  | [] => mret []
  | a :: l' => b ← f a; bs ← mapM f l'; mret (b :: bs)
  end.

Record Condition : Type := mkCondition {
  field : string;
  op : string;
  values : list pyval;
  uid : nat;
  aggregate : option string
}.

(** The [values] argument of the constructor: a list, or anything else. *)
Inductive values_arg : Type :=
| AList (l : list pyval)
| AScalar (v : pyval).

(** [Condition.__init__] *)
Definition Condition_init (field op : string) (values : values_arg)
    (aggregate : option string) : M Condition :=
  if negb (is_identifier field) then lift (raise (InvalidFieldName field))
  else if negb (Str.mem (Str.upper op) valid_operators)
  then lift (raise (InvalidOperator op))
  else
    let vs := match values with AList l => l | AScalar v => [v] end in
    id ← next_id;
    mret (mkCondition field (Str.upper op) vs id aggregate).

(** [self.values[i]] *)
Definition index {A} (l : list A) (i : nat) : result A :=
  match nth_error l i with
  | Some a => Ok a
  | None => raise IndexError
  end.

(** [enumerate] *)
Definition enumerate {A} (l : list A) : list (nat * A) :=
  combine (seq 0 (length l)) l.

(** [col_str] of [to_sql]: the quoted field, inside the aggregate if the
    condition has one. *)
Definition col_str (self : Condition) (quote_char : string) : string :=
  let col_str := quote_char +:+ field self +:+ quote_char in
  match aggregate self with
  | Some (String _ _ as a) => Str.upper a +:+ "(" +:+ col_str +:+ ")"
  | _ => col_str
  end.

(** [pname_base] of [to_sql]: [f'{self.field}_{self._uid}'] *)
Definition pname_base (self : Condition) : string :=
  field self +:+ "_" +:+ pretty (uid self).

(** [f'{pname_base}_{i}'], the key of the value at position [i] of IN *)
Definition in_key (self : Condition) (i : nat) : string :=
  pname_base self +:+ "_" +:+ pretty i.

(** [Condition.to_sql]; [dialect] is unused, as in the source. *)
Definition to_sql (self : Condition) (dialect ph quote_char : string)
    (dt_wrapper : string -> string -> pyval -> string)
    : result (string * Dict.t pyval) :=
  let col_str := col_str self quote_char in
  let params : Dict.t pyval := [] in
  let pname_base := pname_base self in
  if Str.mem (op self) ["IS NULL"; "IS NOT NULL"] then
    Ok (col_str +:+ " " +:+ op self, params)
  else if String.eqb (op self) "BETWEEN" then
    v0 ← index (values self) 0;
    let params := Dict.set (pname_base +:+ "_min") v0 params in
    v1 ← index (values self) 1;
    let params := Dict.set (pname_base +:+ "_max") v1 params in
    Ok (col_str +:+ " BETWEEN " +:+ ph +:+ pname_base +:+ "_min AND "
          +:+ ph +:+ pname_base +:+ "_max", params)
  else if Str.mem (op self) ["IN"; "NOT IN"] then
    let keys :=
      List.map (fun i : nat => ph +:+ pname_base +:+ "_" +:+ pretty i)
               (seq 0 (length (values self))) in
    let params :=
      Dict.update params
        (Dict.of_pairs
           (List.map (fun iv : nat * pyval =>
                        (pname_base +:+ "_" +:+ pretty (fst iv), snd iv))
                     (enumerate (values self)))) in
    Ok (col_str +:+ " " +:+ op self +:+ " (" +:+ Str.join "," keys +:+ ")",
        params)
  else if Str.mem (op self) ["LIKE"; "ILIKE"] then
    v0 ← index (values self) 0;
    let params := Dict.set pname_base v0 params in
    Ok (col_str +:+ " " +:+ op self +:+ " " +:+ ph +:+ pname_base, params)
  else if Str.mem (op self) ["="; "!="; "<>"; "<"; ">"; "<="; ">="] then
    v0 ← index (values self) 0;
    let params := Dict.set pname_base v0 params in
    Ok (col_str +:+ " " +:+ op self +:+ " "
          +:+ dt_wrapper (ph +:+ pname_base) (op self) v0, params)
  else raise (UnsupportedOperator (op self)).

(** The inputs of [Condition.from_input] that are modelled: a record
    [{field, operator, value?, aggregate?}], a tuple [(field, op, values)]
    and a condition built earlier.  Free text goes through [from_string],
    which ends in the same constructor call, and is left out. *)
Inductive cond_input : Type :=
| InRecord (field operator : string) (value : option values_arg)
           (aggregate : option string)
| InTuple (field op : string) (values : values_arg)
| InCondition (c : Condition).

(** [Condition.from_input] *)
Definition from_input (item : cond_input) : M Condition :=
  match item with
  | InRecord f o v a =>
      Condition_init f o (match v with Some v => v | None => AList [] end) a
  | InTuple f o vs =>
      let vs :=
        match vs with
        | AScalar (VStr s) =>
            AList (List.map (fun v => VStr (Str.strip v)) (Str.split "," s))
        | _ => vs
        end in
      Condition_init f o vs None
  | InCondition c => mret c
  end.

(** ** [sql_builder/query_builder.py] *)

Record SQLBuilder : Type := mkSQLBuilder {
  dialect : string;
  ph : string;
  quote_char : string
}.

(** [SQLBuilder.__init__].  The tables [placeholders] and [quote_chars] come
    from [sql_builder/mappings.py], which is not part of the sources; they
    are arguments here, and every statement below holds for all of them. *)
Definition SQLBuilder_init (placeholders quote_chars : gmap string string)
    (dialect : string) : SQLBuilder :=
  let dialect := Str.lower dialect in
  mkSQLBuilder dialect
    (default ":" (placeholders !! dialect))
    (default Str.dquote (quote_chars !! dialect)).

(** [^\d{4}-\d{2}-\d{2}(?: \d{2}:\d{2}:\d{2})?$] *)
Definition datetime_re : Re.regex :=
  Re.Cat (Re.rep 4 Re.d) (Re.Cat (Re.chr "-") (Re.Cat (Re.rep 2 Re.d)
  (Re.Cat (Re.chr "-") (Re.Cat (Re.rep 2 Re.d)
  (Re.opt (Re.Cat (Re.chr " ") (Re.Cat (Re.rep 2 Re.d) (Re.Cat (Re.chr ":")
    (Re.Cat (Re.rep 2 Re.d) (Re.Cat (Re.chr ":") (Re.rep 2 Re.d))))))))))).

(** The closure returned by [SQLBuilder._get_dt_wrapper] *)
Definition wrap_dt (self : SQLBuilder) (ph_val op : string) (val : pyval)
    : string :=
  let is_datetime :=
    match val with
    | VStr s => Re.match_anchored datetime_re s
    | _ => false
    end in
  if Str.mem op ["="; "!="; "<"; ">"; "<="; ">="] && is_datetime then
    if String.eqb (dialect self) "oracle" then
      "TO_DATE(" +:+ ph_val +:+ ", 'YYYY-MM-DD HH24:MI:SS')"
    else if String.eqb (dialect self) "mssql" then
      "CAST(" +:+ ph_val +:+ " AS DATETIME2)"
    else ph_val
  else ph_val.

(** The loop of [build_where] over the condition objects. *)
Fixpoint compile_conditions (self : SQLBuilder) (objs : list Condition)
    (sql_parts : list string) (params : Dict.t pyval)
    : result (list string * Dict.t pyval) :=
  match objs with
  | [] => Ok (sql_parts, params)
  | c :: objs' =>
      '(frag, p) ← to_sql c (dialect self) (ph self) (quote_char self)
                     (wrap_dt self);
      compile_conditions self objs' (sql_parts ++ [frag]) (Dict.update params p)
  end.

(** [int(digits)] *)
Definition int_of_digits (ds : string) : Z :=
  fold_left (fun acc c => 10 * acc + (Z.of_nat (Str.code c) - 48))
            (list_ascii_of_string ds) 0.

Fixpoint leading_digits (s : string) : string :=
  match s with
  | String c r => if Str.is_digit c then String c (leading_digits r) else ""
  | EmptyString => ""
  end.

Fixpoint drop_chars (n : nat) (s : string) : string :=
  match n, s with
  | S n', String _ r => drop_chars n' r
  | _, _ => s
  end.

(** A match of [\b\d+\b] at the head of [s]; [prev_word] tells whether the
    character before [s] is a word character.  The run of digits has to be
    maximal and to stand between two non-word positions. *)
Definition match_index (prev_word : bool) (s : string) : option string :=
  let ds := leading_digits s in
  if prev_word then None
  else match ds with
       | EmptyString => None
       | _ => match drop_chars (String.length ds) s with
              | String c _ => if Str.is_word c then None else Some ds
              | EmptyString => Some ds
              end
       end.

(** The function [repl] of [build_where] *)
Definition repl (sql_parts : list string) (group0 : string) : result string :=
  let idx := int_of_digits group0 - 1 in
  if (idx <? 0) || (Z.of_nat (length sql_parts) <=? idx)
  then raise (InvalidIndexInExpression group0)
  else index sql_parts (Z.to_nat idx).

(** [re.sub(r'\b\d+\b', repl, expression)], scanning from the left; [skip]
    counts the characters of the current match still to be passed over. *)
Fixpoint sub_indices (sql_parts : list string) (prev_word : bool) (skip : nat)
    (s : string) : result string :=
  match s with
  | EmptyString => Ok ""
  | String c r =>
      match skip with
      | S k => sub_indices sql_parts (Str.is_word c) k r
      | O =>
          match match_index prev_word s with
          | Some ds =>
              frag ← repl sql_parts ds;
              rest ← sub_indices sql_parts (Str.is_word c)
                       (String.length ds - 1)%nat r;
              Ok (frag +:+ rest)
          | None =>
              rest ← sub_indices sql_parts (Str.is_word c) 0 r;
              Ok (String c rest)
          end
      end
  end.

(** [^[\d\sANDOR()]+$] *)
Definition expression_re : Re.regex :=
  Re.plus (Re.Cls (fun c =>
    Str.is_digit c || Str.is_space c ||
    existsb (Ascii.eqb c) (list_ascii_of_string "ANDOR()"))).

(** [SQLBuilder.build_where]; [conditions] is [None] or a list. *)
Definition build_where (self : SQLBuilder) (conditions : option (list cond_input))
    (expression : option string) : M (string * Dict.t pyval) :=
  match conditions with
  | None | Some [] => mret ("", [])
  | Some conditions =>
      objs ← mapM from_input conditions;
      lift (
        '(sql_parts, params) ← compile_conditions self objs [] [];
        where_sql ←
          match expression with
          | None => Ok (Str.join " AND " sql_parts)
          | Some expression =>
              where_sql ← sub_indices sql_parts false 0 expression;
              if negb (Re.match_anchored expression_re expression)
              then raise (InvalidCharactersInExpression expression)
              else Ok where_sql
          end;
        Ok (where_sql, params))
  end.

(** The [columns] argument of [select]: a list of names, or a string that
    is used as it is (the default is ['*']). *)
Inductive columns_arg : Type :=
| ColList (names : list string)
| ColStr (text : string).

(** What a builder returns next to the SQL text: the named mapping, or
    [list(params.values())]. *)
Inductive binding : Type :=
| Named (params : Dict.t pyval)
| Positional (values : list pyval).

(** [f'{self.quote_char}{name}{self.quote_char}'] *)
Definition quoted (self : SQLBuilder) (name : string) : string :=
  quote_char self +:+ name +:+ quote_char self.

(** [offset or 0] *)
Definition or_0 (offset : option Z) : Z := default 0%Z offset.

(** The pagination branch of [select] (the text appended to [sql]). *)
Definition pagination (self : SQLBuilder) (limit offset : option Z) : string :=
  match offset, limit with
  | None, None => ""
  | _, _ =>
      if Str.mem (dialect self) ["postgres"; "sqlite"] then
        " OFFSET " +:+ pretty (or_0 offset) +:+
        match limit with Some l => " LIMIT " +:+ pretty l | None => "" end
      else if String.eqb (dialect self) "oracle" then
        " OFFSET " +:+ pretty (or_0 offset) +:+ " ROWS" +:+
        match limit with
        | Some l => " FETCH NEXT " +:+ pretty l +:+ " ROWS ONLY"
        | None => ""
        end
      else if String.eqb (dialect self) "mssql" then
        " OFFSET " +:+ pretty (or_0 offset) +:+ " ROWS" +:+
        match limit with
        | Some l => " FETCH NEXT " +:+ pretty l +:+ " ROWS ONLY"
        | None => ""
        end
      else if String.eqb (dialect self) "mysql" then
        match limit with Some l => " LIMIT " +:+ pretty l | None => "" end +:+
        match offset with
        | Some o => if (o =? 0)%Z then "" else " OFFSET " +:+ pretty o
        | None => ""
        end
      else ""
  end.

(** [f' WHERE {w_sql}'] appended when [w_sql] is not empty *)
Definition clause (keyword : string) (w : string * Dict.t pyval)
    (acc : string * Dict.t pyval) : string * Dict.t pyval :=
  match fst w with
  | EmptyString => acc
  | w_sql => (fst acc +:+ keyword +:+ w_sql, Dict.update (snd acc) (snd w))
  end.

(** [SQLBuilder.select] *)
Definition select (self : SQLBuilder) (table : string) (columns : columns_arg)
    (conditions : option (list cond_input)) (expression : option string)
    (order_by : option (list (string * string))) (limit offset : option Z)
    (group_by : option (list string)) (having : option (list cond_input))
    (having_expr : option string) : M (string * Dict.t pyval) :=
  if negb (is_identifier table) then lift (raise (InvalidTableName table))
  else
    let cols :=
      match columns with
      | ColList names => Str.join ", " (List.map (quoted self) names)
      | ColStr text => text
      end in
    let sql := "SELECT " +:+ cols +:+ " FROM " +:+ quoted self table in
    let params : Dict.t pyval := [] in
    acc ← match conditions with
          | None | Some [] => mret (sql, params)
          | Some _ =>
              w ← build_where self conditions expression;
              mret (clause " WHERE " w (sql, params))
          end;
    acc ← match group_by with
          | None | Some [] => mret acc
          | Some gs =>
              if negb (forallb is_identifier gs)
              then lift (raise (InvalidGroupBy gs))
              else
                let acc :=
                  (fst acc +:+ " GROUP BY "
                     +:+ Str.join ", " (List.map (quoted self) gs), snd acc) in
                match having with
                | None | Some [] => mret acc
                | Some _ =>
                    h ← build_where self having having_expr;
                    mret (clause " HAVING " h acc)
                end
          end;
    acc ← match order_by with
          | None | Some [] => mret acc
          | Some obs =>
              if negb (forallb (fun fd => is_identifier (fst fd) &&
                         Str.mem (Str.upper (snd fd)) ["ASC"; "DESC"]) obs)
              then lift (raise (InvalidOrderBy obs))
              else mret
                (fst acc +:+ " ORDER BY " +:+ Str.join ", "
                   (List.map (fun fd => quoted self (fst fd) +:+ " "
                                          +:+ Str.upper (snd fd)) obs),
                 snd acc)
          end;
    mret (fst acc +:+ pagination self limit offset, snd acc).

(** The end of [update], [delete] and [upsert]. *)
Definition positional_on_mysql_sqlite (self : SQLBuilder) (sql : string)
    (params : Dict.t pyval) : string * binding :=
  if Str.mem (dialect self) ["mysql"; "sqlite"]
  then (sql, Positional (Dict.values params))
  else (sql, Named params).

(** The loop of [update] over [data.items()]. *)
Fixpoint update_sets (self : SQLBuilder) (items : list (string * pyval))
    (sets : list string) (params : Dict.t pyval)
    : result (list string * Dict.t pyval) :=
  match items with
  | [] => Ok (sets, params)
  | (k, v) :: items' =>
      if negb (is_identifier k) then raise (InvalidColumnName k)
      else
        let pname := "set_" +:+ k in
        update_sets self items'
          (sets ++ [quoted self k +:+ " = " +:+ ph self +:+ pname])
          (Dict.set pname v params)
  end.

(** [SQLBuilder.update] *)
Definition update (self : SQLBuilder) (table : string) (data : Dict.t pyval)
    (conditions : option (list cond_input)) (expression : option string)
    (allow_full : bool) : M (string * binding) :=
  if negb (is_identifier table) then lift (raise (InvalidTableName table))
  else
    '(sets, params) ← lift (update_sets self data [] []);
    let sql := "UPDATE " +:+ quoted self table +:+ " SET "
                 +:+ Str.join ", " sets in
    acc ← match conditions with
          | None | Some [] =>
              if negb allow_full then lift (raise UpdateWithoutWhere)
              else mret (sql, params)
          | Some _ =>
              w ← build_where self conditions expression;
              mret (clause " WHERE " w (sql, params))
          end;
    mret (positional_on_mysql_sqlite self (fst acc) (snd acc)).

(** [SQLBuilder.delete] *)
Definition delete (self : SQLBuilder) (table : string)
    (conditions : option (list cond_input)) (expression : option string)
    (allow_full : bool) : M (string * binding) :=
  if negb (is_identifier table) then lift (raise (InvalidTableName table))
  else
    let sql := "DELETE FROM " +:+ quoted self table in
    let params : Dict.t pyval := [] in
    acc ← match conditions with
          | None | Some [] =>
              if negb allow_full then lift (raise DeleteWithoutWhere)
              else mret (sql, params)
          | Some _ =>
              w ← build_where self conditions expression;
              mret (clause " WHERE " w (sql, params))
          end;
    mret (positional_on_mysql_sqlite self (fst acc) (snd acc)).

(** [SQLBuilder.upsert] (the warning it logs is not modelled). *)
Definition upsert (self : SQLBuilder) (table : string) (data : Dict.t pyval)
    (pk : list string) : result (string * binding) :=
  if negb (is_identifier table) then raise (InvalidTableName table)
  else
    let cols := Dict.keys data in
    if negb (forallb is_identifier (cols ++ pk))
    then raise (InvalidColumnNames (cols ++ pk))
    else
      let vals := List.map (fun c => ph self +:+ c) cols in
      let non_pk := List.filter (fun c => negb (Str.mem c pk)) cols in
      let params := data in
      let insert_into :=
        "INSERT INTO " +:+ quoted self table +:+ " ("
          +:+ Str.join ", " (List.map (quoted self) cols) +:+ ") VALUES ("
          +:+ Str.join ", " vals +:+ ")" in
      let on_conflict (excluded : string) :=
        let updates :=
          List.map (fun c => quoted self c +:+ "=" +:+ excluded +:+ "."
                               +:+ quoted self c) non_pk in
        insert_into +:+ " ON CONFLICT ("
          +:+ Str.join ", " (List.map (quoted self) pk)
          +:+ ") DO UPDATE SET " +:+ Str.join ", " updates in
      sql ←
        (if String.eqb (dialect self) "postgres" then Ok (on_conflict "EXCLUDED")
         else if String.eqb (dialect self) "sqlite" then Ok (on_conflict "excluded")
         else if String.eqb (dialect self) "mysql" then
           let updates :=
             List.map (fun c => quoted self c +:+ "=VALUES(" +:+ quoted self c
                                  +:+ ")") non_pk in
           Ok (insert_into +:+ " ON DUPLICATE KEY UPDATE "
                 +:+ Str.join ", " updates)
         else if Str.mem (dialect self) ["mssql"; "oracle"] then
           let join_cond :=
             Str.join " AND "
               (List.map (fun k => "T." +:+ quoted self k +:+ "=S."
                                     +:+ quoted self k) pk) in
           let upd :=
             Str.join ", "
               (List.map (fun c => "T." +:+ quoted self c +:+ "=S."
                                     +:+ quoted self c) non_pk) in
           let vals_clause :=
             Str.join ", " (List.map (fun c => ph self +:+ c) cols) in
           Ok ("MERGE INTO " +:+ quoted self table +:+ " T USING (VALUES ("
                 +:+ vals_clause +:+ ")) S ("
                 +:+ Str.join ", " (List.map (quoted self) cols)
                 +:+ ") ON (" +:+ join_cond
                 +:+ ") WHEN MATCHED THEN UPDATE SET " +:+ upd
                 +:+ " WHEN NOT MATCHED THEN INSERT ("
                 +:+ Str.join ", " (List.map (quoted self) cols)
                 +:+ ") VALUES ("
                 +:+ Str.join ", "
                       (List.map (fun c => "S." +:+ quoted self c) cols)
                 +:+ ")")
         else raise (UpsertNotSupported (dialect self)));
      Ok (positional_on_mysql_sqlite self sql params).

(** A column name that closes the quotation and carries a second statement. *)
Definition injected_column : string :=
  "id" +:+ Str.dquote +:+ " FROM t; DROP TABLE t; --".

(** ** [sql_builder/adapt_sql.py] *)

(** [re.sub(pattern, repl, s)] for a pattern that matches no empty string:
    [m s] is the replacement and the text after the match when the pattern
    matches at the head of [s]; [skip] counts the characters of the current
    match still to be passed over. *)
Fixpoint re_sub (m : string -> option (string * string)) (skip : nat)
    (s : string) : string :=
  match s with
  | EmptyString => ""
  | String c r =>
      match skip with
      | S k => re_sub m k r
      | O =>
          match m s with
          | Some (replacement, rest) =>
              replacement +:+
              re_sub m (String.length s - String.length rest - 1)%nat r
          | None => String c (re_sub m 0 r)
          end
      end
  end.

Fixpoint leading_word (s : string) : string :=
  match s with
  | String c r => if Str.is_word c then String c (leading_word r) else ""
  | EmptyString => ""
  end.

(** [:(\w+)] at the head of [s], replaced by [template] of group 1. *)
Definition match_placeholder (template : string -> string) (s : string)
    : option (string * string) :=
  match s with
  | String ":" r =>
      match leading_word r with
      | EmptyString => None
      | name => Some (template name, drop_chars (String.length name) r)
      end
  | _ => None
  end.

(** A literal at the head of [s], letters compared without case ([re.I]). *)
Fixpoint strip_prefix_ci (p s : string) : option string :=
  match p, s with
  | EmptyString, _ => Some s
  | String a p', String b s' =>
      if Ascii.eqb (Str.lower_char a) (Str.lower_char b)
      then strip_prefix_ci p' s' else None
  | String _ _, EmptyString => None
  end.

(** [(\d+)] at the head of [s]: the digits and the text after them. *)
Definition match_digits (s : string) : option (string * string) :=
  match leading_digits s with
  | EmptyString => None
  | ds => Some (ds, drop_chars (String.length ds) s)
  end.

(** [OFFSET (\d+) ROWS(?: FETCH NEXT (\d+) ROWS ONLY)?] at the head of
    [s], without case: groups 1 and 2 and the text after the match. *)
Definition match_offset_rows (s : string)
    : option (string * option string * string) :=
  s1 ← strip_prefix_ci "OFFSET " s;
  '(off, s2) ← match_digits s1;
  s3 ← strip_prefix_ci " ROWS" s2;
  let fetch :=
    s4 ← strip_prefix_ci " FETCH NEXT " s3;
    '(lim, s5) ← match_digits s4;
    s6 ← strip_prefix_ci " ROWS ONLY" s5;
    Some (lim, s6) in
  match fetch with
  | Some (lim, s6) => Some (off, Some lim, s6)
  | None => Some (off, None, s3)
  end.

(** [_patch] of the postgres branch; group 1 is never empty. *)
Definition patch_postgres (s : string) : option (string * string) :=
  '(off, lim, rest) ← match_offset_rows s;
  let lim_txt := match lim with Some l => " LIMIT " +:+ l | None => "" end in
  let off_txt := " OFFSET " +:+ off in
  Some (lim_txt +:+ off_txt, rest).

(** [_patch_mysql] *)
Definition patch_mysql (s : string) : option (string * string) :=
  '(off, lim, rest) ← match_offset_rows s;
  Some (match lim with
        | Some l => " LIMIT " +:+ l +:+ " OFFSET " +:+ off
        | None => " OFFSET " +:+ off
        end, rest).

(** [adapt_sql] *)
Definition adapt_sql (sql : string) (params : Dict.t pyval) (dialect : string)
    : result (string * binding) :=
  let d := Str.lower dialect in
  if String.eqb d "oracle" then Ok (sql, Named params)
  else if String.eqb d "mssql" then
    let sql := re_sub (match_placeholder (fun n => "@" +:+ n)) 0 sql in
    Ok (sql, Named params)
  else if Str.mem d ["postgres"; "postgresql"] then
    let sql := re_sub (match_placeholder (fun n => "%(" +:+ n +:+ ")s")) 0 sql in
    let sql := re_sub patch_postgres 0 sql in
    Ok (sql, Named params)
  else if Str.mem d ["mysql"; "sqlite"] then
    let sql := re_sub (match_placeholder (fun _ => "?")) 0 sql in
    let sql := re_sub patch_mysql 0 sql in
    Ok (sql, Positional (Dict.values params))
  else raise (UnknownDialect d).

(** *** The positional binding in the words of the specification *)

(** The names of the [:name] markers of [sql], from left to right. *)
Fixpoint markers (skip : nat) (sql : string) : list string :=
  match sql with
  | EmptyString => []
  | String _ r =>
      match skip with
      | S k => markers k r
      | O =>
          match match_placeholder (fun name => name) sql with
          | Some (name, _) => name :: markers (String.length name) r
          | None => markers 0 r
          end
      end
  end.

(** The first occurrence of each name, in order. *)
Fixpoint first_seen (seen names : list string) : list string :=
  match names with
  | [] => []
  | x :: names' =>
      if Str.mem x seen then first_seen seen names'
      else x :: first_seen (x :: seen) names'
  end.

(** The positional sequence in the words of the specification: the value of
    each marker, in the order in which the markers are first seen. *)
Definition positional_by_first_occurrence (sql : string) (params : Dict.t pyval)
    : list pyval :=
  omap (fun name => Dict.get name params) (first_seen [] (markers 0 sql)).

(** ** [sqlbbw/corrector.py] *)

(** The entries of [coercers] in [sqlbbw/mappings.py].  Each one is a call
    into pandas; what it computes is the parameter [apply_coercer] below. *)
Inductive coercer : Type :=
| AsStr
| ToInt64
| ToFloat32
| ToFloat64
| AsBool
| AsBoolOrInt8
| ToDatetime
| ToDatetimeDayfirst
| ToTimedelta.

(** [coercers]: dialect, then base type. *)
Definition coercers : gmap string (gmap string coercer) :=
  list_to_map
    [("oracle", list_to_map
        [("VARCHAR2", AsStr); ("NUMBER", ToInt64); ("BINARY_FLOAT", ToFloat32);
         ("BINARY_DOUBLE", ToFloat64); ("DATE", ToDatetimeDayfirst);
         ("INTERVAL DAY TO SECOND", ToTimedelta)]);
     ("mssql", list_to_map
        [("VARCHAR", AsStr); ("BIGINT", ToInt64); ("REAL", ToFloat32);
         ("FLOAT", ToFloat64); ("BIT", AsBool); ("DATETIME", ToDatetime)]);
     ("mysql", list_to_map
        [("VARCHAR", AsStr); ("BIGINT", ToInt64); ("FLOAT", ToFloat32);
         ("DOUBLE", ToFloat64); ("TINYINT", AsBoolOrInt8);
         ("DATETIME", ToDatetime)]);
     ("postgresql", list_to_map
        [("VARCHAR", AsStr); ("TEXT", AsStr); ("BIGINT", ToInt64);
         ("REAL", ToFloat32); ("DOUBLE PRECISION", ToFloat64);
         ("BOOLEAN", AsBool); ("TIMESTAMP", ToDatetime);
         ("INTERVAL", ToTimedelta)]);
     ("sqlite", list_to_map
        [("TEXT", AsStr); ("INTEGER", ToInt64); ("REAL", ToFloat64)])].

(** [type_str.split('(')[0]] *)
Fixpoint before_paren (s : string) : string :=
  match s with
  | EmptyString => ""
  | String c r => if Ascii.eqb c "(" then "" else String c (before_paren r)
  end.

Section Corrector.

(** A cell is [None] or an object of the type [W]; a series is the list of
    its cells.  pandas and the schema inspector are outside the sources:
    - [apply_coercer co s type_str] is the call of the table entry [co] on
      the series [s], with the exception it may raise;
    - [py_str] is [str(value)] and [astype_str] is [s.astype(str)], which
      are taken never to raise;
    - [get_columns table] is [inspector.get_columns(table)], as pairs of
      [c['name']] and [str(c['type'])]. *)
Context {W : Type}.
Variable apply_coercer : coercer -> list (option W) -> string -> result (list (option W)).
Variable py_str : W -> W.
Variable astype_str : list (option W) -> list (option W).
Variable get_columns : string -> result (list (string * string)).

Record DataCorrector : Type := mkDataCorrector {
  db : string;
  col_cache : gmap string (gmap string string)
}.

(** [DataCorrector.__init__] *)
Definition DataCorrector_init (db : string) : DataCorrector :=
  mkDataCorrector (Str.lower db) ∅.

(** [DataCorrector.cols]: the schema of [table], read once and cached. *)
Definition cols (self : DataCorrector) (table : string)
    : result (gmap string string) * DataCorrector :=
  match col_cache self !! table with
  | Some meta => (Ok meta, self)
  | None =>
      match get_columns table with
      | Ok cs =>
          let meta : gmap string string :=
            fold_left (fun m c => <[fst c := Str.upper (snd c)]> m) cs ∅ in
          (Ok meta, mkDataCorrector (db self) (<[table := meta]> (col_cache self)))
      | Err e => (Err e, self)
      end
  end.

(** [coercers.get(self.db, {}).get(base_type)] *)
Definition lookup_coercer (self : DataCorrector) (base_type : string)
    : option coercer :=
  default ∅ (coercers !! db self) !! base_type.

(** [series[0]] *)
Definition first_cell (s : list (option W)) : result (option W) :=
  match s with
  | v :: _ => Ok v
  | [] => raise KeyError
  end.

(** The expression under [try] in [fix_rows]. *)
Definition coerce_value (co : option coercer) (value : option W) (type_str : string)
    : result (option W) :=
  match value with
  | None => Ok None
  | Some w =>
      match co with
      | Some co => s ← apply_coercer co [value] type_str; first_cell s
      | None => Ok (Some (py_str w))
      end
  end.

(** What the loop of [fix_rows] stores for an item whose key is a column:
    the coerced value, or [None] when the coercion raised. *)
Definition stored (self : DataCorrector) (value : option W) (type_str : string)
    : option W :=
  match coerce_value (lookup_coercer self (before_paren type_str)) value type_str with
  | Ok v => v
  | Err _ => None
  end.

(** The loop of [fix_rows] over [row.items()]. *)
Fixpoint fix_items (self : DataCorrector) (meta : gmap string string)
    (items : Dict.t (option W)) (corrected : Dict.t (option W)) : Dict.t (option W) :=
  match items with
  | [] => corrected
  | (key, value) :: items' =>
      match meta !! key with
      | None => fix_items self meta items' corrected
      | Some type_str =>
          let base_type := before_paren type_str in
          let co := lookup_coercer self base_type in
          let corrected :=
            match coerce_value co value type_str with
            | Ok v => Dict.set key v corrected
            | Err _ => Dict.set key None corrected
            end in
          fix_items self meta items' corrected
      end
  end.

(** [DataCorrector.fix_rows] *)
Definition fix_rows (self : DataCorrector) (table : string)
    (rows : list (Dict.t (option W))) : result (list (Dict.t (option W))) * DataCorrector :=
  match cols self table with
  | (Ok meta, self') =>
      (Ok (List.map (fun row => fix_items self' meta row []) rows), self')
  | (Err e, self') => (Err e, self')
  end.

(** The body of the loop of [fix_df] for the column [col]. *)
Definition fix_column (self : DataCorrector) (meta : gmap string string)
    (out : Dict.t (list (option W))) (col : string) : Dict.t (list (option W)) :=
  match meta !! col, Dict.get col out with
  | Some type_str, Some s =>
      let base_type := before_paren type_str in
      match lookup_coercer self base_type with
      | Some co =>
          match apply_coercer co s type_str with
          | Ok s' => Dict.set col s' out
          | Err _ => Dict.set col (astype_str s) out
          end
      | None => Dict.set col (astype_str s) out
      end
  | _, _ => out
  end.

(** [DataCorrector.fix_df]; a frame is the dictionary of its columns. *)
Definition fix_df (self : DataCorrector) (table : string) (df : Dict.t (list (option W)))
    : result (Dict.t (list (option W))) * DataCorrector :=
  match cols self table with
  | (Ok meta, self') =>
      (Ok (fold_left (fix_column self' meta) (Dict.keys df) df), self')
  | (Err e, self') => (Err e, self')
  end.

End Corrector.

(** *** [cast_df]: epoch columns *)

(** [patterns['epochtime']], the first entry of [patterns]:
    [^\d{10}(\.\d+)?$], [^\d{13}$], [^\d{16}$]. *)
Definition epochtime_patterns : list Re.regex :=
  [Re.Cat (Re.rep 10 Re.d) (Re.opt (Re.Cat (Re.chr ".") (Re.plus Re.d)));
   Re.rep 13 Re.d;
   Re.rep 16 Re.d].

(** [df[col].dropna().astype(str).str.strip()] on a column of strings *)
Definition non_null_sample (column : list (option string)) : list string :=
  List.map Str.strip (omap id column).

(** [all(any(re.match(regex, val) for regex in regexes) for val in sample)] *)
Definition all_match (regexes : list Re.regex) (sample : list string) : bool :=
  forallb (fun val => existsb (fun r => Re.match_anchored r val) regexes) sample.

(** The number that a string of digits with an optional fraction denotes. *)
Definition decimal_value (s : string) : Q :=
  let int_part := leading_digits s in
  let frac :=
    match drop_chars (String.length int_part) s with
    | String "." f => leading_digits f
    | _ => ""
    end in
  (int_of_digits int_part # 1) +
  (int_of_digits frac # Z.to_pos (10 ^ Z.of_nat (String.length frac))).

(** [pd.to_numeric(df[col], errors='coerce')] on the values of an epoch
    column, read as exact decimals (white space around a number is taken to
    be ignored); a null stays out of the maximum. *)
Definition to_numeric (column : list (option string)) : list Q :=
  List.map (fun s => decimal_value (Str.strip s)) (omap id column).

(** [s.max()]; the maximum of no value is NaN, here [None]. *)
Definition series_max (s : list Q) : option Q :=
  match s with
  | [] => None
  | x :: s' => Some (fold_left (fun m y => if Qle_bool m y then y else m) s' x)
  end.

(** [m > bound]; a comparison with NaN is false.  The numbers are compared
    exactly: a value that matches an epoch pattern and lies above [1e12] is
    an integer of 13 or 16 digits, and rounding it to a float does not move
    it across [1e12] or [1e15]. *)
Definition exceeds (m : option Q) (bound : Q) : bool :=
  match m with
  | Some x => negb (Qle_bool x bound)
  | None => false
  end.

Inductive time_unit : Type := unit_s | unit_ms | unit_us.

(** The [if]/[elif]/[else] of the epoch branch, in the order of the source:
    [1e12] is tested first. *)
Definition epoch_unit (m : option Q) : time_unit :=
  if exceeds m (10 ^ 12 # 1) then unit_ms
  else if exceeds m (10 ^ 15 # 1) then unit_us
  else unit_s.

(** What [cast_df] does with an object column of strings, as far as the
    epoch branch goes: [None] when the sample is empty or some value
    matches no epoch pattern (the later entries of [patterns] are then
    tried), else the unit passed to [pd.to_datetime]. *)
Definition cast_epoch (column : list (option string)) : option time_unit :=
  let sample := non_null_sample column in
  match sample with
  | [] => None
  | _ =>
      if all_match epochtime_patterns sample
      then Some (epoch_unit (series_max (to_numeric column)))
      else None
  end.

(** ** [SQLBuilder.insert_bulk] and [SQLBuilder.insert] *)

(** [f'{k}_{idx}'], the name of the parameter of column [k] in row [idx] *)
Definition cell_name (k : string) (idx : nat) : string :=
  k +:+ "_" +:+ pretty idx.

(** [row.get(k)] *)
Definition row_get (k : string) (row : Dict.t pyval) : pyval :=
  default VNone (Dict.get k row).

(** The loop of [insert_bulk] over [keys] for the row [idx]. *)
Fixpoint insert_cells (self : SQLBuilder) (idx : nat) (row : Dict.t pyval)
    (keys : list string) (params : Dict.t pyval) (phs : list string)
    : Dict.t pyval * list string :=
  match keys with
  | [] => (params, phs)
  | k :: keys' =>
      let pname := cell_name k idx in
      insert_cells self idx row keys'
        (Dict.set pname (row_get k row) params)
        (phs ++ [ph self +:+ pname])
  end.

(** The loop of [insert_bulk] over [enumerate(rows)]; [line] makes the entry
    of [into_lines] or of [ph_rows] from the placeholders of a row. *)
Fixpoint insert_lines (self : SQLBuilder) (keys : list string)
    (line : list string -> string) (rows : list (nat * Dict.t pyval))
    (params : Dict.t pyval) (lines : list string)
    : Dict.t pyval * list string :=
  match rows with
  | [] => (params, lines)
  | (idx, row) :: rows' =>
      let '(params, phs) := insert_cells self idx row keys params [] in
      insert_lines self keys line rows' params (lines ++ [line phs])
  end.

(** [SQLBuilder.insert_bulk].  In the branch of oracle and mssql the
    conditional expression takes the whole concatenation as its first
    operand: for mssql the statement is the text [INSERT INTO] alone. *)
Definition insert_bulk (self : SQLBuilder) (table : string)
    (rows : list (Dict.t pyval)) : result (string * binding) :=
  match rows with
  | [] => raise NoRowsProvided
  | row0 :: _ =>
      if negb (is_identifier table) then raise (InvalidTableName table)
      else
        let keys := Dict.keys row0 in
        if negb (forallb is_identifier keys) then raise (InvalidColumnNames keys)
        else
          let columns := Str.join ", " (List.map (quoted self) keys) in
          let '(sql, params) :=
            if Str.mem (dialect self) ["oracle"; "mssql"] then
              let '(params, into_lines) :=
                insert_lines self keys
                  (fun phs => "INTO " +:+ quoted self table +:+ " (" +:+ columns
                                +:+ ") VALUES (" +:+ Str.join ", " phs +:+ ")")
                  (enumerate rows) [] [] in
              (if String.eqb (dialect self) "oracle"
               then "INSERT ALL" +:+ String Str.newline ""
                      +:+ Str.join " " into_lines
                      +:+ String Str.newline "" +:+ "SELECT * FROM DUAL"
               else "INSERT INTO", params)
            else
              let '(params, ph_rows) :=
                insert_lines self keys
                  (fun phs => "(" +:+ Str.join ", " phs +:+ ")")
                  (enumerate rows) [] [] in
              ("INSERT INTO " +:+ quoted self table +:+ " (" +:+ columns
                 +:+ ") VALUES " +:+ Str.join ", " ph_rows, params) in
          Ok (positional_on_mysql_sqlite self sql params)
  end.

(** [SQLBuilder.insert] *)
Definition insert (self : SQLBuilder) (table : string) (data : Dict.t pyval)
    : result (string * binding) :=
  insert_bulk self table [data].

(** The cells of the row [ir] of [enumerate(rows)], in the order of [keys]:
    what the loops of [insert_bulk] add to [params] for that row. *)
Definition insert_cells_of (keys : list string) (ir : nat * Dict.t pyval)
    : Dict.t pyval :=
  List.map (fun k => (cell_name k (fst ir), row_get k (snd ir))) keys.

(** The placeholders of the row [ir], in the order of [keys]. *)
Definition insert_phs_of (self : SQLBuilder) (keys : list string)
    (ir : nat * Dict.t pyval) : list string :=
  List.map (fun k => ph self +:+ cell_name k (fst ir)) keys.

(** ** [sql_builder/json_handler.py] *)

(** The exceptions of the JSON front end: those of the builder and of
    [adapt_sql], the missing required fields, the [NotImplementedError] of
    [json_update] and the [AttributeError] of a method call on an object
    that lacks the method. *)
Inductive front_exn : Type :=
| FromBuilder (e : exn)
| MissingRequiredFields (missing : list string)
| LimitInUpdateNotSupported
| AttributeError (object_type attribute : string).

Inductive outcome (A : Type) : Type :=
| Returned (a : A)
| Raised (e : front_exn).
Arguments Returned {A} a.
Arguments Raised {A} e.

Definition of_result {A} (r : result A) : outcome A :=
  match r with
  | Ok a => Returned a
  | Err e => Raised (FromBuilder e)
  end.

(** [adapt_sql] on what a builder returned.  [update], [delete] and
    [insert_bulk] return a list for mysql and sqlite; [adapt_sql] then calls
    [params.values()] on that list. *)
Definition adapt_sql_binding (sql : string) (params : binding) (dialect : string)
    : outcome (string * binding) :=
  match params with
  | Named params => of_result (adapt_sql sql params dialect)
  | Positional values =>
      let d := Str.lower dialect in
      if String.eqb d "oracle" then Returned (sql, Positional values)
      else if String.eqb d "mssql" then
        let sql := re_sub (match_placeholder (fun n => "@" +:+ n)) 0 sql in
        Returned (sql, Positional values)
      else if Str.mem d ["postgres"; "postgresql"] then
        let sql := re_sub (match_placeholder (fun n => "%(" +:+ n +:+ ")s")) 0 sql in
        let sql := re_sub patch_postgres 0 sql in
        Returned (sql, Positional values)
      else if Str.mem d ["mysql"; "sqlite"] then
        Raised (AttributeError "list" "values")
      else Raised (FromBuilder (UnknownDialect d))
  end.

(** An entry of [payload['orderby']]: [{field, direction?}] *)
Record order_item : Type := mkOrderItem {
  oi_field : string;
  oi_direction : option string
}.

(** The payload of [json_select], [json_update] and [json_delete]: each key
    is absent ([None]) or holds a value of the type the builder expects. *)
Record payload : Type := mkPayload {
  p_table : option string;
  p_fields : option columns_arg;
  p_condition : option (list cond_input);
  p_expression : option string;
  p_orderby : option (list order_item);
  p_groupby : option (list string);
  p_having : option (list cond_input);
  p_having_expression : option string;
  p_limit : option Z;
  p_start : option Z;
  p_updateValues : option (Dict.t pyval)
}.

(** An entry of the [rows] of [json_insert]: [{table, insertValues}] *)
Record insert_item : Type := mkInsertItem {
  ii_table : string;
  ii_insertValues : Dict.t pyval
}.

Section JsonHandler.
Variables placeholders quote_chars : gmap string string.

(** [json_select] *)
Definition json_select (payload : payload) (dialect : string) (n : nat)
    : outcome (string * binding) * nat :=
  let builder := SQLBuilder_init placeholders quote_chars dialect in
  match p_table payload with
  | None => (Raised (MissingRequiredFields ["table"]), n)
  | Some table =>
      let order_by :=
        List.map (fun o => (oi_field o, default "ASC" (oi_direction o)))
                 (default [] (p_orderby payload)) in
      match select builder table (default (ColStr "*") (p_fields payload))
                   (p_condition payload) (p_expression payload) (Some order_by)
                   (p_limit payload) (p_start payload) (p_groupby payload)
                   (p_having payload) (p_having_expression payload) n with
      | (Ok (sql, params), n') => (of_result (adapt_sql sql params dialect), n')
      | (Err e, n') => (Raised (FromBuilder e), n')
      end
  end.

(** [json_update] *)
Definition json_update (payload : payload) (dialect : string) (n : nat)
    : outcome (string * binding) * nat :=
  match p_table payload, p_updateValues payload with
  | Some table, Some data =>
      let builder := SQLBuilder_init placeholders quote_chars dialect in
      match p_limit payload with
      | Some _ => (Raised LimitInUpdateNotSupported, n)
      | None =>
          match update builder table data (p_condition payload)
                       (p_expression payload) false n with
          | (Ok (sql, params), n') => (adapt_sql_binding sql params dialect, n')
          | (Err e, n') => (Raised (FromBuilder e), n')
          end
      end
  | t, u =>
      (Raised (MissingRequiredFields
                 (match t with None => ["table"] | Some _ => [] end ++
                  match u with None => ["updateValues"] | Some _ => [] end)), n)
  end.

(** [json_delete] *)
Definition json_delete (payload : payload) (dialect : string) (n : nat)
    : outcome (string * binding) * nat :=
  match p_table payload with
  | None => (Raised (MissingRequiredFields ["table"]), n)
  | Some table =>
      let builder := SQLBuilder_init placeholders quote_chars dialect in
      match delete builder table (p_condition payload) (p_expression payload)
                   false n with
      | (Ok (sql, params), n') => (adapt_sql_binding sql params dialect, n')
      | (Err e, n') => (Raised (FromBuilder e), n')
      end
  end.

(** The comprehension of [json_insert] that adapts [builder.insert] of
    every row, one row after the other. *)
Fixpoint json_insert_each (builder : SQLBuilder) (dialect : string)
    (rows : list insert_item) : outcome (list (string * binding)) :=
  match rows with
  | [] => Returned []
  | r :: rows' =>
      match insert builder (ii_table r) (ii_insertValues r) with
      | Err e => Raised (FromBuilder e)
      | Ok (sql, params) =>
          match adapt_sql_binding sql params dialect with
          | Raised e => Raised e
          | Returned q =>
              match json_insert_each builder dialect rows' with
              | Raised e => Raised e
              | Returned qs => Returned (q :: qs)
              end
          end
      end
  end.

(** [len(set(r['table'] for r in rows)) == 1] for a list that is not empty *)
Definition same_table (rows : list insert_item) : bool :=
  match rows with
  | [] => false
  | r :: rows' => forallb (fun r' => String.eqb (ii_table r') (ii_table r)) rows'
  end.

(** [json_insert] *)
Definition json_insert (rows : list insert_item) (dialect : string)
    (multi_row : bool) : outcome (list (string * binding)) :=
  match rows with
  | [] => Raised (FromBuilder NoRowsProvided)
  | r0 :: _ =>
      let builder := SQLBuilder_init placeholders quote_chars dialect in
      if multi_row && same_table rows then
        match insert_bulk builder (ii_table r0) (List.map ii_insertValues rows) with
        | Err e => Raised (FromBuilder e)
        | Ok (sql, params) =>
            match adapt_sql_binding sql params dialect with
            | Raised e => Raised e
            | Returned q => Returned [q]
            end
        end
      else json_insert_each builder dialect rows
  end.

End JsonHandler.

(** ** [sqlbbw/mappings.py] and the type maps of [DataCorrector] *)

(** [f'VARCHAR({default_varchar_length})'] and the like *)
Definition default_varchar_length : nat := 255.
Definition sized (type_name : string) : string :=
  type_name +:+ "(" +:+ pretty default_varchar_length +:+ ")".

(** [dtype_map]: dialect, then pandas dtype. *)
Definition dtype_map : gmap string (gmap string string) :=
  list_to_map
    [("oracle", list_to_map
        [("object", sized "VARCHAR2"); ("string", sized "VARCHAR2");
         ("category", sized "VARCHAR2"); ("int64", "NUMBER"); ("Int64", "NUMBER");
         ("float32", "BINARY_FLOAT"); ("float64", "BINARY_DOUBLE");
         ("bool", "NUMBER(1,0)"); ("datetime64[ns]", "DATE");
         ("timedelta[ns]", "INTERVAL DAY TO SECOND"); ("int", "NUMBER");
         ("float", "BINARY_DOUBLE"); ("str", sized "VARCHAR2");
         ("datetime", "DATE"); ("timedelta", "INTERVAL DAY TO SECOND")]);
     ("mssql", list_to_map
        [("object", sized "VARCHAR"); ("string", sized "VARCHAR");
         ("category", sized "VARCHAR"); ("int64", "BIGINT"); ("Int64", "BIGINT");
         ("float32", "REAL"); ("float64", "FLOAT"); ("bool", "BIT");
         ("datetime64[ns]", "DATETIME"); ("timedelta[ns]", "BIGINT");
         ("int", "BIGINT"); ("float", "FLOAT"); ("str", sized "VARCHAR");
         ("datetime", "DATETIME"); ("timedelta", "BIGINT")]);
     ("mysql", list_to_map
        [("object", sized "VARCHAR"); ("string", sized "VARCHAR");
         ("category", sized "VARCHAR"); ("int64", "BIGINT"); ("Int64", "BIGINT");
         ("float32", "FLOAT"); ("float64", "DOUBLE"); ("bool", "TINYINT(1)");
         ("datetime64[ns]", "DATETIME"); ("timedelta[ns]", "BIGINT");
         ("int", "BIGINT"); ("float", "DOUBLE"); ("str", sized "VARCHAR");
         ("datetime", "DATETIME"); ("timedelta", "BIGINT")]);
     ("postgresql", list_to_map
        [("object", sized "VARCHAR"); ("string", sized "VARCHAR");
         ("category", sized "VARCHAR"); ("int64", "BIGINT"); ("Int64", "BIGINT");
         ("float32", "REAL"); ("float64", "DOUBLE PRECISION"); ("bool", "BOOLEAN");
         ("datetime64[ns]", "TIMESTAMP"); ("timedelta[ns]", "INTERVAL");
         ("int", "BIGINT"); ("float", "DOUBLE PRECISION"); ("str", sized "VARCHAR");
         ("datetime", "TIMESTAMP"); ("timedelta", "INTERVAL")]);
     ("sqlite", list_to_map
        [("object", "TEXT"); ("string", "TEXT"); ("category", "TEXT");
         ("int64", "INTEGER"); ("Int64", "INTEGER"); ("float32", "REAL");
         ("float64", "REAL"); ("bool", "INTEGER"); ("datetime64[ns]", "TEXT");
         ("timedelta[ns]", "INTEGER"); ("int", "INTEGER"); ("float", "REAL");
         ("str", "TEXT"); ("datetime", "TEXT"); ("timedelta", "INTEGER")])].

(** [DataCorrector.dtype_to_sql] *)
Definition dtype_to_sql (self : DataCorrector) (dtype : string) : string :=
  default "TEXT" (default ∅ (dtype_map !! db self) !! Str.lower dtype).



(** ** [patterns] of [sqlbbw/mappings.py] and the type inference of [cast_df] *)

(** The text [t], character by character. *)
Fixpoint re_lit (t : string) : Re.regex :=
  match t with
  | EmptyString => Re.Eps
  | String c t' => Re.Cat (Re.chr c) (re_lit t')
  end.

(** The text [t] under the flag [(?i)]. *)
Fixpoint re_lit_ci (t : string) : Re.regex :=
  match t with
  | EmptyString => Re.Eps
  | String c t' =>
      Re.Cat (Re.Cls (fun x => Ascii.eqb (Str.lower_char x) (Str.lower_char c)))
             (re_lit_ci t')
  end.

(** A class given by its members. *)
Definition re_set (chars : string) : Re.regex :=
  Re.Cls (fun c => existsb (Ascii.eqb c) (list_ascii_of_string chars)).

(** The patterns [rs] one after the other, and the alternatives [rs]. *)
Definition re_seq (rs : list Re.regex) : Re.regex := fold_right Re.Cat Re.Eps rs.
Definition re_any_of (rs : list Re.regex) : Re.regex := fold_right Re.Alt Re.Nul rs.

(** [\s], [.] and [[^\s]] *)
Definition re_s : Re.regex := Re.Cls Str.is_space.
Definition re_dot : Re.regex := Re.Cls (fun c => negb (Ascii.eqb c Str.newline)).
Definition re_not_s : Re.regex := Re.Cls (fun c => negb (Str.is_space c)).

(** [[0-9a-fA-F]], [[a-zA-Z]], [[a-zA-Z0-9._%+-]] and [[a-zA-Z0-9.-]] *)
Definition is_hex (c : ascii) : bool :=
  Str.is_digit c || Str.in_range 97 102 c || Str.in_range 65 70 c.
Definition is_alpha (c : ascii) : bool := Str.is_lower c || Str.is_upper c.
Definition is_email_local (c : ascii) : bool :=
  is_alpha c || Str.is_digit c || existsb (Ascii.eqb c) (list_ascii_of_string "._%+-").
Definition is_email_domain (c : ascii) : bool :=
  is_alpha c || Str.is_digit c || existsb (Ascii.eqb c) (list_ascii_of_string ".-").


(** [(?i)^(true|false|yes|no|y|n|0|1)$] *)
Definition boolean_pattern : Re.regex :=
  re_any_of (List.map re_lit_ci ["true"; "false"; "yes"; "no"; "y"; "n"; "0"; "1"]).

(** [^-?\d+$] *)
Definition integer_pattern : Re.regex :=
  re_seq [Re.opt (Re.chr "-"); Re.plus Re.d].

(** [patterns], in the order of the dictionary, which is the order in which
    [cast_df] tries the types. *)
Definition patterns : list (string * list Re.regex) :=
  let d := Re.d in
  let d2 := Re.rep 2 d in
  let d4 := Re.rep 4 d in
  let d1_2 := Re.Cat d (Re.opt d) in
  let w3 := Re.rep 3 Re.w in
  let minus := Re.opt (Re.chr "-") in
  let fraction := Re.opt (Re.Cat (Re.chr ".") (Re.plus d)) in
  let ymd := re_seq [d4; Re.chr "-"; d2; Re.chr "-"; d2] in
  let hms := re_seq [d2; Re.chr ":"; d2; Re.chr ":"; d2] in
  let hex := Re.Cls is_hex in
  [("epochtime", epochtime_patterns);
   ("date",
    [ymd;
     re_seq [d2; Re.chr "/"; d2; Re.chr "/"; d4];
     re_seq [d2; Re.chr "-"; d2; Re.chr "-"; d4];
     re_seq [d1_2; Re.chr "-"; w3; Re.chr "-"; d4];
     re_seq [w3; Re.plus re_s; d1_2; Re.opt (Re.chr ","); Re.plus re_s; d4]]);
   ("time",
    [re_seq [d1_2; Re.chr ":"; d2; Re.opt (Re.Cat (Re.chr ":") d2);
             Re.opt (re_seq [Re.Star re_s; re_set "AP"; Re.chr "M"])];
     re_seq [hms; Re.chr "."; Re.rep 3 d]]);
   ("timestamp",
    [re_seq [ymd; Re.plus re_s; hms; fraction];
     re_seq [ymd; Re.chr "T"; hms; fraction; Re.opt (Re.chr "Z")]]);
   ("integer", [integer_pattern]);
   ("float",
    [re_seq [minus; Re.Star d; Re.chr "."; Re.plus d];
     re_seq [minus; Re.plus d; Re.opt (Re.chr "."); Re.Star d; re_set "eE";
             Re.opt (re_set "+-"); Re.plus d]]);
   ("boolean", [boolean_pattern]);
   ("uuid",
    [re_seq [Re.rep 8 hex; Re.chr "-"; Re.rep 4 hex; Re.chr "-"; Re.rep 4 hex;
             Re.chr "-"; Re.rep 4 hex; Re.chr "-"; Re.rep 12 hex]]);
   ("email",
    [re_seq [Re.plus (Re.Cls is_email_local); Re.chr "@";
             Re.plus (Re.Cls is_email_domain); Re.chr ".";
             Re.rep 2 (Re.Cls is_alpha); Re.Star (Re.Cls is_alpha)]]);
   ("url", [re_seq [re_lit "http"; Re.opt (Re.chr "s"); re_lit "://"; Re.plus re_not_s]]);
   ("json",
    [re_seq [Re.chr "{"; Re.Star re_dot; Re.chr "}"];
     re_seq [Re.chr "["; Re.Star re_dot; Re.chr "]"]])].

(** The loop of [cast_df] over [patterns.items()]: the first type all of
    whose sample matches one of its patterns. *)
Definition matched_type (sample : list string) : option string :=
  fst <$> List.find (fun entry => all_match (snd entry) sample) patterns.


(** The conversion that [cast_df] asks pandas for. *)
Inductive cast_action : Type :=
| to_datetime
| to_datetime_unit (unit : time_unit)
| to_Int64
| to_float64
| apply_bool_map
| astype_string.

(** The body of the loop of [cast_df] for an object column of strings:
    [None] when the column is left as it is (no value that is not null, or
    no type matched). *)
Definition cast_column (column : list (option string)) : option cast_action :=
  match non_null_sample column with
  | [] => None
  | sample =>
      matched ← matched_type sample;
      Some (if Str.mem matched ["date"; "timestamp"; "time"] then to_datetime
            else if String.eqb matched "epochtime" then
              to_datetime_unit (epoch_unit (series_max (to_numeric column)))
            else if String.eqb matched "integer" then to_Int64
            else if String.eqb matched "float" then to_float64
            else if String.eqb matched "boolean" then apply_bool_map
            else astype_string)
  end.

(** The strings that a pattern denotes: the reference against which the
    derivative matcher [Re.fullmatch] is proved below. *)
Inductive matches : Re.regex -> string -> Prop :=
| matches_eps : matches Re.Eps ""
| matches_cls (p : ascii -> bool) (c : ascii) :
    p c = true -> matches (Re.Cls p) (String c "")
| matches_cat (r1 r2 : Re.regex) (s1 s2 : string) :
    matches r1 s1 -> matches r2 s2 -> matches (Re.Cat r1 r2) (s1 +:+ s2)
| matches_alt_l (r1 r2 : Re.regex) (s : string) :
    matches r1 s -> matches (Re.Alt r1 r2) s
| matches_alt_r (r1 r2 : Re.regex) (s : string) :
    matches r2 s -> matches (Re.Alt r1 r2) s
| matches_star_nil (r : Re.regex) : matches (Re.Star r) ""
| matches_star_app (r : Re.regex) (s1 s2 : string) :
    matches r s1 -> matches (Re.Star r) s2 -> matches (Re.Star r) (s1 +:+ s2).

(** ** [_tokenize], [_coerce] and [Condition.from_string] *)

(** The names of the groups of [master_re] that make a token; the group
    [WHITESPACE], which makes none, is [None] below. *)
Inductive token_kind : Type :=
| IS_NOT_NULL | IS_NULL | NOT_IN | NOT | BETWEEN | IN | ILIKE | LIKE
| COMP_OP | LP | RP | STRING | NUMBER | AND | OR | IDENT | COMMA.

#[global] Instance token_kind_eq_dec : EqDecision token_kind.
Proof. solve_decision. Defined.

(** What [_tokenize] and [from_string] raise themselves: [SyntaxError] for
    the first, [ValueError] with the message that the name recalls for the
    others. *)
Inductive parse_exn : Type :=
| SyntaxError (pos : nat) (snippet : string)
| EmptyCondition
| MustStartWithFieldName
| IncompleteCondition
| MissingValueForComparison
| LikeRequiresStringValue
| BetweenRequiresLowAndHigh
| RequiresValues (op_kind : token_kind)
| NotInRequiresValues
| CannotParseCondition (text : string).

Inductive parsed (A : Type) : Type :=
| Parsed (a : A)
| Failed (e : parse_exn).
Arguments Parsed {A} a.
Arguments Failed {A} e.

Definition starts_word (s : string) : bool :=
  match s with
  | String c _ => Str.is_word c
  | EmptyString => false
  end.

(** [\b] at the head of [s]; [prev_word] tells whether the character
    before [s] is a word character (it is false at the start of the
    text). *)
Definition word_boundary (prev_word : bool) (s : string) : bool :=
  xorb prev_word (starts_word s).

(** [\bkw\b] under [re.I] at the head of [s], for a keyword that starts and
    ends with a letter: the text after the match. *)
Definition match_keyword (kw : string) (prev_word : bool) (s : string)
    : option string :=
  if word_boundary prev_word s then
    rest ← strip_prefix_ci kw s;
    if word_boundary true rest then Some rest else None
  else None.

Fixpoint leading_space (s : string) : string :=
  match s with
  | String c r => if Str.is_space c then String c (leading_space r) else ""
  | EmptyString => ""
  end.

(** [\s+] *)
Definition match_space (s : string) : option string :=
  match leading_space s with
  | EmptyString => None
  | ws => Some (drop_chars (String.length ws) s)
  end.

(** The first of the alternatives that matches. *)
Fixpoint first_some {A} (alts : list (option A)) : option A :=
  match alts with
  | [] => None
  | Some a :: _ => Some a
  | None :: alts' => first_some alts'
  end.

(** [!=|<>|<=|>=|>|<|=] *)
Definition match_comp_op (s : string) : option string :=
  first_some (List.map (fun op => strip_prefix_ci op s)
                       ["!="; "<>"; "<="; ">="; ">"; "<"; "="]).

(** [(?:[^']|'')*'] at the head of [s]: the text matched by the star and
    the text after the closing quote.  The star takes a pair of quotes
    when it can; when no closing quote follows, it gives the pair back and
    the first quote of the pair closes the string. *)
Fixpoint string_body (s : string) : option (string * string) :=
  match s with
  | EmptyString => None
  | String c r =>
      if Ascii.eqb c "'" then
        match r with
        | String c2 r2 =>
            if Ascii.eqb c2 "'" then
              match string_body r2 with
              | Some (body, rest) => Some (String c (String c2 body), rest)
              | None => Some ("", r)
              end
            else Some ("", r)
        | EmptyString => Some ("", r)
        end
      else
        match string_body r with
        | Some (body, rest) => Some (String c body, rest)
        | None => None
        end
  end.

(** ['(?:[^']|'')*'] *)
Definition match_string (s : string) : option string :=
  match s with
  | String "'" r => snd <$> string_body r
  | _ => None
  end.

(** [\d+(?:\.\d+)?] *)
Definition match_number (s : string) : option string :=
  match leading_digits s with
  | EmptyString => None
  | ds =>
      let r := drop_chars (String.length ds) s in
      match r with
      | String "." f =>
          match leading_digits f with
          | EmptyString => Some r
          | fs => Some (drop_chars (String.length fs) f)
          end
      | _ => Some r
      end
  end.

(** [[A-Za-z_]\w*] *)
Definition match_ident (s : string) : option string :=
  match s with
  | String c r =>
      if is_alpha c || Ascii.eqb c "_"
      then Some (drop_chars (String.length (leading_word r)) r)
      else None
  | EmptyString => None
  end.

(** [token_spec] at the head of [s]: each group with the text after its
    match, if it matches. *)
Definition token_spec (prev_word : bool) (s : string)
    : list (option token_kind * option string) :=
  [(None, match_space s);
   (Some IS_NOT_NULL, match_keyword "IS NOT NULL" prev_word s);
   (Some IS_NULL, match_keyword "IS NULL" prev_word s);
   (Some NOT_IN, match_keyword "NOT IN" prev_word s);
   (Some NOT, match_keyword "NOT" prev_word s);
   (Some BETWEEN, match_keyword "BETWEEN" prev_word s);
   (Some IN, match_keyword "IN" prev_word s);
   (Some ILIKE, match_keyword "ILIKE" prev_word s);
   (Some LIKE, match_keyword "LIKE" prev_word s);
   (Some COMP_OP, match_comp_op s);
   (Some LP, strip_prefix_ci "(" s);
   (Some RP, strip_prefix_ci ")" s);
   (Some STRING, match_string s);
   (Some NUMBER, match_number s);
   (Some AND, match_keyword "AND" prev_word s);
   (Some OR, match_keyword "OR" prev_word s);
   (Some IDENT, match_ident s);
   (Some COMMA, strip_prefix_ci "," s)].

(** [master_re.match(text, pos)]: the group of the first alternative that
    matches ([m.lastgroup]) and the text after the match. *)
Fixpoint master_re (spec : list (option token_kind * option string))
    : option (option token_kind * string) :=
  match spec with
  | [] => None
  | (kind, Some rest) :: _ => Some (kind, rest)
  | (_, None) :: spec' => master_re spec'
  end.

(** [value.replace("''", "'")] *)
Fixpoint unescape (s : string) : string :=
  match s with
  | EmptyString => ""
  | String c r =>
      if Ascii.eqb c "'" then
        match r with
        | String c2 r2 =>
            if Ascii.eqb c2 "'" then String c (unescape r2)
            else String c (unescape r)
        | EmptyString => String c ""
        end
      else String c (unescape r)
  end.

(** The loop of [_tokenize], from the position [pos] on: [s] is
    [text[pos:]], and [skip] counts the characters of the current match
    still to be passed over. *)
Fixpoint tokenize_at (prev_word : bool) (skip pos : nat) (s : string)
    : parsed (list (token_kind * string)) :=
  match s with
  | EmptyString => Parsed []
  | String c r =>
      match skip with
      | S k => tokenize_at (Str.is_word c) k (S pos) r
      | O =>
          match master_re (token_spec prev_word s) with
          | None => Failed (SyntaxError pos (substring 0 10 s))
          | Some (kind, rest) =>
              let consumed := (String.length s - String.length rest)%nat in
              let value := substring 0 consumed s in
              match tokenize_at (Str.is_word c) (consumed - 1) (S pos) r with
              | Failed e => Failed e
              | Parsed out =>
                  Parsed
                    match kind with
                    | None => out
                    | Some STRING =>
                        (STRING,
                         unescape (substring 1 (String.length value - 2) value))
                          :: out
                    | Some kind => (kind, value) :: out
                    end
              end
          end
      end
  end.

(** [_tokenize] *)
Definition _tokenize (text : string) : parsed (list (token_kind * string)) :=
  tokenize_at false 0 0 text.

Section FromString.

(** [int] and [float] are outside the sources: [py_int val] and
    [py_float val] are what they return for the string [val], [None] when
    they raise [ValueError]; [F] stands for the floats. *)
Context {F : Type}.
Variable py_int : string -> option Z.
Variable py_float : string -> option F.

(** A value that [_coerce] returns. *)
Inductive coerced : Type :=
| CBool (b : bool)
| CInt (z : Z)
| CFloat (x : F)
| CStr (s : string).

(** [_coerce] *)
Definition _coerce (val : string) : coerced :=
  let val := Str.strip val in
  if Str.mem (Str.lower val) ["true"; "yes"; "y"; "1"] then CBool true
  else if Str.mem (Str.lower val) ["false"; "no"; "n"; "0"] then CBool false
  else
    match py_int val with
    | Some z => CInt z
    | None =>
        match py_float val with
        | Some x => CFloat x
        | None => CStr val
        end
    end.

(** The loop of [from_string] over [rest[1:-1]]: the literals between the
    parentheses. *)
Definition literal_values (tokens : list (token_kind * string)) : list coerced :=
  omap (fun t => match fst t with
                 | STRING | NUMBER => Some (_coerce (snd t))
                 | _ => None
                 end) tokens.

(** The values of IN and NOT IN; [None] when [rest] is empty, does not
    start with [LP] or does not end with [RP]. *)
Definition in_values (rest : list (token_kind * string)) : option (list coerced) :=
  match rest with
  | [] => None
  | (first, _) :: inner =>
      if bool_decide (first = LP)
         && bool_decide (fst <$> List.last (Some <$> rest) None = Some RP)
      then Some (literal_values (removelast inner))
      else None
  end.

(** [Condition.from_string], up to the call [cls(field, op, values)] that
    ends each of its branches: the arguments of that call. *)
Definition from_string_args (text : string)
    : parsed (string * string * list coerced) :=
  match _tokenize text with
  | Failed e => Failed e
  | Parsed [] => Failed EmptyCondition
  | Parsed ((kind, value) :: tokens) =>
      if negb (bool_decide (kind = IDENT)) then Failed MustStartWithFieldName
      else
        let field := value in
        match tokens with
        | [] => Failed IncompleteCondition
        | (op_kind, op_value) :: rest =>
            match op_kind with
            | IS_NULL => Parsed (field, "IS NULL", [])
            | IS_NOT_NULL => Parsed (field, "IS NOT NULL", [])
            | COMP_OP =>
                match rest with
                | [] => Failed MissingValueForComparison
                | (_, v) :: _ => Parsed (field, op_value, [_coerce v])
                end
            | LIKE | ILIKE =>
                match rest with
                | (STRING, v) :: _ => Parsed (field, Str.upper op_value, [CStr v])
                | _ => Failed LikeRequiresStringValue
                end
            | BETWEEN =>
                match rest with
                | [(_, low); (_, word); (_, high)] =>
                    if String.eqb (Str.upper word) "AND"
                    then Parsed (field, "BETWEEN", [_coerce low; _coerce high])
                    else Failed BetweenRequiresLowAndHigh
                | _ => Failed BetweenRequiresLowAndHigh
                end
            | IN | NOT_IN =>
                match in_values rest with
                | Some vals => Parsed (field, Str.upper op_value, vals)
                | None => Failed (RequiresValues op_kind)
                end
            | NOT =>
                match rest with
                | (IN, _) :: rest' =>
                    match in_values rest' with
                    | Some vals => Parsed (field, "NOT IN", vals)
                    | None => Failed NotInRequiresValues
                    end
                | _ => Failed (CannotParseCondition text)
                end
            | _ => Failed (CannotParseCondition text)
            end
        end
  end.

(** The values that [pyval] has: all but the floats. *)
Definition to_pyval (v : coerced) : option pyval :=
  match v with
  | CBool b => Some (VBool b)
  | CInt z => Some (VInt z)
  | CStr s => Some (VStr s)
  | CFloat _ => None
  end.

End FromString.
Arguments coerced : clear implicits.
Arguments CBool {F} b.
Arguments CInt {F} z.
Arguments CFloat {F} x.
Arguments CStr {F} s.

(** Whether the character before the position reached after [u] is a word
    character, when it was [prev_word] before [u]. *)
Fixpoint prev_after (prev_word : bool) (u : string) : bool :=
  match u with
  | EmptyString => prev_word
  | String c r => prev_after (Str.is_word c) r
  end.

(** The words that [token_spec] makes a token of their own. *)
Definition keywords : list string :=
  ["not"; "between"; "in"; "ilike"; "like"; "and"; "or"].

(** The comparison operators of [COMP_OP]. *)
Definition comparison_operators : list string :=
  ["!="; "<>"; "<="; ">="; ">"; "<"; "="].

(** A name that [_tokenize] reads as one [IDENT] token: a letter or an
    underscore, then word characters, and none of [keywords] whatever the
    case of its letters. *)
Definition is_field_name (f : string) : bool :=
  match f with
  | String c r =>
      (is_alpha c || Ascii.eqb c "_") && Str.all Str.is_word r
      && negb (Str.mem (Str.lower f) keywords)
  | EmptyString => false
  end.

(** A text that can follow a literal: nothing, or white space and more. *)
Definition separated (tail : string) : bool :=
  match tail with
  | EmptyString => true
  | String c _ => Str.is_space c
  end.

(** The tokens of a list of numbers separated by commas. *)
Fixpoint number_tokens (ds : list string) : list (token_kind * string) :=
  match ds with
  | [] => []
  | [d] => [(NUMBER, d)]
  | d :: ds' => (NUMBER, d) :: (COMMA, ",") :: number_tokens ds'
  end.

(** * Properties *)

(** ** Strings and dictionaries *)

Module DictFacts.
Section DictFacts.
Context {V : Type}.
Implicit Types (d : Dict.t V) (k : string) (v : V).

Lemma get_set_eq d k v : Dict.get k (Dict.set k v d) = Some v.
Proof.
  induction d as [|[k' v'] d IH]; simpl.
  - now rewrite String.eqb_refl.
  - destruct (String.eqb k k') eqn:E; simpl; rewrite E; [reflexivity | exact IH].
Qed.

Lemma get_set_ne d k k' v :
  k <> k' -> Dict.get k' (Dict.set k v d) = Dict.get k' d.
Proof.
  intros Hne. induction d as [|[k0 v0] d IH]; simpl.
  - destruct (String.eqb k' k) eqn:E; [|reflexivity].
    apply String.eqb_eq in E. congruence.
  - destruct (String.eqb k k0) eqn:E; simpl.
    + apply String.eqb_eq in E. subst k0.
      destruct (String.eqb k' k) eqn:E'; [|reflexivity].
      apply String.eqb_eq in E'. congruence.
    + now rewrite IH.
Qed.

Lemma keys_set_in d k v :
  In k (Dict.keys d) -> Dict.keys (Dict.set k v d) = Dict.keys d.
Proof.
  induction d as [|[k' v'] d IH]; simpl; [tauto|].
  intros [->|Hin].
  - now rewrite String.eqb_refl.
  - destruct (String.eqb k k'); simpl; [reflexivity | now rewrite IH].
Qed.

Lemma set_fresh d k v :
  ~ In k (Dict.keys d) -> Dict.set k v d = d ++ [(k, v)].
Proof.
  induction d as [|[k' v'] d IH]; simpl; [reflexivity|].
  intros Hn. destruct (String.eqb k k') eqn:E.
  - apply String.eqb_eq in E. subst k'. tauto.
  - rewrite IH; [reflexivity | tauto].
Qed.

Lemma keys_set_incl d k v k0 :
  In k0 (Dict.keys (Dict.set k v d)) -> k0 = k \/ In k0 (Dict.keys d).
Proof.
  induction d as [|[k' v'] d IH]; simpl.
  - intros [->|[]]. now left.
  - destruct (String.eqb k k'); simpl; intros [->|H]; auto.
    destruct (IH H); auto.
Qed.

Lemma get_in_keys d k : In k (Dict.keys d) <-> Dict.get k d <> None.
Proof.
  induction d as [|[k' v'] d IH]; simpl; [tauto|].
  destruct (String.eqb k k') eqn:E.
  - apply String.eqb_eq in E. split; [discriminate | auto].
  - apply String.eqb_neq in E. rewrite <- IH. split; [intros [?|?]|]; auto; congruence.
Qed.

(** Entries with new, pairwise distinct keys are appended in order. *)
Lemma update_fresh d (kvs : Dict.t V) :
  List.NoDup (Dict.keys kvs) ->
  (forall k, In k (Dict.keys kvs) -> ~ In k (Dict.keys d)) ->
  Dict.update d kvs = d ++ kvs.
Proof.
  unfold Dict.update. revert d.
  induction kvs as [|[k v] kvs IH]; simpl; intros d Hnd Hfresh.
  - now rewrite app_nil_r.
  - apply List.NoDup_cons_iff in Hnd as [Hk Hnd].
    rewrite set_fresh by (apply Hfresh; now left).
    rewrite IH; [now rewrite <- app_assoc | exact Hnd |].
    intros k0 Hin. unfold Dict.keys. rewrite map_app, in_app_iff. simpl.
    intros [H|[<-|[]]]; [|contradiction].
    apply (Hfresh k0); [now right | exact H].
Qed.

End DictFacts.
End DictFacts.

Lemma append_nil_r (s : string) : s +:+ "" = s.
Proof.
  induction s as [|c s IH]; [reflexivity|].
  change (String c (s +:+ "") = String c s). now rewrite IH.
Qed.

(** ** The query builder *)

(** A builder whose dialect is none of the five names that [select] tests
    appends no pagination. *)
Lemma pagination_other_dialect (self : SQLBuilder) (limit offset : option Z) :
  Str.mem (dialect self) ["postgres"; "sqlite"; "oracle"; "mssql"; "mysql"] = false ->
  pagination self limit offset = "".
Proof.
  intros H. unfold pagination.
  destruct offset, limit; try reflexivity;
    unfold Str.mem in *; simpl in *;
    repeat (apply orb_false_elim in H as [? H]);
    repeat match goal with E : String.eqb _ _ = false |- _ => rewrite E; clear E end;
    reflexivity.
Qed.

(** What [select] appends for the dialect names it knows. *)
Lemma pagination_known_dialects (ph q : string) (limit offset : option Z) :
  (limit, offset) <> (None, None) ->
  let off := " OFFSET " +:+ pretty (or_0 offset) in
  pagination (mkSQLBuilder "postgres" ph q) limit offset
    = off +:+ match limit with Some l => " LIMIT " +:+ pretty l | None => "" end /\
  pagination (mkSQLBuilder "sqlite" ph q) limit offset
    = off +:+ match limit with Some l => " LIMIT " +:+ pretty l | None => "" end /\
  pagination (mkSQLBuilder "oracle" ph q) limit offset
    = off +:+ " ROWS" +:+
      match limit with
      | Some l => " FETCH NEXT " +:+ pretty l +:+ " ROWS ONLY"
      | None => ""
      end /\
  pagination (mkSQLBuilder "mssql" ph q) limit offset
    = off +:+ " ROWS" +:+
      match limit with
      | Some l => " FETCH NEXT " +:+ pretty l +:+ " ROWS ONLY"
      | None => ""
      end /\
  pagination (mkSQLBuilder "mysql" ph q) limit offset
    = match limit with Some l => " LIMIT " +:+ pretty l | None => "" end +:+
      match offset with
      | Some o => if (o =? 0)%Z then "" else " OFFSET " +:+ pretty o
      | None => ""
      end.
Proof.
  intros H. destruct offset, limit; try congruence; repeat split; reflexivity.
Qed.

(** C5, at the dialect name [postgresql]: [select] tests for [postgres]
    only, so a builder made for [postgresql] returns the statement with no
    pagination clause at all, whatever [limit] and [offset] are. *)
Theorem select_postgresql_drops_pagination
    (placeholders quote_chars : gmap string string) (limit offset : option Z)
    (n : nat) :
  let self := SQLBuilder_init placeholders quote_chars "postgresql" in
  select self "t" (ColStr "*") None None None limit offset None None None n
  = (Ok ("SELECT * FROM " +:+ quoted self "t", []), n).
Proof.
  intros self. unfold select.
  replace (is_identifier "t") with true by (vm_compute; reflexivity).
  cbn -[pagination String.append].
  rewrite pagination_other_dialect by (vm_compute; reflexivity).
  run_M. now rewrite append_nil_r.
Qed.

(** C6, at the dialect name [postgresql]: [upsert] tests for [postgres]
    only, so a builder made for [postgresql] raises the error of an
    unsupported dialect on the example of the specification. *)
Theorem upsert_postgresql_unsupported
    (placeholders quote_chars : gmap string string) :
  upsert (SQLBuilder_init placeholders quote_chars "postgresql") "t"
         [("id", VInt 1); ("v", VStr "x")] ["id"]
  = Err (UpsertNotSupported "postgresql").
Proof.
  unfold SQLBuilder_init.
  generalize (default ":" (placeholders !! Str.lower "postgresql")).
  generalize (default Str.dquote (quote_chars !! Str.lower "postgresql")).
  intros q p. vm_compute. reflexivity.
Qed.

(** The other dialect names of [upsert], on the same example. *)
Lemma upsert_known_dialects :
  let p := ":" in
  let q := Str.dquote in
  let data := [("id", VInt 1); ("v", VStr "x")] in
  let insert := "INSERT INTO " +:+ q +:+ "t" +:+ q +:+ " (" +:+ q +:+ "id" +:+ q
                  +:+ ", " +:+ q +:+ "v" +:+ q +:+ ") VALUES (" +:+ p +:+ "id, "
                  +:+ p +:+ "v)" in
  upsert (mkSQLBuilder "postgres" p q) "t" data ["id"]
    = Ok (insert +:+ " ON CONFLICT (" +:+ q +:+ "id" +:+ q +:+ ") DO UPDATE SET "
            +:+ q +:+ "v" +:+ q +:+ "=EXCLUDED." +:+ q +:+ "v" +:+ q, Named data) /\
  upsert (mkSQLBuilder "sqlite" p q) "t" data ["id"]
    = Ok (insert +:+ " ON CONFLICT (" +:+ q +:+ "id" +:+ q +:+ ") DO UPDATE SET "
            +:+ q +:+ "v" +:+ q +:+ "=excluded." +:+ q +:+ "v" +:+ q,
          Positional [VInt 1; VStr "x"]) /\
  upsert (mkSQLBuilder "mysql" p q) "t" data ["id"]
    = Ok (insert +:+ " ON DUPLICATE KEY UPDATE " +:+ q +:+ "v" +:+ q
            +:+ "=VALUES(" +:+ q +:+ "v" +:+ q +:+ ")",
          Positional [VInt 1; VStr "x"]).
Proof.
  repeat split; vm_compute; reflexivity.
Qed.

(** C1, at a column name that is no identifier: [select] checks [table],
    [group_by] and [order_by] but never the names of [columns]; the name
    goes between the quote characters as it is, for every builder. *)
Theorem select_columns_not_validated (d p q : string) (n : nat) :
  let self := mkSQLBuilder d p q in
  is_identifier injected_column = false /\
  select self "t" (ColList [injected_column]) None None None None None None
         None None n
  = (Ok ("SELECT " +:+ quoted self injected_column +:+ " FROM "
           +:+ quoted self "t", []), n).
Proof.
  intros self. split; [vm_compute; reflexivity|].
  unfold select.
  replace (is_identifier "t") with true by (vm_compute; reflexivity).
  cbn -[String.append injected_column]. run_M.
  now rewrite append_nil_r.
Qed.

(** The sibling builders do check the names they are given: the same name
    as a key of [update] or of [upsert], or in [group_by], is refused. *)
Lemma siblings_validate_columns (self : SQLBuilder) (n : nat) :
  fst (update self "t" [(injected_column, VInt 1)] None None true n)
    = Err (InvalidColumnName injected_column) /\
  upsert self "t" [(injected_column, VInt 1)] []
    = Err (InvalidColumnNames [injected_column]) /\
  fst (select self "t" (ColStr "*") None None None None None
              (Some [injected_column]) None None n)
    = Err (InvalidGroupBy [injected_column]).
Proof.
  repeat split; vm_compute; reflexivity.
Qed.

(** ** Parameter names *)

(** C3, at two conditions built one after the other in a fresh process:
    [a IN (10, 20, 30)] gets id 1 and [a_1 = 5] gets id 2; both name a
    parameter [a_1_2], and the merged mapping of [build_where] keeps three
    entries of four: the third value of the first condition is lost. *)
Theorem parameter_names_collide (self : SQLBuilder) :
  let c1 := mkCondition "a" "IN" [VInt 10; VInt 20; VInt 30] 1 None in
  let c2 := mkCondition "a_1" "=" [VInt 5] 2 None in
  let inputs := [InTuple "a" "IN" (AList [VInt 10; VInt 20; VInt 30]);
                 InTuple "a_1" "=" (AScalar (VInt 5))] in
  mapM from_input inputs ids_initial = (Ok [c1; c2], 3%nat) /\
  snd <$> to_sql c1 (dialect self) (ph self) (quote_char self) (wrap_dt self)
    = Ok [("a_1_0", VInt 10); ("a_1_1", VInt 20); ("a_1_2", VInt 30)] /\
  snd <$> to_sql c2 (dialect self) (ph self) (quote_char self) (wrap_dt self)
    = Ok [("a_1_2", VInt 5)] /\
  snd <$> fst (build_where self (Some inputs) None ids_initial)
    = Ok [("a_1_0", VInt 10); ("a_1_1", VInt 20); ("a_1_2", VInt 5)].
Proof.
  destruct self as [d p q]. repeat split; vm_compute; reflexivity.
Qed.

(** ** The parameter adapter *)

(** C4, at a statement whose fragments a combination expression swaps:
    [select] with the conditions [a = 1], [b = 2] and the expression
    [2 AND 1] puts the marker of [b] first, the mapping keeps the order in
    which the conditions were compiled, and [adapt_sql] for mysql returns
    its values in that order: the first [?] is bound to the value of [a]. *)
Theorem adapt_sql_positional_order_mismatch :
  let q := Str.dquote in
  let self := mkSQLBuilder "mysql" ":" q in
  let conditions := [InTuple "a" "=" (AScalar (VInt 1));
                     InTuple "b" "=" (AScalar (VInt 2))] in
  let sql := "SELECT * FROM " +:+ q +:+ "t" +:+ q +:+ " WHERE " +:+ q +:+ "b"
               +:+ q +:+ " = :b_2 AND " +:+ q +:+ "a" +:+ q +:+ " = :a_1" in
  let params := [("a_1", VInt 1); ("b_2", VInt 2)] in
  fst (select self "t" (ColStr "*") (Some conditions) (Some "2 AND 1")
              None None None None None None ids_initial) = Ok (sql, params) /\
  adapt_sql sql params "mysql"
    = Ok ("SELECT * FROM " +:+ q +:+ "t" +:+ q +:+ " WHERE " +:+ q +:+ "b"
            +:+ q +:+ " = ? AND " +:+ q +:+ "a" +:+ q +:+ " = ?",
          Positional [VInt 1; VInt 2]) /\
  markers 0 sql = ["b_2"; "a_1"] /\
  positional_by_first_occurrence sql params = [VInt 2; VInt 1].
Proof.
  repeat split; vm_compute; reflexivity.
Qed.

(** Without an expression the two orders agree on the same conditions. *)
Lemma adapt_sql_positional_order_plain :
  let self := mkSQLBuilder "mysql" ":" Str.dquote in
  let conditions := [InTuple "a" "=" (AScalar (VInt 1));
                     InTuple "b" "=" (AScalar (VInt 2))] in
  match fst (select self "t" (ColStr "*") (Some conditions) None
                    None None None None None None ids_initial) with
  | Ok (sql, params) =>
      snd <$> adapt_sql sql params "mysql"
        = Ok (Positional (positional_by_first_occurrence sql params))
  | Err _ => False
  end.
Proof. vm_compute. reflexivity. Qed.

(** ** Type inference: epoch columns *)

Lemma exceeds_mono (m : option Q) (lo hi : Q) :
  Qle lo hi -> exceeds m hi = true -> exceeds m lo = true.
Proof.
  destruct m as [x|]; simpl; [|discriminate].
  intros Hle H. apply negb_true_iff in H. apply negb_true_iff.
  destruct (Qle_bool x lo) eqn:E; [|reflexivity].
  apply Qle_bool_iff in E.
  assert (Qle_bool x hi = true) as E'
    by (apply Qle_bool_iff; now apply Qle_trans with lo).
  congruence.
Qed.

(** The branch of [epoch_unit] for microseconds is never taken. *)
Lemma epoch_unit_never_us (m : option Q) : epoch_unit m <> unit_us.
Proof.
  unfold epoch_unit.
  destruct (exceeds m (10 ^ 12 # 1)) eqn:E12; [discriminate|].
  destruct (exceeds m (10 ^ 15 # 1)) eqn:E15; [|discriminate].
  assert (exceeds m (10 ^ 12 # 1) = true) as H
    by (apply exceeds_mono with (10 ^ 15 # 1); [vm_compute; discriminate | exact E15]).
  congruence.
Qed.

(** C7, at a column of one 16-digit epoch: its maximum exceeds [1e15], and
    the unit passed on is milliseconds, as the test against [1e12] comes
    first; no column at all is converted with microseconds. *)
Theorem cast_epoch_unit_for_microseconds :
  let column := [Some "1700000000000000"] in
  all_match epochtime_patterns (non_null_sample column) = true /\
  exceeds (series_max (to_numeric column)) (10 ^ 15 # 1) = true /\
  cast_epoch column = Some unit_ms /\
  (forall column' : list (option string), cast_epoch column' <> Some unit_us).
Proof.
  split; [vm_compute; reflexivity|].
  split; [vm_compute; reflexivity|].
  split; [vm_compute; reflexivity|].
  intros column'. unfold cast_epoch.
  destruct (non_null_sample column'); [discriminate|].
  destruct (all_match _ _); [|discriminate].
  intros H. injection H as H. now apply epoch_unit_never_us in H.
Qed.

(** The two other units are chosen as the specification says. *)
Lemma cast_epoch_seconds_and_milliseconds :
  cast_epoch [Some "1700000000"; None; Some " 1700000001.5 "] = Some unit_s /\
  cast_epoch [Some "1700000000000"] = Some unit_ms /\
  cast_epoch [Some "1700000000"; Some "x"] = None.
Proof. repeat split; vm_compute; reflexivity. Qed.

(** ** Mutations without a WHERE clause *)

Lemma update_sets_valid (self : SQLBuilder) (items : Dict.t pyval)
    (sets : list string) (params : Dict.t pyval) :
  forallb is_identifier (Dict.keys items) = true ->
  update_sets self items sets params
  = Ok (sets ++ List.map (fun k => quoted self k +:+ " = " +:+ ph self
                                     +:+ "set_" +:+ k) (Dict.keys items),
        fold_left (fun p kv => Dict.set ("set_" +:+ fst kv) (snd kv) p)
                  items params).
Proof.
  revert sets params.
  induction items as [|[k v] items IH]; intros sets params H.
  - simpl. now rewrite app_nil_r.
  - simpl in H. apply andb_true_iff in H as [Hk H].
    cbn [update_sets]. rewrite Hk. cbn [negb].
    rewrite IH by exact H. cbn [Dict.keys List.map fold_left fst snd].
    now rewrite <- app_assoc.
Qed.

(** C2, as stated, fails at a table name and at a column name that are no
    identifiers: the identifier checks come first, so the error is not the
    one of an unsafe mutation, and [allow_full] does not make the call
    succeed. *)
Lemma update_delete_guard_counterexample :
  let self := mkSQLBuilder "sqlite" ":" Str.dquote in
  fst (update self "no table" [("x", VInt 1)] None None false ids_initial)
    = Err (InvalidTableName "no table") /\
  fst (update self "no table" [("x", VInt 1)] None None true ids_initial)
    = Err (InvalidTableName "no table") /\
  fst (delete self "no table" None None false ids_initial)
    = Err (InvalidTableName "no table") /\
  fst (delete self "no table" None None true ids_initial)
    = Err (InvalidTableName "no table") /\
  fst (update self "t" [("no column", VInt 1)] None None false ids_initial)
    = Err (InvalidColumnName "no column") /\
  fst (update self "t" [("no column", VInt 1)] None None true ids_initial)
    = Err (InvalidColumnName "no column").
Proof. repeat split; vm_compute; reflexivity. Qed.

(** C2, amended: for a table name that is an identifier and a data mapping
    whose keys are identifiers, [update] and [delete] without conditions
    raise the refusal and return nothing when [allow_full] is false, and
    return the statement with no WHERE clause when it is true; the counter
    of condition ids is left alone. *)
Theorem update_delete_guard (self : SQLBuilder) (table : string)
    (data : Dict.t pyval) (expression : option string) (n : nat) :
  is_identifier table = true ->
  forallb is_identifier (Dict.keys data) = true ->
  let sets := List.map (fun k => quoted self k +:+ " = " +:+ ph self
                                   +:+ "set_" +:+ k) (Dict.keys data) in
  let params := fold_left (fun p kv => Dict.set ("set_" +:+ fst kv) (snd kv) p)
                          data [] in
  update self table data None expression false n = (Err UpdateWithoutWhere, n) /\
  delete self table None expression false n = (Err DeleteWithoutWhere, n) /\
  update self table data None expression true n
    = (Ok (positional_on_mysql_sqlite self
             ("UPDATE " +:+ quoted self table +:+ " SET " +:+ Str.join ", " sets)
             params), n) /\
  delete self table None expression true n
    = (Ok (positional_on_mysql_sqlite self
             ("DELETE FROM " +:+ quoted self table) []), n).
Proof.
  intros Ht Hd sets params.
  unfold update, delete. rewrite Ht. cbn [negb].
  rewrite (update_sets_valid self data [] [] Hd).
  repeat split; reflexivity.
Qed.

Lemma update_delete_guard_witness :
  let self := mkSQLBuilder "sqlite" ":" Str.dquote in
  let q := Str.dquote in
  update self "t" [("x", VInt 1)] None None false ids_initial
    = (Err UpdateWithoutWhere, ids_initial) /\
  delete self "t" None None false ids_initial
    = (Err DeleteWithoutWhere, ids_initial) /\
  update self "t" [("x", VInt 1)] None None true ids_initial
    = (Ok ("UPDATE " +:+ q +:+ "t" +:+ q +:+ " SET " +:+ q +:+ "x" +:+ q
             +:+ " = :set_x", Positional [VInt 1]), ids_initial) /\
  delete self "t" None None true ids_initial
    = (Ok ("DELETE FROM " +:+ q +:+ "t" +:+ q, Positional []), ids_initial).
Proof.
  exact (update_delete_guard (mkSQLBuilder "sqlite" ":" Str.dquote) "t"
           [("x", VInt 1)] None ids_initial eq_refl eq_refl).
Defined.

(** ** The condition compiler *)

Section ToSql.
Variable c : Condition.
Variables d p q : string.
Variable dt_wrapper : string -> string -> pyval -> string.

Lemma in_key_inj (i j : nat) : in_key c i = in_key c j -> i = j.
Proof.
  unfold in_key. intros H.
  apply (inj (String.app _)) in H. apply (inj (String.app _)) in H.
  now apply (inj pretty) in H.
Qed.

Lemma in_keys_NoDup (n : nat) : List.NoDup (List.map (in_key c) (seq 0 n)).
Proof.
  apply Finite.Injective_map_NoDup; [|apply List.seq_NoDup].
  intros i j. apply in_key_inj.
Qed.

Lemma enumerate_pairs (vs : list pyval) (k : nat) :
  List.map (fun iv : nat * pyval => (in_key c (fst iv), snd iv))
           (combine (seq k (length vs)) vs)
  = combine (List.map (in_key c) (seq k (length vs))) vs.
Proof.
  revert k. induction vs as [|v vs IH]; intros k; simpl; [reflexivity|].
  now rewrite IH.
Qed.

Lemma keys_combine (ks : list string) (vs : list pyval) :
  length ks = length vs -> Dict.keys (combine ks vs) = ks.
Proof.
  revert vs. induction ks as [|k ks IH]; intros [|v vs] H; simpl in *;
    try discriminate; [reflexivity|].
  f_equal. apply IH. now injection H.
Qed.

Lemma values_combine (ks : list string) (vs : list pyval) :
  length ks = length vs -> Dict.values (combine ks vs) = vs.
Proof.
  revert vs. induction ks as [|k ks IH]; intros [|v vs] H; simpl in *;
    try discriminate; [reflexivity|].
  f_equal. apply IH. now injection H.
Qed.

(** The mapping built by the IN branch: one entry per value, in order. *)
Lemma in_params (vs : list pyval) :
  Dict.update []
    (Dict.of_pairs
       (List.map (fun iv : nat * pyval => (in_key c (fst iv), snd iv))
                 (enumerate vs)))
  = combine (List.map (in_key c) (seq 0 (length vs))) vs.
Proof.
  unfold enumerate. rewrite enumerate_pairs.
  assert (Dict.keys (combine (List.map (in_key c) (seq 0 (length vs))) vs)
          = List.map (in_key c) (seq 0 (length vs))) as Hk
    by (apply keys_combine; now rewrite length_map, length_seq).
  unfold Dict.of_pairs.
  set (kvs := combine (List.map (in_key c) (seq 0 (length vs))) vs) in *.
  assert (Dict.update [] kvs = kvs) as Hup.
  { rewrite DictFacts.update_fresh; [reflexivity | | intros k _ []].
    rewrite Hk. apply in_keys_NoDup. }
  now rewrite !Hup.
Qed.

Lemma to_sql_null :
  op c = "IS NULL" \/ op c = "IS NOT NULL" ->
  to_sql c d p q dt_wrapper = Ok (col_str c q +:+ " " +:+ op c, []).
Proof. intros [H|H]; unfold to_sql; rewrite H; reflexivity. Qed.

Lemma to_sql_between (v0 v1 : pyval) :
  op c = "BETWEEN" ->
  nth_error (values c) 0 = Some v0 ->
  nth_error (values c) 1 = Some v1 ->
  to_sql c d p q dt_wrapper
  = Ok (col_str c q +:+ " BETWEEN " +:+ p +:+ pname_base c +:+ "_min AND "
          +:+ p +:+ pname_base c +:+ "_max",
        [(pname_base c +:+ "_min", v0); (pname_base c +:+ "_max", v1)]).
Proof.
  intros H H0 H1. unfold to_sql, index. rewrite H, H0, H1.
  cbn -[String.append]. run_M.
  destruct (String.eqb_spec (pname_base c +:+ "_max") (pname_base c +:+ "_min"))
    as [E|E]; [|reflexivity].
  apply (inj (String.app _)) in E. discriminate.
Qed.

Lemma to_sql_in :
  op c = "IN" \/ op c = "NOT IN" ->
  let keys := List.map (in_key c) (seq 0 (length (values c))) in
  to_sql c d p q dt_wrapper
  = Ok (col_str c q +:+ " " +:+ op c +:+ " ("
          +:+ Str.join "," (List.map (fun k => p +:+ k) keys) +:+ ")",
        combine keys (values c)).
Proof.
  intros H keys. unfold to_sql.
  replace (Str.mem (op c) ["IS NULL"; "IS NOT NULL"]) with false
    by (destruct H as [-> | ->]; reflexivity).
  replace (String.eqb (op c) "BETWEEN") with false
    by (destruct H as [-> | ->]; reflexivity).
  replace (Str.mem (op c) ["IN"; "NOT IN"]) with true
    by (destruct H as [-> | ->]; reflexivity).
  pose proof (in_params (values c)) as Hp.
  unfold in_key in Hp. rewrite Hp.
  unfold keys, in_key. now rewrite List.map_map.
Qed.

Lemma to_sql_like (v0 : pyval) :
  op c = "LIKE" \/ op c = "ILIKE" ->
  nth_error (values c) 0 = Some v0 ->
  to_sql c d p q dt_wrapper
  = Ok (col_str c q +:+ " " +:+ op c +:+ " " +:+ p +:+ pname_base c,
        [(pname_base c, v0)]).
Proof.
  intros H H0. unfold to_sql, index. rewrite H0.
  destruct H as [-> | ->]; reflexivity.
Qed.

Lemma to_sql_comparison (v0 : pyval) :
  In (op c) ["="; "!="; "<>"; "<"; ">"; "<="; ">="] ->
  nth_error (values c) 0 = Some v0 ->
  to_sql c d p q dt_wrapper
  = Ok (col_str c q +:+ " " +:+ op c +:+ " "
          +:+ dt_wrapper (p +:+ pname_base c) (op c) v0,
        [(pname_base c, v0)]).
Proof.
  intros H H0. unfold to_sql, index. rewrite H0. simpl in H.
  repeat (destruct H as [<-|H]; [reflexivity|]). destruct H.
Qed.

(** C8: [to_sql] on a null test returns no parameter; on BETWEEN with two
    values (or more) it returns the two parameters [_min] and [_max], bound
    to the first two values; on IN and NOT IN it returns one parameter per
    value, named by position, with the markers of the fragment in the order
    of the values; on LIKE, ILIKE and the comparisons it returns one
    parameter, bound to the first value.  Every key is [{field}_{id}],
    followed by the suffix when there is one. *)
Theorem to_sql_parameters :
  (op c = "IS NULL" \/ op c = "IS NOT NULL" ->
     to_sql c d p q dt_wrapper = Ok (col_str c q +:+ " " +:+ op c, [])) /\
  (op c = "BETWEEN" ->
     forall v0 v1 : pyval,
       nth_error (values c) 0 = Some v0 ->
       nth_error (values c) 1 = Some v1 ->
       to_sql c d p q dt_wrapper
       = Ok (col_str c q +:+ " BETWEEN " +:+ p +:+ pname_base c +:+ "_min AND "
               +:+ p +:+ pname_base c +:+ "_max",
             [(pname_base c +:+ "_min", v0); (pname_base c +:+ "_max", v1)])) /\
  (op c = "IN" \/ op c = "NOT IN" ->
     let keys := List.map (in_key c) (seq 0 (length (values c))) in
     exists params : Dict.t pyval,
       to_sql c d p q dt_wrapper
       = Ok (col_str c q +:+ " " +:+ op c +:+ " ("
               +:+ Str.join "," (List.map (fun k => p +:+ k) keys) +:+ ")",
             params) /\
       params = combine keys (values c) /\
       Dict.keys params = keys /\
       Dict.values params = values c /\
       List.NoDup (Dict.keys params) /\
       length params = length (values c)) /\
  (op c = "LIKE" \/ op c = "ILIKE" ->
     forall v0 : pyval,
       nth_error (values c) 0 = Some v0 ->
       to_sql c d p q dt_wrapper
       = Ok (col_str c q +:+ " " +:+ op c +:+ " " +:+ p +:+ pname_base c,
             [(pname_base c, v0)])) /\
  (In (op c) ["="; "!="; "<>"; "<"; ">"; "<="; ">="] ->
     forall v0 : pyval,
       nth_error (values c) 0 = Some v0 ->
       to_sql c d p q dt_wrapper
       = Ok (col_str c q +:+ " " +:+ op c +:+ " "
               +:+ dt_wrapper (p +:+ pname_base c) (op c) v0,
             [(pname_base c, v0)])).
Proof.
  split; [|split; [|split; [|split]]].
  - apply to_sql_null.
  - intros H v0 v1. now apply to_sql_between.
  - intros H keys.
    assert (length keys = length (values c)) as Hlen
      by (unfold keys; now rewrite length_map, length_seq).
    exists (combine keys (values c)). split; [now apply to_sql_in|].
    split; [reflexivity|]. split; [now apply keys_combine|].
    split; [now apply values_combine|]. split.
    + rewrite keys_combine by exact Hlen. apply in_keys_NoDup.
    + rewrite length_combine. lia.
  - intros H v0. now apply to_sql_like.
  - intros H v0. now apply to_sql_comparison.
Qed.

End ToSql.

(** *** Collisions at every state of the counter *)

Lemma fullmatch_star_word (s : string) :
  Str.all Str.is_word s = true -> Re.fullmatch (Re.Star Re.w) s = true.
Proof.
  induction s as [|ch s IH]; [reflexivity|].
  cbn [Str.all]. intros H. apply andb_true_iff in H as [Hc H].
  cbn [Re.fullmatch Re.deriv Re.w]. rewrite Hc. now apply IH.
Qed.

Lemma is_identifier_word (ch : ascii) (s : string) :
  Str.is_word ch = true -> Str.all Str.is_word s = true ->
  is_identifier (String ch s) = true.
Proof.
  intros Hc Hs. unfold is_identifier, Re.match_anchored.
  apply orb_true_iff. left.
  cbn [Re.fullmatch Re.plus Re.deriv Re.w Re.nullable]. rewrite Hc.
  now apply fullmatch_star_word.
Qed.

Lemma digit_is_word (ch : ascii) : Str.is_digit ch = true -> Str.is_word ch = true.
Proof. intros H. unfold Str.is_word. now rewrite H. Qed.

Lemma all_digits_word (s : string) :
  Str.all Str.is_digit s = true -> Str.all Str.is_word s = true.
Proof.
  induction s as [|ch s IH]; [reflexivity|].
  cbn [Str.all]. intros H. apply andb_true_iff in H as [Hc H].
  now rewrite (digit_is_word _ Hc), IH.
Qed.

Lemma pretty_N_go_digits (x : N) (s : string) :
  Str.all Str.is_digit s = true ->
  Str.all Str.is_digit (pretty_N_go x s) = true.
Proof.
  revert s. induction (N.lt_wf_0 x) as [x _ IH]; intros s Hs.
  assert (x = 0 \/ 0 < x)%N as [->|Hx] by lia.
  - now rewrite pretty_N_go_0.
  - rewrite pretty_N_go_step by exact Hx. apply IH.
    + now apply N.div_lt.
    + cbn [Str.all]. rewrite Hs. unfold pretty_N_char.
      repeat case_match; reflexivity.
Qed.

Lemma pretty_nat_digits (n : nat) : Str.all Str.is_digit (pretty n) = true.
Proof.
  unfold pretty, pretty_nat, pretty, pretty_N.
  case_decide; [reflexivity|]. now apply pretty_N_go_digits.
Qed.

(** Whatever the counter is at, two conditions built one after the other
    can share a key: [a IN (...)] with [n + 2] values and id [n], and
    [a_<n> = 0] with id [n + 1], both name a parameter [a_<n>_<n+1>]. *)
Lemma parameter_names_collide_at_every_counter (self : SQLBuilder) (n : nat) :
  let inputs := [InTuple "a" "IN" (AList (repeat (VInt 0) (S (S n))));
                 InTuple ("a_" +:+ pretty n) "=" (AScalar (VInt 0))] in
  exists c1 c2 f1 p1 f2 p2 key,
    mapM from_input inputs n = (Ok [c1; c2], S (S n)) /\
    uid c1 <> uid c2 /\
    to_sql c1 (dialect self) (ph self) (quote_char self) (wrap_dt self)
      = Ok (f1, p1) /\
    to_sql c2 (dialect self) (ph self) (quote_char self) (wrap_dt self)
      = Ok (f2, p2) /\
    In key (Dict.keys p1) /\ In key (Dict.keys p2).
Proof.
  intros inputs.
  set (c1 := mkCondition "a" "IN" (repeat (VInt 0) (S (S n))) n None).
  set (c2 := mkCondition ("a_" +:+ pretty n) "=" [VInt 0] (S n) None).
  assert (is_identifier ("a_" +:+ pretty n) = true) as Hid.
  { apply (is_identifier_word "a" ("_" +:+ pretty n)); [reflexivity|].
    change (Str.all Str.is_word (String "_" (pretty n)) = true).
    cbn [Str.all]. now rewrite all_digits_word by apply pretty_nat_digits. }
  exists c1, c2. do 4 eexists. exists (in_key c1 (S n)).
  split; [|split; [|split; [|split; [|split]]]].
  - unfold inputs. cbn [mapM from_input]. unfold Condition_init.
    rewrite Hid. reflexivity.
  - simpl. lia.
  - apply to_sql_in. now left.
  - apply (to_sql_comparison c2 _ _ _ _ (VInt 0)); [now left | reflexivity].
  - rewrite keys_combine by (now rewrite length_map, length_seq).
    apply in_map. apply in_seq. cbn [values c1]. rewrite repeat_length. lia.
  - now left.
Qed.

(** ** The data corrector *)

Lemma Forall2_map_r {A B} (P : A -> B -> Prop) (f : A -> B) (l : list A) :
  (forall a, P a (f a)) -> Forall2 P l (List.map f l).
Proof. intros H. induction l; simpl; constructor; auto. Qed.

Section CorrectorFacts.
Context {W : Type}.
Variable apply_coercer : coercer -> list (option W) -> string -> result (list (option W)).
Variable py_str : W -> W.
Variable astype_str : list (option W) -> list (option W).
Variable get_columns : string -> result (list (string * string)).

(** The primed names are the functions of the corrector at the parameters
    of this section. *)
Local Abbreviation fix_items' := (fix_items apply_coercer py_str).
Local Abbreviation coerce_value' := (coerce_value apply_coercer py_str).
Local Abbreviation fix_column' := (fix_column apply_coercer astype_str).
Local Abbreviation fix_rows' := (fix_rows apply_coercer py_str get_columns).
Local Abbreviation fix_df' := (fix_df apply_coercer astype_str get_columns).
Local Abbreviation cols' := (cols get_columns).
Local Abbreviation stored' := (stored apply_coercer py_str).

Implicit Types (self : DataCorrector) (meta : gmap string string).
Implicit Types (items corrected : Dict.t (option W)).

Lemma fix_items_step self meta key value items corrected :
  fix_items' self meta ((key, value) :: items) corrected
  = match meta !! key with
    | None => fix_items' self meta items corrected
    | Some type_str =>
        fix_items' self meta items
          (Dict.set key (stored' self value type_str) corrected)
    end.
Proof.
  cbn [fix_items]. destruct (meta !! key) as [t|]; [|reflexivity].
  unfold stored. now destruct (coerce_value' _ _ _).
Qed.

(** A key of the corrected row was there before, or is a key of the row that
    names a column. *)
Lemma fix_items_keys self meta items corrected key :
  In key (Dict.keys (fix_items' self meta items corrected)) ->
  In key (Dict.keys corrected) \/
  (In key (Dict.keys items) /\ is_Some (meta !! key)).
Proof.
  revert corrected.
  induction items as [|[k v] items IH]; intros corrected H; [now left|].
  rewrite fix_items_step in H. simpl.
  destruct (meta !! k) as [t|] eqn:Ek.
  - apply IH in H as [H|[H ?]]; [|tauto].
    apply DictFacts.keys_set_incl in H as [->|H]; [|tauto].
    right. split; [now left | now rewrite Ek].
  - apply IH in H as [H|[H ?]]; tauto.
Qed.

Lemma fix_items_get_other self meta items corrected key :
  ~ In key (Dict.keys items) ->
  Dict.get key (fix_items' self meta items corrected) = Dict.get key corrected.
Proof.
  revert corrected.
  induction items as [|[k v] items IH]; intros corrected H; [reflexivity|].
  rewrite fix_items_step. simpl in H.
  destruct (meta !! k) as [t|]; rewrite IH by tauto; [|reflexivity].
  apply DictFacts.get_set_ne. tauto.
Qed.

(** The corrected row holds, under a key that names a column, what the loop
    stored' for it. *)
Lemma fix_items_get self meta items corrected key value type_str :
  List.NoDup (Dict.keys items) ->
  In (key, value) items ->
  meta !! key = Some type_str ->
  Dict.get key (fix_items' self meta items corrected)
  = Some (stored' self value type_str).
Proof.
  revert corrected.
  induction items as [|[k v] items IH]; intros corrected Hnd Hin Hm; [easy|].
  simpl in Hnd. apply List.NoDup_cons_iff in Hnd as [Hk Hnd].
  rewrite fix_items_step. destruct Hin as [Heq|Hin].
  - injection Heq as -> ->. rewrite Hm.
    rewrite fix_items_get_other by exact Hk. apply DictFacts.get_set_eq.
  - destruct (meta !! k); now apply IH.
Qed.

Lemma cols_db self table meta self' :
  cols' self table = (Ok meta, self') -> db self' = db self.
Proof.
  unfold cols'. destruct (col_cache self !! table).
  - now intros [= _ ->].
  - destruct (get_columns table); [|discriminate]. now intros [= _ <-].
Qed.

Lemma fix_column_keys self meta (out : Dict.t (list (option W))) col :
  Dict.keys (fix_column' self meta out col) = Dict.keys out.
Proof.
  unfold fix_column'.
  destruct (meta !! col) as [t|]; [|reflexivity].
  destruct (Dict.get col out) as [s|] eqn:E; [|reflexivity].
  assert (In col (Dict.keys out)) as Hin
    by (apply DictFacts.get_in_keys; congruence).
  destruct (lookup_coercer _ _); [destruct (apply_coercer _ _ _)|];
    now apply DictFacts.keys_set_in.
Qed.

Lemma fix_column_get_other self meta (out : Dict.t (list (option W))) col col' :
  col <> col' ->
  Dict.get col' (fix_column' self meta out col) = Dict.get col' out.
Proof.
  intros Hne. unfold fix_column'.
  destruct (meta !! col) as [t|]; [|reflexivity].
  destruct (Dict.get col out) as [s|]; [|reflexivity].
  destruct (lookup_coercer _ _); [destruct (apply_coercer _ _ _)|];
    now apply DictFacts.get_set_ne.
Qed.

Lemma fix_columns_keys self meta (names : list string)
    (out : Dict.t (list (option W))) :
  Dict.keys (fold_left (fix_column' self meta) names out) = Dict.keys out.
Proof.
  revert out. induction names as [|c names IH]; intros out; [reflexivity|].
  simpl. rewrite IH. apply fix_column_keys.
Qed.

Lemma fix_columns_get_other self meta (names : list string)
    (out : Dict.t (list (option W))) col :
  ~ In col names ->
  Dict.get col (fold_left (fix_column' self meta) names out) = Dict.get col out.
Proof.
  revert out. induction names as [|c names IH]; intros out H; [reflexivity|].
  simpl in *. rewrite IH by tauto. apply fix_column_get_other. tauto.
Qed.

(** A column whose coercer raises ends as [astype(str)] of what it was. *)
Lemma fix_columns_recover self meta (names : list string)
    (out : Dict.t (list (option W))) col s type_str co e :
  List.NoDup names ->
  In col names ->
  Dict.get col out = Some s ->
  meta !! col = Some type_str ->
  lookup_coercer self (before_paren type_str) = Some co ->
  apply_coercer co s type_str = Err e ->
  Dict.get col (fold_left (fix_column' self meta) names out)
  = Some (astype_str s).
Proof.
  intros Hnd Hin Hget Hm Hco Herr. revert out Hget.
  induction names as [|c names IH]; intros out Hget; [easy|].
  apply List.NoDup_cons_iff in Hnd as [Hc Hnd]. simpl.
  destruct Hin as [->|Hin].
  - rewrite fix_columns_get_other by exact Hc.
    unfold fix_column'. rewrite Hm, Hget, Hco, Herr.
    apply DictFacts.get_set_eq.
  - apply IH; [exact Hnd | exact Hin |].
    rewrite fix_column_get_other; [exact Hget|].
    intros ->. contradiction.
Qed.

(** C9: once the schema of the table is known, no exception of a coercer
    leaves [fix_rows'] or [fix_df'].  [fix_rows'] returns one corrected row per
    row, and a value whose coercion raises is stored' as [None]; [fix_df']
    returns a frame with the columns of the one it was given, and a column
    whose coercer raises is stored' as its conversion to strings. *)
Theorem coercion_errors_do_not_propagate self table meta self' :
  cols' self table = (Ok meta, self') ->
  (forall rows : list (Dict.t (option W)),
     exists out,
       fix_rows' self table rows = (Ok out, self') /\
       length out = length rows /\
       Forall2
         (fun row corrected =>
            forall key value type_str e,
              List.NoDup (Dict.keys row) ->
              In (key, value) row ->
              meta !! key = Some type_str ->
              coerce_value' (lookup_coercer self (before_paren type_str))
                           value type_str = Err e ->
              Dict.get key corrected = Some None)
         rows out) /\
  (forall df : Dict.t (list (option W)),
     exists out,
       fix_df' self table df = (Ok out, self') /\
       Dict.keys out = Dict.keys df /\
       forall col s type_str co e,
         List.NoDup (Dict.keys df) ->
         Dict.get col df = Some s ->
         meta !! col = Some type_str ->
         lookup_coercer self (before_paren type_str) = Some co ->
         apply_coercer co s type_str = Err e ->
         Dict.get col out = Some (astype_str s)).
Proof.
  intros Hcols. pose proof (cols_db _ _ _ _ Hcols) as Hdb.
  assert (forall base, lookup_coercer self' base = lookup_coercer self base)
    as Hlook by (intros base; unfold lookup_coercer; now rewrite Hdb).
  split.
  - intros rows. unfold fix_rows. rewrite Hcols.
    eexists. split; [reflexivity|]. split; [apply length_map|].
    apply Forall2_map_r. intros row key value type_str e Hnd Hin Hm Herr.
    rewrite (fix_items_get self' meta row [] key value type_str Hnd Hin Hm).
    unfold stored. now rewrite Hlook, Herr.
  - intros df. unfold fix_df. rewrite Hcols.
    eexists. split; [reflexivity|]. split; [apply fix_columns_keys|].
    intros col s type_str co e Hnd Hget Hm Hco Herr.
    apply fix_columns_recover with type_str co e; auto.
    + apply DictFacts.get_in_keys. congruence.
    + now rewrite Hlook.
Qed.

(** C10: a key of a row that names no column of the schema is left out of
    the corrected row, with no error: every key of a corrected row is a
    column of the table (and a key of the row it comes from). *)
Theorem fix_rows_keys_within_schema self table meta self'
    (rows : list (Dict.t (option W))) :
  cols' self table = (Ok meta, self') ->
  exists out,
    fix_rows' self table rows = (Ok out, self') /\
    Forall2
      (fun row corrected =>
         (forall key, In key (Dict.keys corrected) ->
                      key ∈ dom meta /\ In key (Dict.keys row)) /\
         (forall key, meta !! key = None -> Dict.get key corrected = None))
      rows out.
Proof.
  intros Hcols. unfold fix_rows. rewrite Hcols.
  eexists. split; [reflexivity|].
  apply Forall2_map_r. intros row.
  assert (forall key, In key (Dict.keys (fix_items' self' meta row [])) ->
                      key ∈ dom meta /\ In key (Dict.keys row)) as Hsub.
  { intros key H. apply fix_items_keys in H as [[]|[H Hm]].
    split; [now apply elem_of_dom | exact H]. }
  split; [exact Hsub|].
  intros key Hm.
  destruct (Dict.get key (fix_items' self' meta row [])) eqn:E; [|reflexivity].
  assert (In key (Dict.keys (fix_items' self' meta row []))) as Hin
    by (apply DictFacts.get_in_keys; congruence).
  apply Hsub in Hin as [Hin _]. apply elem_of_dom in Hin as [? Hin]. congruence.
Qed.

End CorrectorFacts.

Lemma coercion_errors_do_not_propagate_witness :
  let failing : coercer -> list (option string) -> string
                -> result (list (option string)) :=
    fun _ _ _ => Err (LibraryError "cannot convert") in
  let get_columns : string -> result (list (string * string)) :=
    fun _ => Ok [("id", "integer"); ("name", "varchar(20)")] in
  let self := DataCorrector_init "SQLite" in
  let meta : gmap string string :=
    <["name" := "VARCHAR(20)"]> (<["id" := "INTEGER"]> ∅) in
  let self' := mkDataCorrector "sqlite" (<["t" := meta]> ∅) in
  let rows := [[("id", Some "x"); ("name", Some "y")]; [("id", None)]] in
  let df := [("id", [Some "x"; None]); ("other", [Some "z"; None])] in
  cols get_columns self "t" = (Ok meta, self') /\
  (exists out,
     fix_rows failing id get_columns self "t" rows = (Ok out, self') /\
     length out = length rows) /\
  (exists out,
     fix_df failing id get_columns self "t" df = (Ok out, self') /\
     Dict.keys out = Dict.keys df).
Proof.
  intros failing get_columns self meta self' rows df.
  pose proof (coercion_errors_do_not_propagate failing id id get_columns
                self "t" meta self' eq_refl) as [Hrows Hdf].
  split; [reflexivity|]. split.
  - destruct (Hrows rows) as (out & H1 & H2 & _). exists out. now split.
  - destruct (Hdf df) as (out & H1 & H2 & _). exists out. now split.
Defined.

Lemma fix_rows_keys_within_schema_witness :
  let failing : coercer -> list (option string) -> string
                -> result (list (option string)) :=
    fun _ _ _ => Err (LibraryError "cannot convert") in
  let get_columns : string -> result (list (string * string)) :=
    fun _ => Ok [("id", "integer"); ("name", "varchar(20)")] in
  let self := DataCorrector_init "SQLite" in
  let meta : gmap string string :=
    <["name" := "VARCHAR(20)"]> (<["id" := "INTEGER"]> ∅) in
  let self' := mkDataCorrector "sqlite" (<["t" := meta]> ∅) in
  let rows := [[("id", Some "x"); ("extra", Some "y")]] in
  cols get_columns self "t" = (Ok meta, self') /\
  exists out,
    fix_rows failing id get_columns self "t" rows = (Ok out, self') /\
    Forall2
      (fun row corrected =>
         (forall key, In key (Dict.keys corrected) ->
                      key ∈ dom meta /\ In key (Dict.keys row)) /\
         (forall key, meta !! key = None -> Dict.get key corrected = None))
      rows out.
Proof.
  intros failing get_columns self meta self' rows.
  split; [reflexivity|].
  exact (fix_rows_keys_within_schema failing id get_columns self "t" meta self'
           rows eq_refl).
Defined.

(** [fix_rows] on a row with a failing value, a null and an unknown key. *)
Example fix_rows_example :
  let failing : coercer -> list (option string) -> string
                -> result (list (option string)) :=
    fun _ _ _ => Err (LibraryError "cannot convert") in
  let get_columns : string -> result (list (string * string)) :=
    fun _ => Ok [("id", "integer"); ("name", "varchar(20)"); ("note", "blob")] in
  fst (fix_rows failing (fun w => "str:" +:+ w) get_columns
         (DataCorrector_init "sqlite") "t"
         [[("id", Some "x"); ("extra", Some "y"); ("name", None);
           ("note", Some "n")]])
  = Ok [[("id", None); ("name", None); ("note", Some "str:n")]].
Proof. vm_compute. reflexivity. Qed.

Lemma to_sql_parameters_witness :
  let q := Str.dquote in
  let wrap := wrap_dt (mkSQLBuilder "oracle" ":" q) in
  to_sql (mkCondition "age" "IS NOT NULL" [] 1 None) "oracle" ":" q wrap
    = Ok (q +:+ "age" +:+ q +:+ " IS NOT NULL", []) /\
  to_sql (mkCondition "age" "BETWEEN" [VInt 18; VInt 65] 2 (Some "max"))
         "oracle" ":" q wrap
    = Ok ("MAX(" +:+ q +:+ "age" +:+ q +:+ ") BETWEEN :age_2_min AND :age_2_max",
          [("age_2_min", VInt 18); ("age_2_max", VInt 65)]) /\
  (exists params,
     to_sql (mkCondition "age" "IN" [VInt 1; VInt 2; VInt 3] 3 None)
            "oracle" ":" q wrap
       = Ok (q +:+ "age" +:+ q +:+ " IN (:age_3_0,:age_3_1,:age_3_2)", params) /\
     params = [("age_3_0", VInt 1); ("age_3_1", VInt 2); ("age_3_2", VInt 3)]) /\
  to_sql (mkCondition "name" "LIKE" [VStr "A%"] 4 None) "oracle" ":" q wrap
    = Ok (q +:+ "name" +:+ q +:+ " LIKE :name_4", [("name_4", VStr "A%")]) /\
  to_sql (mkCondition "born" ">=" [VStr "2021-01-01"] 5 None) "oracle" ":" q wrap
    = Ok (q +:+ "born" +:+ q
            +:+ " >= TO_DATE(:born_5, 'YYYY-MM-DD HH24:MI:SS')",
          [("born_5", VStr "2021-01-01")]).
Proof.
  intros q wrap. split; [|split; [|split; [|split]]].
  - exact (proj1 (to_sql_parameters
             (mkCondition "age" "IS NOT NULL" [] 1 None) "oracle" ":" q wrap)
             (or_intror eq_refl)).
  - exact (proj1 (proj2 (to_sql_parameters
             (mkCondition "age" "BETWEEN" [VInt 18; VInt 65] 2 (Some "max"))
             "oracle" ":" q wrap)) eq_refl (VInt 18) (VInt 65) eq_refl eq_refl).
  - destruct (proj1 (proj2 (proj2 (to_sql_parameters
             (mkCondition "age" "IN" [VInt 1; VInt 2; VInt 3] 3 None)
             "oracle" ":" q wrap))) (or_introl eq_refl)) as (params & H1 & H2 & _).
    exists params. split; [exact H1 | exact H2].
  - exact (proj1 (proj2 (proj2 (proj2 (to_sql_parameters
             (mkCondition "name" "LIKE" [VStr "A%"] 4 None) "oracle" ":" q wrap))))
             (or_introl eq_refl) (VStr "A%") eq_refl).
  - exact (proj2 (proj2 (proj2 (proj2 (to_sql_parameters
             (mkCondition "born" ">=" [VStr "2021-01-01"] 5 None)
             "oracle" ":" q wrap))))
             (or_intror (or_intror (or_intror (or_intror (or_intror
                (or_intror (or_introl eq_refl)))))))
             (VStr "2021-01-01") eq_refl).
Defined.

(** * Further properties *)

(** ** [insert_bulk] *)

Lemma append_cons (c : ascii) (s t : string) :
  String c s +:+ t = String c (s +:+ t).
Proof. reflexivity. Qed.

Lemma digits_have_no_underscore (s a b : string) :
  Str.all Str.is_digit s = true -> s <> a +:+ "_" +:+ b.
Proof.
  revert s. induction a as [|c a IH]; intros s Hs E; subst s.
  - discriminate Hs.
  - rewrite append_cons in Hs. cbn [Str.all] in Hs.
    apply andb_true_iff in Hs as [_ Hs]. now apply (IH _ Hs).
Qed.

(** The name of a cell determines its column and its row. *)
Lemma cell_name_inj (k k' : string) (i j : nat) :
  cell_name k i = cell_name k' j -> k = k' /\ i = j.
Proof.
  unfold cell_name. revert k'.
  induction k as [|c k IH]; intros [|c' k'] E.
  - do 2 apply (inj (String.app _)) in E. split; [reflexivity|].
    now apply (inj pretty) in E.
  - rewrite append_cons in E. injection E as _ E.
    exfalso. now apply (digits_have_no_underscore _ k' (pretty j) (pretty_nat_digits i)).
  - rewrite append_cons in E. injection E as _ E.
    exfalso. symmetry in E.
    now apply (digits_have_no_underscore _ k (pretty i) (pretty_nat_digits j)).
  - rewrite !append_cons in E. injection E as -> E.
    destruct (IH _ E) as [-> ->]. now split.
Qed.

Section InsertBulk.
Variable self : SQLBuilder.

Local Abbreviation cells_of := (insert_cells_of).
Local Abbreviation phs_of := (insert_phs_of self).

Lemma insert_cells_fresh (idx : nat) (row : Dict.t pyval) (keys : list string)
    (params : Dict.t pyval) (phs : list string) :
  List.NoDup keys ->
  (forall k, In k keys -> ~ In (cell_name k idx) (Dict.keys params)) ->
  insert_cells self idx row keys params phs
  = (params ++ cells_of keys (idx, row), phs ++ phs_of keys (idx, row)).
Proof.
  revert params phs.
  induction keys as [|k keys IH]; intros params phs Hnd Hfresh.
  - cbn. now rewrite !app_nil_r.
  - apply List.NoDup_cons_iff in Hnd as [Hk Hnd].
    cbn [insert_cells]. rewrite DictFacts.set_fresh by (apply Hfresh; now left).
    rewrite IH; [unfold insert_cells_of, insert_phs_of; cbn; now rewrite <- !app_assoc | exact Hnd |].
    intros k' Hin. unfold Dict.keys. rewrite map_app, in_app_iff. cbn.
    intros [H|[H|[]]].
    + apply (Hfresh k'); [now right | exact H].
    + apply cell_name_inj in H as [-> _]. contradiction.
Qed.

Lemma keys_cells_of (keys : list string) (ir : nat * Dict.t pyval) :
  Dict.keys (cells_of keys ir) = List.map (fun k => cell_name k (fst ir)) keys.
Proof. unfold Dict.keys, insert_cells_of. now rewrite List.map_map. Qed.

Lemma insert_lines_fresh (keys : list string) (line : list string -> string)
    (rows : list (nat * Dict.t pyval)) (params : Dict.t pyval)
    (lines : list string) :
  List.NoDup keys ->
  List.NoDup (List.map fst rows) ->
  (forall k ir, In k keys -> In ir rows ->
                ~ In (cell_name k (fst ir)) (Dict.keys params)) ->
  insert_lines self keys line rows params lines
  = (params ++ flat_map (cells_of keys) rows,
     lines ++ List.map (fun ir => line (phs_of keys ir)) rows).
Proof.
  revert params lines.
  induction rows as [|[idx row] rows IH]; intros params lines Hk Hnd Hfresh.
  - cbn. now rewrite !app_nil_r.
  - cbn [List.map fst] in Hnd. apply List.NoDup_cons_iff in Hnd as [Hidx Hnd].
    cbn [insert_lines].
    rewrite insert_cells_fresh;
      [|exact Hk | intros k Hin; apply (Hfresh k (idx, row)); [exact Hin | now left]].
    rewrite IH; [cbn; now rewrite <- !app_assoc | exact Hk | exact Hnd |].
    intros k ir Hin Hir. unfold Dict.keys. rewrite map_app, in_app_iff.
    intros [H|H].
    + apply (Hfresh k ir); [exact Hin | now right | exact H].
    + change (In (cell_name k (fst ir)) (Dict.keys (cells_of keys (idx, row)))) in H.
      rewrite keys_cells_of in H. apply in_map_iff in H as (k' & H & _).
      apply cell_name_inj in H as [_ H]. cbn in H. subst idx.
      apply Hidx. now apply in_map.
Qed.

Lemma enumerate_indices {A} (l : list A) :
  List.map fst (enumerate l) = seq 0 (length l).
Proof.
  unfold enumerate. generalize 0%nat.
  induction l as [|a l IH]; intros n; cbn; [reflexivity | now rewrite IH].
Qed.

Lemma insert_lines_enumerate (keys : list string) (line : list string -> string)
    (rows : list (Dict.t pyval)) :
  List.NoDup keys ->
  insert_lines self keys line (enumerate rows) [] []
  = (flat_map (cells_of keys) (enumerate rows),
     List.map (fun ir => line (phs_of keys ir)) (enumerate rows)).
Proof.
  intros Hk. rewrite insert_lines_fresh; [reflexivity | exact Hk | | intros ? ? _ _ []].
  rewrite enumerate_indices. apply List.seq_NoDup.
Qed.

Lemma cells_NoDup (keys : list string) (rows : list (nat * Dict.t pyval)) :
  List.NoDup keys -> List.NoDup (List.map fst rows) ->
  List.NoDup (Dict.keys (flat_map (cells_of keys) rows)).
Proof.
  intros Hk. induction rows as [|ir rows IH]; intros Hnd; [constructor|].
  cbn [List.map] in Hnd. apply List.NoDup_cons_iff in Hnd as [Hi Hnd].
  cbn [flat_map]. unfold Dict.keys. rewrite map_app.
  apply List.NoDup_app.
  - change (List.NoDup (Dict.keys (cells_of keys ir))). rewrite keys_cells_of.
    apply Finite.Injective_map_NoDup; [|exact Hk].
    intros a b H. now apply cell_name_inj in H.
  - now apply IH.
  - intros name H1 H2.
    change (In name (Dict.keys (cells_of keys ir))) in H1.
    rewrite keys_cells_of in H1. apply in_map_iff in H1 as (k & <- & _).
    apply in_map_iff in H2 as ([name' v] & E & H2). cbn in E. subst name'.
    apply in_flat_map in H2 as (ir' & Hir' & H2).
    apply in_map_iff in H2 as (k' & E & _). injection E as E _.
    apply cell_name_inj in E as [_ E]. apply Hi. rewrite <- E. now apply in_map.
Qed.

(** X1: for a dialect other than oracle and mssql, a table and first-row
    keys that are identifiers, [insert_bulk] returns one tuple of
    placeholders per row and one parameter per cell, row by row in the order
    of the keys of the first row; a cell that a row lacks is bound to
    [None].  The names of the parameters are pairwise distinct, so the
    sequence returned for mysql and sqlite lines up with the placeholders. *)
Theorem insert_bulk_binds_every_cell (table : string) (row0 : Dict.t pyval)
    (rows : list (Dict.t pyval)) :
  Str.mem (dialect self) ["oracle"; "mssql"] = false ->
  is_identifier table = true ->
  forallb is_identifier (Dict.keys row0) = true ->
  List.NoDup (Dict.keys row0) ->
  let keys := Dict.keys row0 in
  let all_rows := enumerate (row0 :: rows) in
  let cells := flat_map (cells_of keys) all_rows in
  insert_bulk self table (row0 :: rows)
  = Ok (positional_on_mysql_sqlite self
          ("INSERT INTO " +:+ quoted self table +:+ " ("
             +:+ Str.join ", " (List.map (quoted self) keys) +:+ ") VALUES "
             +:+ Str.join ", "
                   (List.map (fun ir => "(" +:+ Str.join ", " (phs_of keys ir)
                                          +:+ ")") all_rows))
          cells) /\
  length cells = (length (row0 :: rows) * length keys)%nat /\
  List.NoDup (Dict.keys cells).
Proof.
  intros Hd Ht Hkeys Hnd keys all_rows cells. split; [|split].
  - unfold insert_bulk. rewrite Ht, Hkeys, Hd. cbn [negb].
    fold keys. unfold all_rows in *.
    now rewrite (insert_lines_enumerate keys _ (row0 :: rows) Hnd).
  - unfold cells, all_rows.
    assert (forall l : list (nat * Dict.t pyval),
              length (flat_map (cells_of keys) l) = (length l * length keys)%nat) as H.
    { induction l as [|ir l IH]; [reflexivity|].
      cbn [flat_map]. rewrite length_app, IH. unfold insert_cells_of.
      rewrite length_map. reflexivity. }
    rewrite H. unfold enumerate. rewrite length_combine, length_seq. lia.
  - apply cells_NoDup; [exact Hnd|]. unfold all_rows.
    rewrite enumerate_indices. apply List.seq_NoDup.
Qed.


(** X2: for mssql, [insert_bulk] binds a parameter for every cell but
    returns the text [INSERT INTO] alone as the statement, whatever the
    table and the rows are; so does [insert] for a single row. *)
Theorem insert_bulk_mssql_statement (table : string) (row0 : Dict.t pyval)
    (rows : list (Dict.t pyval)) :
  dialect self = "mssql" ->
  is_identifier table = true ->
  forallb is_identifier (Dict.keys row0) = true ->
  List.NoDup (Dict.keys row0) ->
  insert_bulk self table (row0 :: rows)
  = Ok ("INSERT INTO",
        Named (flat_map (cells_of (Dict.keys row0)) (enumerate (row0 :: rows)))) /\
  insert self table row0
  = Ok ("INSERT INTO", Named (cells_of (Dict.keys row0) (0%nat, row0))).
Proof.
  intros Hd Ht Hkeys Hnd.
  assert (forall rs, insert_bulk self table (row0 :: rs)
                     = Ok ("INSERT INTO",
                           Named (flat_map (cells_of (Dict.keys row0))
                                           (enumerate (row0 :: rs))))) as H.
  { intros rs. unfold insert_bulk, positional_on_mysql_sqlite.
    rewrite Ht, Hkeys, Hd. cbn [negb].
    rewrite (insert_lines_enumerate (Dict.keys row0) _ (row0 :: rs) Hnd).
    reflexivity. }
  split; [apply H|].
  unfold insert. rewrite H. cbn [enumerate length seq combine flat_map].
  now rewrite app_nil_r.
Qed.

Lemma insert_cells_ext (idx : nat) (row row' : Dict.t pyval)
    (keys : list string) (params : Dict.t pyval) (phs : list string) :
  (forall k, In k keys -> Dict.get k row = Dict.get k row') ->
  insert_cells self idx row keys params phs
  = insert_cells self idx row' keys params phs.
Proof.
  revert params phs. induction keys as [|k keys IH]; intros params phs H;
    [reflexivity|].
  cbn [insert_cells]. unfold row_get. rewrite (H k) by now left.
  apply IH. intros k' Hin. apply H. now right.
Qed.

Lemma insert_lines_ext (keys : list string) (line : list string -> string)
    (rows rows' : list (Dict.t pyval)) (n : nat) (params : Dict.t pyval)
    (lines : list string) :
  Forall2 (fun r r' => forall k, In k keys -> Dict.get k r = Dict.get k r')
          rows rows' ->
  insert_lines self keys line (combine (seq n (length rows)) rows) params lines
  = insert_lines self keys line (combine (seq n (length rows')) rows') params lines.
Proof.
  intros H. revert n params lines.
  induction H as [|r r' rows rows' Hr _ IH]; intros n params lines;
    [reflexivity|].
  cbn [length seq combine insert_lines].
  rewrite (insert_cells_ext n r r' keys params [] Hr).
  destruct (insert_cells self n r' keys params []) as [params' phs].
  apply IH.
Qed.

(** X3: only the keys of the first row count.  Two batches with the same
    first row whose other rows agree on the keys of the first row give the
    same result: a cell under a key that the first row lacks never reaches
    the statement or the parameters, and no error is raised for it. *)
Theorem insert_bulk_reads_first_row_keys (table : string) (row0 : Dict.t pyval)
    (rows rows' : list (Dict.t pyval)) :
  Forall2 (fun r r' => forall k, In k (Dict.keys row0) ->
                                 Dict.get k r = Dict.get k r') rows rows' ->
  insert_bulk self table (row0 :: rows) = insert_bulk self table (row0 :: rows').
Proof.
  intros H. unfold insert_bulk.
  destruct (negb (is_identifier table)); [reflexivity|].
  destruct (negb (forallb is_identifier (Dict.keys row0))); [reflexivity|].
  assert (Forall2 (fun r r' => forall k, In k (Dict.keys row0) ->
                                         Dict.get k r = Dict.get k r')
                  (row0 :: rows) (row0 :: rows')) as H' by (constructor; auto).
  unfold enumerate.
  now rewrite !(insert_lines_ext (Dict.keys row0) _ _ _ 0 [] [] H').
Qed.

End InsertBulk.

Lemma insert_bulk_binds_every_cell_witness :
  let self := mkSQLBuilder "sqlite" ":" Str.dquote in
  let q := Str.dquote in
  insert_bulk self "t" [[("id", VInt 1); ("v", VStr "x")]; [("id", VInt 2)]]
  = Ok ("INSERT INTO " +:+ q +:+ "t" +:+ q +:+ " (" +:+ q +:+ "id" +:+ q
          +:+ ", " +:+ q +:+ "v" +:+ q
          +:+ ") VALUES (:id_0, :v_0), (:id_1, :v_1)",
        Positional [VInt 1; VStr "x"; VInt 2; VNone]).
Proof.
  exact (proj1 (insert_bulk_binds_every_cell
                  (mkSQLBuilder "sqlite" ":" Str.dquote) "t"
                  [("id", VInt 1); ("v", VStr "x")] [[("id", VInt 2)]]
                  eq_refl eq_refl eq_refl
                  ltac:(repeat constructor; cbn; intuition discriminate))).
Defined.

Lemma insert_bulk_mssql_statement_witness :
  let self := mkSQLBuilder "mssql" "@" Str.dquote in
  insert_bulk self "t" [[("id", VInt 1)]; [("id", VInt 2)]]
  = Ok ("INSERT INTO", Named [("id_0", VInt 1); ("id_1", VInt 2)]) /\
  insert self "t" [("id", VInt 1)] = Ok ("INSERT INTO", Named [("id_0", VInt 1)]).
Proof.
  exact (insert_bulk_mssql_statement (mkSQLBuilder "mssql" "@" Str.dquote) "t"
           [("id", VInt 1)] [[("id", VInt 2)]] eq_refl eq_refl eq_refl
           ltac:(repeat constructor; cbn; intuition discriminate)).
Defined.

Lemma insert_bulk_reads_first_row_keys_witness :
  let self := mkSQLBuilder "sqlite" ":" Str.dquote in
  insert_bulk self "t" [[("id", VInt 1)]; [("id", VInt 2); ("no column", VInt 9)]]
  = insert_bulk self "t" [[("id", VInt 1)]; [("id", VInt 2)]].
Proof.
  apply (insert_bulk_reads_first_row_keys (mkSQLBuilder "sqlite" ":" Str.dquote)
           "t" [("id", VInt 1)]).
  constructor; [|constructor].
  intros k [<-|[]]. reflexivity.
Defined.

(** ** Condition ids *)

(** X4: the conditions that [build_where] makes from its inputs (records
    and tuples, none built earlier) get consecutive ids, starting at the
    value of the counter, which ends advanced by their number: ids are
    pairwise distinct within a call and never handed out again later. *)
Theorem fresh_conditions_get_consecutive_ids (inputs : list cond_input)
    (n n' : nat) (objs : list Condition) :
  Forall (fun i => match i with InCondition _ => False | _ => True end) inputs ->
  mapM from_input inputs n = (Ok objs, n') ->
  List.map uid objs = seq n (length inputs) /\
  n' = (n + length inputs)%nat /\
  List.NoDup (List.map uid objs).
Proof.
  intros Hfresh H.
  assert (List.map uid objs = seq n (length inputs) /\ n' = (n + length inputs)%nat)
    as [H1 H2].
  { revert n n' objs H.
    induction Hfresh as [|i inputs Hi _ IH]; intros n n' objs H.
    - injection H as <- <-. split; [reflexivity | cbn; lia].
    - cbn [mapM] in H. unfold mbind, M_bind in H.
      assert (exists c, from_input i n = (Ok c, S n) /\ uid c = n) as (c & Hc & Hu).
      { destruct (from_input i n) as [[c|e] n1] eqn:E; [|discriminate].
        destruct i as [f o v a|f o v|c0]; [| |contradiction];
          cbn [from_input] in E; unfold Condition_init in E;
          repeat (destruct (negb _); [discriminate E|]);
          cbv [mbind mret M_bind M_ret next_id] in E;
          injection E as <- <-; eexists; split; reflexivity. }
      rewrite Hc in H.
      destruct (mapM from_input inputs (S n)) as [[cs|e] n2] eqn:E; [|discriminate].
      cbv [mret M_ret] in H. injection H as <- <-.
      destruct (IH _ _ _ E) as [IH1 IH2].
      cbn [List.map length seq]. rewrite Hu, IH1. split; [reflexivity | lia]. }
  split; [exact H1|]. split; [exact H2|]. rewrite H1. apply List.seq_NoDup.
Qed.

Lemma fresh_conditions_get_consecutive_ids_witness :
  exists objs,
    mapM from_input [InTuple "a" "=" (AScalar (VInt 1));
                     InRecord "b" "is null" None None] 7%nat
    = (Ok objs, 9%nat) /\
    List.map uid objs = [7; 8]%nat.
Proof.
  eexists. split; [reflexivity|].
  exact (proj1 (fresh_conditions_get_consecutive_ids
                  [InTuple "a" "=" (AScalar (VInt 1));
                   InRecord "b" "is null" None None] 7%nat 9%nat _
                  ltac:(repeat constructor) eq_refl)).
Defined.

(** ** The JSON front end *)

Lemma adapt_sql_known_dialect (sql : string) (params : Dict.t pyval)
    (dialect : string) (out : string * binding) :
  adapt_sql sql params dialect = Ok out ->
  Str.mem (Str.lower dialect)
          ["oracle"; "mssql"; "postgres"; "postgresql"; "mysql"; "sqlite"] = true.
Proof.
  unfold adapt_sql. intros H.
  destruct (String.eqb_spec (Str.lower dialect) "oracle") as [->|_]; [reflexivity|].
  destruct (String.eqb_spec (Str.lower dialect) "mssql") as [->|_]; [reflexivity|].
  destruct (Str.mem (Str.lower dialect) ["postgres"; "postgresql"]) eqn:E1.
  { unfold Str.mem in *. cbn [existsb] in *.
    repeat (apply orb_true_iff in E1 as [E1|E1]; [rewrite E1; now rewrite ?orb_true_r|]).
    discriminate. }
  destruct (Str.mem (Str.lower dialect) ["mysql"; "sqlite"]) eqn:E2; [|discriminate].
  unfold Str.mem in *. cbn [existsb] in *.
  repeat (apply orb_true_iff in E2 as [E2|E2]; [rewrite E2; now rewrite ?orb_true_r|]).
  discriminate.
Qed.

Lemma adapt_sql_binding_named_dialect (sql : string) (values : list pyval)
    (dialect : string) (out : string * binding) :
  adapt_sql_binding sql (Positional values) dialect = Returned out ->
  Str.mem (Str.lower dialect) ["mysql"; "sqlite"] = false.
Proof.
  cbn [adapt_sql_binding]. intros H.
  destruct (String.eqb_spec (Str.lower dialect) "oracle") as [->|_]; [reflexivity|].
  destruct (String.eqb_spec (Str.lower dialect) "mssql") as [->|_]; [reflexivity|].
  destruct (Str.mem (Str.lower dialect) ["postgres"; "postgresql"]) eqn:E1.
  { unfold Str.mem in *. cbn [existsb] in *.
    repeat (apply orb_true_iff in E1 as [E1|E1];
            [apply String.eqb_eq in E1; now rewrite E1|]).
    discriminate. }
  destruct (Str.mem (Str.lower dialect) ["mysql"; "sqlite"]); [discriminate|reflexivity].
Qed.


Lemma update_result_shape (self : SQLBuilder) (table : string)
    (data : Dict.t pyval) (conditions : option (list cond_input))
    (expression : option string) (allow_full : bool) (n n' : nat)
    (out : string * binding) :
  update self table data conditions expression allow_full n = (Ok out, n') ->
  exists sql params, out = positional_on_mysql_sqlite self sql params.
Proof.
  unfold update. destruct (negb (is_identifier table)); [discriminate|].
  run_M. destruct (update_sets self data [] []) as [[sets params]|]; [|discriminate].
  destruct conditions as [[|c cs]|].
  - destruct (negb allow_full); [discriminate|].
    intros [= <- _]. eauto.
  - destruct (build_where self (Some (c :: cs)) expression n) as [[w|] n1];
      [|discriminate].
    intros [= <- _]. eauto.
  - destruct (negb allow_full); [discriminate|].
    intros [= <- _]. eauto.
Qed.

Lemma delete_result_shape (self : SQLBuilder) (table : string)
    (conditions : option (list cond_input)) (expression : option string)
    (allow_full : bool) (n n' : nat) (out : string * binding) :
  delete self table conditions expression allow_full n = (Ok out, n') ->
  exists sql params, out = positional_on_mysql_sqlite self sql params.
Proof.
  unfold delete. destruct (negb (is_identifier table)); [discriminate|].
  run_M. destruct conditions as [[|c cs]|].
  - destruct (negb allow_full); [discriminate|].
    intros [= <- _]. eauto.
  - destruct (build_where self (Some (c :: cs)) expression n) as [[w|] n1];
      [|discriminate].
    intros [= <- _]. eauto.
  - destruct (negb allow_full); [discriminate|].
    intros [= <- _]. eauto.
Qed.

Lemma insert_bulk_result_shape (self : SQLBuilder) (table : string)
    (rows : list (Dict.t pyval)) (out : string * binding) :
  insert_bulk self table rows = Ok out ->
  exists sql params, out = positional_on_mysql_sqlite self sql params.
Proof.
  unfold insert_bulk. destruct rows as [|row0 rows]; [discriminate|].
  destruct (negb (is_identifier table)); [discriminate|].
  destruct (negb (forallb is_identifier (Dict.keys row0))); [discriminate|].
  destruct (Str.mem (dialect self) ["oracle"; "mssql"]);
    destruct (insert_lines _ _ _ _ _ _) as [params lines];
    intros [= <-]; eauto.
Qed.

(** What a builder returns is adapted only for the four dialects that keep
    a named mapping. *)
Lemma adapt_after_builder (self : SQLBuilder) (dialect' sql : string)
    (params : Dict.t pyval) (out : string * binding) :
  dialect self = Str.lower dialect' ->
  (let '(sql', b) := positional_on_mysql_sqlite self sql params in
   adapt_sql_binding sql' b dialect') = Returned out ->
  Str.mem (Str.lower dialect') ["oracle"; "mssql"; "postgres"; "postgresql"] = true.
Proof.
  intros Hd. unfold positional_on_mysql_sqlite. rewrite Hd.
  destruct (Str.mem (Str.lower dialect') ["mysql"; "sqlite"]) eqn:E; intros H.
  - apply adapt_sql_binding_named_dialect in H. congruence.
  - cbn [adapt_sql_binding] in H.
    destruct (adapt_sql sql params dialect') as [x|] eqn:Ea; [|discriminate].
    apply adapt_sql_known_dialect in Ea.
    unfold Str.mem in *. cbn [existsb] in *.
    repeat (apply orb_false_elim in E as [? E]).
    repeat match goal with
           | H : String.eqb _ _ = false |- _ => rewrite H in Ea; clear H
           end.
    now rewrite !orb_false_r in Ea |- *.
Qed.

Section JsonFacts.
Variables placeholders quote_chars : gmap string string.
Variable dialect' : string.

Local Abbreviation builder := (SQLBuilder_init placeholders quote_chars dialect').
Local Abbreviation json_select' := (json_select placeholders quote_chars).
Local Abbreviation json_update' := (json_update placeholders quote_chars).
Local Abbreviation json_delete' := (json_delete placeholders quote_chars).
Local Abbreviation json_insert' := (json_insert placeholders quote_chars).

Lemma json_insert_each_returned (rows : list insert_item)
    (out : list (string * binding)) :
  rows <> [] ->
  json_insert_each builder dialect' rows = Returned out ->
  Str.mem (Str.lower dialect') ["oracle"; "mssql"; "postgres"; "postgresql"] = true.
Proof.
  destruct rows as [|r rows]; [congruence|]. intros _. cbn [json_insert_each].
  destruct (insert builder (ii_table r) (ii_insertValues r)) as [[sql b]|] eqn:E;
    [|discriminate].
  unfold insert in E. apply insert_bulk_result_shape in E as (sql0 & params & E).
  destruct (adapt_sql_binding sql b dialect') as [q|] eqn:Ea; [|discriminate].
  intros _. apply (adapt_after_builder builder dialect' sql0 params q eq_refl).
  now rewrite <- E.
Qed.

(** X5: the JSON handlers return only for the dialect names that
    [adapt_sql] and the builder can serve together.  [json_select] returns
    only for oracle, mssql, postgres, postgresql, mysql and sqlite (so never
    for the default argument).  [json_update], [json_delete] and
    [json_insert] return only for oracle, mssql, postgres and postgresql:
    for mysql and sqlite the builder already returns a list, and
    [adapt_sql] fails on it. *)
Theorem json_handlers_return_only_for_served_dialects :
  (forall (p : payload) (n n' : nat) (out : string * binding),
     json_select' p dialect' n = (Returned out, n') ->
     Str.mem (Str.lower dialect')
             ["oracle"; "mssql"; "postgres"; "postgresql"; "mysql"; "sqlite"] = true) /\
  (forall (p : payload) (n n' : nat) (out : string * binding),
     json_update' p dialect' n = (Returned out, n') ->
     Str.mem (Str.lower dialect')
             ["oracle"; "mssql"; "postgres"; "postgresql"] = true) /\
  (forall (p : payload) (n n' : nat) (out : string * binding),
     json_delete' p dialect' n = (Returned out, n') ->
     Str.mem (Str.lower dialect')
             ["oracle"; "mssql"; "postgres"; "postgresql"] = true) /\
  (forall (rows : list insert_item) (multi_row : bool)
          (out : list (string * binding)),
     json_insert' rows dialect' multi_row = Returned out ->
     Str.mem (Str.lower dialect')
             ["oracle"; "mssql"; "postgres"; "postgresql"] = true).
Proof.
  split; [|split; [|split]].
  - intros p n n' out. unfold json_select.
    destruct (p_table p) as [table|]; [|discriminate].
    destruct (select _ _ _ _ _ _ _ _ _ _ _ n) as [[[sql params]|] n1];
      [|discriminate].
    destruct (adapt_sql sql params dialect') as [x|] eqn:E; [|discriminate].
    intros _. now apply adapt_sql_known_dialect in E.
  - intros p n n' out. unfold json_update.
    destruct (p_table p) as [table|], (p_updateValues p) as [data|];
      try discriminate.
    destruct (p_limit p); [discriminate|].
    destruct (update _ _ _ _ _ _ n) as [[[sql b]|] n1] eqn:E; [|discriminate].
    apply update_result_shape in E as (sql0 & params & E).
    intros [= H _]. apply (adapt_after_builder builder dialect' sql0 params out eq_refl).
    now rewrite <- E.
  - intros p n n' out. unfold json_delete.
    destruct (p_table p) as [table|]; [|discriminate].
    destruct (delete _ _ _ _ _ n) as [[[sql b]|] n1] eqn:E; [|discriminate].
    apply delete_result_shape in E as (sql0 & params & E).
    intros [= H _]. apply (adapt_after_builder builder dialect' sql0 params out eq_refl).
    now rewrite <- E.
  - intros rows multi_row out. unfold json_insert.
    destruct rows as [|r0 rows]; [discriminate|].
    destruct (multi_row && same_table (r0 :: rows)).
    + destruct (insert_bulk _ _ _) as [[sql b]|] eqn:E; [|discriminate].
      apply insert_bulk_result_shape in E as (sql0 & params & E).
      destruct (adapt_sql_binding sql b dialect') as [q|] eqn:Ea; [|discriminate].
      intros _. apply (adapt_after_builder builder dialect' sql0 params q eq_refl).
      now rewrite <- E.
    + now apply json_insert_each_returned.
Qed.

(** X6: the JSON handlers cannot ask for a mutation of the whole table:
    [json_update] and [json_delete] call the builder without [allow_full],
    so a payload with no condition, or with an empty list of conditions, is
    refused for every dialect, and the counter of ids is left alone. *)
Theorem json_mutations_need_a_condition (p : payload) (n : nat) :
  p_condition p = None \/ p_condition p = Some [] ->
  (exists e, json_update' p dialect' n = (Raised e, n)) /\
  (exists e, json_delete' p dialect' n = (Raised e, n)).
Proof.
  intros Hc. split.
  - unfold json_update.
    destruct (p_table p) as [table|], (p_updateValues p) as [data|]; eauto.
    destruct (p_limit p); eauto.
    unfold update. destruct (negb (is_identifier table)); [cbn; eauto|].
    run_M. destruct (update_sets _ _ _ _) as [[sets params]|]; [|eauto].
    destruct Hc as [-> | ->]; cbn; eauto.
  - unfold json_delete.
    destruct (p_table p) as [table|]; eauto.
    unfold delete. destruct (negb (is_identifier table)); [cbn; eauto|].
    run_M. destruct Hc as [-> | ->]; cbn; eauto.
Qed.

End JsonFacts.

Lemma json_handlers_return_only_for_served_dialects_witness :
  let p := mkPayload (Some "t") None
             (Some [InRecord "a" ">" (Some (AScalar (VInt 3))) None]) None None
             None None None None None (Some [("b", VInt 1)]) in
  Str.mem (Str.lower "Oracle")
          ["oracle"; "mssql"; "postgres"; "postgresql"; "mysql"; "sqlite"] = true /\
  Str.mem (Str.lower "Oracle")
          ["oracle"; "mssql"; "postgres"; "postgresql"] = true /\
  fst (json_update ∅ ∅ p "mysql" 1%nat) = Raised (AttributeError "list" "values") /\
  fst (json_select ∅ ∅ p "default" 1%nat)
    = Raised (FromBuilder (UnknownDialect "default")).
Proof.
  intros p.
  pose proof (json_handlers_return_only_for_served_dialects ∅ ∅ "Oracle")
    as (Hs & Hu & _).
  split; [|split; [|split; reflexivity]].
  - exact (Hs p 1%nat _ _ eq_refl).
  - exact (Hu p 1%nat _ _ eq_refl).
Defined.

Lemma json_mutations_need_a_condition_witness :
  let p := mkPayload (Some "t") None None None None None None None None None
             (Some [("b", VInt 1)]) in
  (exists e, json_update ∅ ∅ p "oracle" 1%nat = (Raised e, 1%nat)) /\
  (exists e, json_delete ∅ ∅ p "oracle" 1%nat = (Raised e, 1%nat)).
Proof.
  exact (json_mutations_need_a_condition ∅ ∅ "oracle"
           (mkPayload (Some "t") None None None None None None None None None
              (Some [("b", VInt 1)])) 1%nat (or_introl eq_refl)).
Defined.

(** ** The type maps of the corrector *)




Section TypeMaps.
Context {W : Type}.
Variable apply_coercer : coercer -> list (option W) -> string -> result (list (option W)).
Variable py_str : W -> W.


End TypeMaps.


(** ** The matcher against the denotation of the patterns *)

Lemma append_assoc (a b c : string) : (a +:+ b) +:+ c = a +:+ (b +:+ c).
Proof. induction a as [|x a IH]; [reflexivity|]. rewrite !append_cons. now rewrite IH. Qed.

Lemma append_nil_l (s : string) : "" +:+ s = s.
Proof. reflexivity. Qed.

Lemma append_eq_nil (a b : string) : a +:+ b = "" -> a = "" /\ b = "".
Proof.
  destruct a; [intros H; change (b = "") in H; auto|].
  rewrite append_cons. discriminate.
Qed.

Lemma matches_nul (s : string) : ~ matches Re.Nul s.
Proof. intros H. inversion H. Qed.

Lemma matches_nullable (r : Re.regex) : Re.nullable r = true <-> matches r "".
Proof.
  split.
  - induction r as [| |p|r1 IH1 r2 IH2|r1 IH1 r2 IH2|r IH]; simpl; intros H;
      try discriminate.
    + constructor.
    + apply andb_true_iff in H as [H1 H2].
      change "" with ("" +:+ ""). constructor; auto.
    + apply orb_true_iff in H as [H|H];
        [apply matches_alt_l | apply matches_alt_r]; auto.
    + constructor.
  - intros H. remember "" as s eqn:Es.
    induction H as [|p c Hp|r1 r2 s1 s2 H1 IH1 H2 IH2|r1 r2 s H IH|r1 r2 s H IH
                    |r|r s1 s2 H1 IH1 H2 IH2]; simpl; try reflexivity.
    + discriminate.
    + apply append_eq_nil in Es as [-> ->]. now rewrite IH1, IH2.
    + now rewrite IH.
    + rewrite IH by exact Es. apply orb_true_r.
Qed.

Lemma matches_cat_smart (r1 r2 : Re.regex) (s : string) :
  matches (Re.cat r1 r2) s <-> matches (Re.Cat r1 r2) s.
Proof.
  split.
  - destruct r1, r2; simpl; intros H; try exact H; try (now inversion H);
      (apply (matches_cat Re.Eps _ "" s); [constructor | exact H]).
  - intros H. inversion H as [| |a b s1 s2 H1 H2| | | |]; subst.
    destruct r1, r2; simpl; try (now constructor); try (now inversion H1);
      try (now inversion H2); inversion H1; subst; exact H2.
Qed.

Lemma matches_alt_smart (r1 r2 : Re.regex) (s : string) :
  matches (Re.alt r1 r2) s <-> matches (Re.Alt r1 r2) s.
Proof.
  split.
  - destruct r1, r2; simpl; intros H; try exact H;
      try (now apply matches_alt_r); now apply matches_alt_l.
  - intros H.
    inversion H as [| | |a b s' H1|a b s' H2| |]; subst;
      destruct r1, r2; simpl; try (now inversion H1); try (now inversion H2);
        try assumption;
        try (now apply matches_alt_l); now apply matches_alt_r.
Qed.

(** A string of the star that is not empty starts with a piece of the
    body that is not empty. *)
Lemma matches_star_cons (r : Re.regex) (c : ascii) (s : string) :
  matches (Re.Star r) (String c s) ->
  exists s1 s2, s = s1 +:+ s2 /\ matches r (String c s1) /\ matches (Re.Star r) s2.
Proof.
  intros H. remember (Re.Star r) as r' eqn:Er. remember (String c s) as t eqn:Et.
  revert s Et.
  induction H as [|p x Hp|r1 r2 s1 s2 H1 IH1 H2 IH2|r1 r2 t H IH|r1 r2 t H IH
                  |r0|r0 s1 s2 H1 IH1 H2 IH2]; intros s Et; try discriminate.
  injection Er as ->.
  destruct s1 as [|x s1].
  - apply IH2; [reflexivity | exact Et].
  - rewrite append_cons in Et. injection Et as -> <-.
    exists s1, s2. auto.
Qed.

Lemma matches_cat_inv (r1 r2 : Re.regex) (s : string) :
  matches (Re.Cat r1 r2) s ->
  exists s1 s2, s = s1 +:+ s2 /\ matches r1 s1 /\ matches r2 s2.
Proof. intros H. inversion H; subst. eauto. Qed.

Lemma matches_alt_inv (r1 r2 : Re.regex) (s : string) :
  matches (Re.Alt r1 r2) s -> matches r1 s \/ matches r2 s.
Proof. intros H. inversion H; subst; auto. Qed.

Lemma matches_cls_inv (p : ascii -> bool) (s : string) :
  matches (Re.Cls p) s -> exists c, s = String c "" /\ p c = true.
Proof. intros H. inversion H; subst. eauto. Qed.

Lemma matches_eps_inv (s : string) : matches Re.Eps s -> s = "".
Proof. intros H. now inversion H. Qed.

Lemma matches_deriv (r : Re.regex) (c : ascii) (s : string) :
  matches (Re.deriv c r) s <-> matches r (String c s).
Proof.
  revert s.
  induction r as [| |p|r1 IH1 r2 IH2|r1 IH1 r2 IH2|r IH]; intros s; simpl.
  - split; intros H; inversion H.
  - split; intros H; inversion H.
  - destruct (p c) eqn:Hp; split; intros H.
    + apply matches_eps_inv in H as ->. now constructor.
    + apply matches_cls_inv in H as (x & [= _ ->] & _). constructor.
    + inversion H.
    + apply matches_cls_inv in H as (x & [= <- _] & Hx). congruence.
  - rewrite matches_alt_smart. split.
    + intros H. apply matches_alt_inv in H as [H|H].
      * apply matches_cat_smart, matches_cat_inv in H as (s1 & s2 & -> & Ha & Hb).
        apply IH1 in Ha. rewrite <- append_cons. now constructor.
      * destruct (Re.nullable r1) eqn:Hn; [|now inversion H].
        apply IH2 in H. apply matches_nullable in Hn.
        now apply (matches_cat r1 r2 "" (String c s)).
    + intros H. apply matches_cat_inv in H as (s1 & s2 & Es & Ha & Hb).
      destruct s1 as [|x s1].
      * change (String c s = s2) in Es. subst s2. apply matches_alt_r.
        apply matches_nullable in Ha. rewrite Ha. now apply IH2.
      * rewrite append_cons in Es. injection Es as <- ->.
        apply matches_alt_l, matches_cat_smart.
        constructor; [now apply IH1 | exact Hb].
  - rewrite matches_alt_smart. split.
    + intros H. apply matches_alt_inv in H as [H|H];
        [apply matches_alt_l; now apply IH1 | apply matches_alt_r; now apply IH2].
    + intros H. apply matches_alt_inv in H as [H|H];
        [apply matches_alt_l; now apply IH1 | apply matches_alt_r; now apply IH2].
  - rewrite matches_cat_smart. split.
    + intros H. apply matches_cat_inv in H as (s1 & s2 & -> & Ha & Hb).
      apply IH in Ha. rewrite <- append_cons. now constructor.
    + intros H. apply matches_star_cons in H as (s1 & s2 & -> & H1 & H2).
      constructor; [now apply IH | exact H2].
Qed.

(** The derivative matcher decides the denotation. *)
Lemma fullmatch_matches (r : Re.regex) (s : string) :
  Re.fullmatch r s = true <-> matches r s.
Proof.
  revert r. induction s as [|c s IH]; intros r; simpl.
  - apply matches_nullable.
  - rewrite IH. apply matches_deriv.
Qed.

(** ** The type inference of [cast_df] *)

Lemma matches_rep_cls (p : ascii -> bool) (v : string) :
  Str.all p v = true -> matches (Re.rep (String.length v) (Re.Cls p)) v.
Proof.
  induction v as [|c v IH]; cbn [Str.all String.length Re.rep]; intros H.
  - constructor.
  - apply andb_true_iff in H as [Hc H].
    apply (matches_cat _ _ (String c "") v); [now constructor | now apply IH].
Qed.

Lemma matches_star_cls (p : ascii -> bool) (v : string) :
  Str.all p v = true -> matches (Re.Star (Re.Cls p)) v.
Proof.
  induction v as [|c v IH]; cbn [Str.all]; intros H.
  - constructor.
  - apply andb_true_iff in H as [Hc H].
    apply (matches_star_app _ (String c "") v); [now constructor | now apply IH].
Qed.

Lemma matches_plus_cls (p : ascii -> bool) (v : string) :
  v <> "" -> Str.all p v = true -> matches (Re.plus (Re.Cls p)) v.
Proof.
  destruct v as [|c v]; [easy|]. intros _ H. cbn [Str.all] in H.
  apply andb_true_iff in H as [Hc H].
  apply (matches_cat _ _ (String c "") v);
    [now constructor | now apply matches_star_cls].
Qed.

Lemma matches_app_nil (r1 r2 : Re.regex) (v : string) :
  matches r1 v -> matches r2 "" -> matches (Re.Cat r1 r2) v.
Proof.
  intros H1 H2. rewrite <- (append_nil_r v). now constructor.
Qed.

Lemma match_anchored_matches (r : Re.regex) (v : string) :
  matches r v -> Re.match_anchored r v = true.
Proof.
  intros H. unfold Re.match_anchored.
  apply fullmatch_matches in H. now rewrite H.
Qed.

Lemma all_match_Forall (regexes : list Re.regex) (sample : list string) :
  Forall (fun v => exists r, In r regexes /\ matches r v) sample ->
  all_match regexes sample = true.
Proof.
  intros H. unfold all_match. apply forallb_forall. intros v Hv.
  rewrite Forall_forall in H. apply list_elem_of_In, H in Hv as (r & Hr & Hm).
  apply existsb_exists. exists r. split; [exact Hr | now apply match_anchored_matches].
Qed.

(** A sample with a value that none of the patterns matches. *)
Lemma all_match_head (regexes : list Re.regex) (v : string) (sample : list string) :
  existsb (fun r => Re.match_anchored r v) regexes = false ->
  all_match regexes (v :: sample) = false.
Proof. intros H. unfold all_match. cbn [forallb]. now rewrite H. Qed.

Lemma is_digit_code (c : ascii) :
  Str.is_digit c = true -> (48 <= Z.of_nat (Str.code c) <= 57)%Z.
Proof.
  unfold Str.is_digit, Str.in_range. intros H.
  apply andb_true_iff in H as [H1 H2].
  apply Nat.leb_le in H1, H2. lia.
Qed.

Lemma int_of_digits_fold (l : list ascii) (acc : Z) :
  Forall (fun c => Str.is_digit c = true) l ->
  (0 <= acc)%Z ->
  let r := fold_left (fun acc c => 10 * acc + (Z.of_nat (Str.code c) - 48))%Z l acc in
  (acc * 10 ^ Z.of_nat (length l) <= r < (acc + 1) * 10 ^ Z.of_nat (length l))%Z.
Proof.
  intros H. revert acc. induction H as [|c l Hc _ IH]; intros acc Hacc; cbn zeta.
  - cbn [fold_left length]. change (10 ^ Z.of_nat 0)%Z with 1%Z. lia.
  - cbn [fold_left length]. apply is_digit_code in Hc.
    specialize (IH (10 * acc + (Z.of_nat (Str.code c) - 48))%Z ltac:(lia)).
    cbn zeta in IH. rewrite Nat2Z.inj_succ, Z.pow_succ_r by lia.
    assert (0 < 10 ^ Z.of_nat (length l))%Z by (apply Z.pow_pos_nonneg; lia).
    nia.
Qed.

Lemma all_digits_Forall (v : string) :
  Str.all Str.is_digit v = true ->
  Forall (fun c => Str.is_digit c = true) (list_ascii_of_string v).
Proof.
  induction v as [|c v IH]; cbn [Str.all list_ascii_of_string]; intros H.
  - constructor.
  - apply andb_true_iff in H as [Hc H]. constructor; auto.
Qed.

Lemma length_list_ascii (v : string) :
  length (list_ascii_of_string v) = String.length v.
Proof. induction v; cbn; congruence. Qed.

(** A string of [n] digits denotes a number below [10 ^ n]. *)
Lemma int_of_digits_bound (v : string) :
  Str.all Str.is_digit v = true ->
  (0 <= int_of_digits v < 10 ^ Z.of_nat (String.length v))%Z.
Proof.
  intros H. apply all_digits_Forall in H.
  pose proof (int_of_digits_fold _ 0%Z H ltac:(lia)) as B. cbn zeta in B.
  rewrite length_list_ascii in B. unfold int_of_digits. lia.
Qed.

Lemma leading_digits_all (v : string) :
  Str.all Str.is_digit v = true -> leading_digits v = v.
Proof.
  induction v as [|c v IH]; cbn [Str.all leading_digits]; intros H; [reflexivity|].
  apply andb_true_iff in H as [Hc H]. now rewrite Hc, IH.
Qed.

Lemma drop_chars_all (v : string) : drop_chars (String.length v) v = "".
Proof. induction v; cbn; auto. Qed.

Lemma decimal_value_digits (v : string) :
  Str.all Str.is_digit v = true ->
  decimal_value v = ((int_of_digits v # 1) + (0 # 1))%Q.
Proof.
  intros H. unfold decimal_value.
  now rewrite leading_digits_all, drop_chars_all by exact H.
Qed.

Lemma series_max_le (bound : Q) (l : list Q) (m : Q) :
  Forall (fun q => Qle q bound) l -> series_max l = Some m -> Qle m bound.
Proof.
  destruct l as [|x l]; [discriminate|]. cbn [series_max].
  intros H. apply Forall_cons in H as [Hx H]. intros [= <-].
  revert x Hx. induction H as [|y l Hy _ IH]; intros x Hx; cbn [fold_left].
  - exact Hx.
  - apply IH. now destruct (Qle_bool x y).
Qed.

Lemma exceeds_below (m : option Q) (lo hi : Q) :
  (forall x, m = Some x -> Qle x lo) -> Qle lo hi -> exceeds m hi = false.
Proof.
  intros H Hle. destruct m as [x|]; [|reflexivity]. cbn [exceeds].
  apply negb_false_iff, Qle_bool_iff. apply Qle_trans with lo; auto.
Qed.

Lemma to_numeric_sample (column : list (option string)) :
  to_numeric column = List.map decimal_value (non_null_sample column).
Proof. unfold to_numeric, non_null_sample. now rewrite List.map_map. Qed.

Lemma matched_type_epochtime (sample : list string) :
  all_match epochtime_patterns sample = true ->
  matched_type sample = Some "epochtime".
Proof.
  intros H. unfold matched_type, patterns. cbv zeta.
  cbn [List.find snd]. now rewrite H.
Qed.

(** X8: a column all of whose values are strings of ten digits (telephone
    numbers, say) matches the pattern of [integer], but [epochtime] comes
    first in [patterns]: the column is inferred as epoch time and handed to
    [pd.to_datetime] with the unit of seconds. *)
Theorem ten_digit_columns_become_datetimes (column : list (option string)) :
  non_null_sample column <> [] ->
  Forall (fun v => String.length v = 10%nat /\ Str.all Str.is_digit v = true)
         (non_null_sample column) ->
  all_match [integer_pattern] (non_null_sample column) = true /\
  matched_type (non_null_sample column) = Some "epochtime" /\
  cast_column column = Some (to_datetime_unit unit_s).
Proof.
  intros Hne Hall.
  assert (all_match epochtime_patterns (non_null_sample column) = true) as Hep.
  { apply all_match_Forall. eapply Forall_impl; [exact Hall|].
    intros v [Hlen Hd]. eexists. split; [left; reflexivity|].
    apply matches_app_nil; [|apply matches_alt_r; constructor].
    rewrite <- Hlen. now apply matches_rep_cls. }
  split; [|split].
  - apply all_match_Forall. eapply Forall_impl; [exact Hall|].
    intros v [Hlen Hd]. eexists. split; [left; reflexivity|].
    unfold integer_pattern, re_seq. cbn [fold_right].
    apply (matches_cat _ _ "" v); [apply matches_alt_r; constructor|].
    apply matches_app_nil; [|constructor].
    apply matches_plus_cls; [|exact Hd]. now destruct v.
  - now apply matched_type_epochtime.
  - unfold cast_column. destruct (non_null_sample column) as [|v sample] eqn:Es;
      [contradiction|].
    rewrite (matched_type_epochtime _ Hep). cbn [mbind option_bind].
    cbn [Str.mem existsb String.eqb Ascii.eqb Bool.eqb orb].
    do 2 f_equal. unfold epoch_unit.
    assert (forall x, series_max (to_numeric column) = Some x -> Qle x (10 ^ 10 # 1)) as B.
    { intros x. apply series_max_le. rewrite to_numeric_sample, Es.
      apply Forall_map. eapply Forall_impl; [exact Hall|].
      intros w [Hlen Hd]. rewrite (decimal_value_digits _ Hd).
      pose proof (int_of_digits_bound _ Hd) as Hb. rewrite Hlen in Hb.
      change (10 ^ Z.of_nat 10)%Z with 10000000000%Z in Hb.
      unfold Qle, Qplus. cbn [Qnum Qden]. change (10 ^ 10)%Z with 10000000000%Z. lia. }
    rewrite (exceeds_below _ _ _ B) by (vm_compute; discriminate).
    now rewrite (exceeds_below _ _ _ B) by (vm_compute; discriminate).
Qed.

(** X9: a column whose values are all [0] or [1] matches the pattern of
    [boolean], but [integer] comes earlier in [patterns]: the column is
    cast to [Int64], and [bool_map] is not applied to it. *)
Theorem zero_one_columns_are_integer (column : list (option string)) :
  non_null_sample column <> [] ->
  Forall (fun v => v = "0" \/ v = "1") (non_null_sample column) ->
  all_match [boolean_pattern] (non_null_sample column) = true /\
  matched_type (non_null_sample column) = Some "integer" /\
  cast_column column = Some to_Int64.
Proof.
  intros Hne Hall.
  assert (matched_type (non_null_sample column) = Some "integer") as Hm.
  { assert (all_match [integer_pattern] (non_null_sample column) = true) as Hi.
    { unfold all_match. apply forallb_forall. intros v Hv.
      rewrite Forall_forall in Hall.
      apply list_elem_of_In, Hall in Hv as [-> | ->]; reflexivity. }
    destruct (non_null_sample column) as [|v sample]; [contradiction|].
    unfold matched_type, patterns. cbv zeta. cbn [List.find snd].
    apply Forall_cons in Hall as [Hv _].
    repeat (rewrite all_match_head by (destruct Hv as [-> | ->]; reflexivity)).
    now rewrite Hi. }
  split; [|split; [exact Hm|]].
  - unfold all_match. apply forallb_forall. intros v Hv.
    rewrite Forall_forall in Hall.
    apply list_elem_of_In, Hall in Hv as [-> | ->]; reflexivity.
  - unfold cast_column. destruct (non_null_sample column); [contradiction|].
    now rewrite Hm.
Qed.

(** *** [bool_map] and the pattern of [boolean] *)

Lemma lower_nil (x : string) : Str.lower x = "" -> x = "".
Proof. now destruct x. Qed.



Lemma mem_In (x : string) (l : list string) : Str.mem x l = true <-> In x l.
Proof.
  unfold Str.mem. rewrite existsb_exists. split.
  - intros (y & Hy & ->%String.eqb_eq). exact Hy.
  - intros H. exists x. split; [exact H | apply String.eqb_refl].
Qed.



Lemma is_space_lower (c : ascii) :
  Str.is_space (Str.lower_char c) = Str.is_space c.
Proof. destruct c as [[] [] [] [] [] [] [] []]; reflexivity. Qed.








Lemma ten_digit_columns_become_datetimes_witness :
  cast_column [Some "0612345678"; None; Some "0698765432"]
  = Some (to_datetime_unit unit_s).
Proof.
  refine (proj2 (proj2 (ten_digit_columns_become_datetimes _ _ _))).
  - discriminate.
  - repeat constructor.
Defined.

Lemma zero_one_columns_are_integer_witness :
  cast_column [Some "1"; Some "0"; None; Some "1"] = Some to_Int64.
Proof.
  refine (proj2 (proj2 (zero_one_columns_are_integer _ _ _))).
  - discriminate.
  - repeat constructor; (now left) || (now right).
Defined.


(** ** The names of the parameters of [update] *)

Lemma all_app (p : ascii -> bool) (a b : string) :
  Str.all p (a +:+ b) = Str.all p a && Str.all p b.
Proof.
  induction a as [|c a IH]; [reflexivity|].
  rewrite append_cons. cbn [Str.all]. now rewrite IH, andb_assoc.
Qed.

Lemma is_identifier_all (s : string) :
  s <> "" -> Str.all Str.is_word s = true -> is_identifier s = true.
Proof.
  destruct s as [|c s]; [easy|]. intros _ H. cbn [Str.all] in H.
  apply andb_true_iff in H as [Hc H]. now apply is_identifier_word.
Qed.

Lemma clause_not_empty (keyword : string) (w acc : string * Dict.t pyval) :
  fst w <> "" ->
  clause keyword w acc
  = (fst acc +:+ keyword +:+ fst w, Dict.update (snd acc) (snd w)).
Proof. unfold clause. now destruct (fst w). Qed.

Lemma build_where_one_comparison (self : SQLBuilder) (f : string) (w : pyval)
    (id n : nat) :
  build_where self (Some [InCondition (mkCondition f "=" [w] id None)]) None n
  = (Ok (quoted self f +:+ " = "
           +:+ wrap_dt self (ph self +:+ f +:+ "_" +:+ pretty id) "=" w,
         [(f +:+ "_" +:+ pretty id, w)]),
     n).
Proof.
  unfold build_where. cbn [mapM from_input].
  run_M. cbn [compile_conditions].
  now rewrite (to_sql_comparison _ _ _ _ _ w) by (cbn; auto).
Qed.

(** X11: the parameters of the SET part of [update] are named [set_{k}]
    and those of the WHERE part [{field}_{id}], in one mapping.  A column
    [{base}_{id}] updated under a condition with the id [id] on the field
    [set_{base}] gives the same name twice: the statement holds the marker
    in both places and the mapping has one entry, the value of the
    condition, so the value to store is lost. *)
Theorem update_set_value_overwritten (self : SQLBuilder) (table base : string)
    (id n : nat) (v w : pyval) :
  is_identifier table = true ->
  Str.all Str.is_word base = true ->
  let column := base +:+ "_" +:+ pretty id in
  let name := "set_" +:+ column in
  update self table [(column, v)]
         (Some [InCondition (mkCondition ("set_" +:+ base) "=" [w] id None)])
         None false n
  = (Ok (positional_on_mysql_sqlite self
           ("UPDATE " +:+ quoted self table +:+ " SET "
              +:+ quoted self column +:+ " = " +:+ ph self +:+ name
              +:+ " WHERE " +:+ quoted self ("set_" +:+ base) +:+ " = "
              +:+ wrap_dt self (ph self +:+ name) "=" w)
           [(name, w)]),
     n).
Proof.
  intros Ht Hb column name.
  assert (is_identifier column = true) as Hc.
  { apply is_identifier_all.
    - intros E. apply append_eq_nil in E as [_ E]. discriminate E.
    - unfold column. rewrite !all_app, Hb.
      now rewrite (all_digits_word _ (pretty_nat_digits id)). }
  unfold update. rewrite Ht. cbn [negb update_sets]. rewrite Hc.
  cbn [negb update_sets]. run_M.
  rewrite build_where_one_comparison.
  rewrite clause_not_empty.
  2:{ cbn [fst]. intros E. apply append_eq_nil in E as [_ E]. discriminate E. }
  cbn [fst snd app Str.join String.concat Dict.set Dict.update fold_left].
  replace (("set_" +:+ base) +:+ "_" +:+ pretty id) with name
    by (unfold name, column; now rewrite append_assoc).
  fold name. rewrite String.eqb_refl. now rewrite !append_assoc.
Qed.

Lemma update_set_value_overwritten_witness :
  update (mkSQLBuilder "postgresql" ":" Str.dquote) "t" [("qty_7", VInt 100)]
         (Some [InCondition (mkCondition "set_qty" "=" [VInt 0] 7 None)])
         None false 8%nat
  = (Ok ("UPDATE " +:+ Str.dquote +:+ "t" +:+ Str.dquote +:+ " SET "
           +:+ Str.dquote +:+ "qty_7" +:+ Str.dquote +:+ " = :set_qty_7 WHERE "
           +:+ Str.dquote +:+ "set_qty" +:+ Str.dquote +:+ " = :set_qty_7",
         Named [("set_qty_7", VInt 0)]),
     8%nat).
Proof.
  exact (update_set_value_overwritten (mkSQLBuilder "postgresql" ":" Str.dquote)
           "t" "qty" 7 8 (VInt 100) (VInt 0) eq_refl eq_refl).
Defined.

(** ** [upsert] when every column is a key *)

Lemma filter_all_keys (pk cols : list string) :
  Forall (fun c => In c pk) cols ->
  List.filter (fun c => negb (Str.mem c pk)) cols = [].
Proof.
  induction 1 as [|c cols Hc _ IH]; [reflexivity|].
  cbn [List.filter]. apply mem_In in Hc. now rewrite Hc.
Qed.

(** X12: when every column of [data] is one of the key columns there is
    nothing left to update, and [upsert] still writes the update clause:
    for postgres, sqlite and mysql the statement ends with the keyword of
    the clause and no assignment. *)
Theorem upsert_of_key_columns_only (self : SQLBuilder) (table : string)
    (data : Dict.t pyval) (pk : list string) :
  is_identifier table = true ->
  forallb is_identifier (Dict.keys data ++ pk) = true ->
  Forall (fun c => In c pk) (Dict.keys data) ->
  let cols := Dict.keys data in
  let insert_into :=
    "INSERT INTO " +:+ quoted self table +:+ " ("
      +:+ Str.join ", " (List.map (quoted self) cols) +:+ ") VALUES ("
      +:+ Str.join ", " (List.map (fun c => ph self +:+ c) cols) +:+ ")" in
  let on_conflict :=
    insert_into +:+ " ON CONFLICT ("
      +:+ Str.join ", " (List.map (quoted self) pk) +:+ ") DO UPDATE SET " in
  (dialect self = "postgres" ->
   upsert self table data pk = Ok (on_conflict, Named data)) /\
  (dialect self = "sqlite" ->
   upsert self table data pk = Ok (on_conflict, Positional (Dict.values data))) /\
  (dialect self = "mysql" ->
   upsert self table data pk
   = Ok (insert_into +:+ " ON DUPLICATE KEY UPDATE ",
         Positional (Dict.values data))).
Proof.
  intros Ht Hn Hk cols insert_into on_conflict.
  unfold upsert. rewrite Ht, Hn. cbn [negb].
  rewrite (filter_all_keys _ _ Hk). cbn [List.map Str.join String.concat].
  unfold positional_on_mysql_sqlite.
  repeat split; intros ->; cbn; unfold on_conflict, insert_into, cols;
    now rewrite ?append_nil_r, ?append_assoc.
Qed.

Lemma upsert_of_key_columns_only_witness :
  upsert (mkSQLBuilder "postgres" ":" Str.dquote) "t"
         [("a", VInt 1); ("b", VInt 2)] ["a"; "b"]
  = Ok ("INSERT INTO " +:+ Str.dquote +:+ "t" +:+ Str.dquote +:+ " ("
          +:+ Str.dquote +:+ "a" +:+ Str.dquote +:+ ", "
          +:+ Str.dquote +:+ "b" +:+ Str.dquote +:+ ") VALUES (:a, :b)"
          +:+ " ON CONFLICT (" +:+ Str.dquote +:+ "a" +:+ Str.dquote +:+ ", "
          +:+ Str.dquote +:+ "b" +:+ Str.dquote +:+ ") DO UPDATE SET ",
        Named [("a", VInt 1); ("b", VInt 2)]).
Proof.
  refine (proj1 (upsert_of_key_columns_only
                   (mkSQLBuilder "postgres" ":" Str.dquote) "t"
                   [("a", VInt 1); ("b", VInt 2)] ["a"; "b"] eq_refl eq_refl _)
                eq_refl).
  repeat constructor; cbn; tauto.
Defined.

(** ** The tokenizer and [from_string] *)

Lemma is_word_lower (c : ascii) : Str.is_word (Str.lower_char c) = Str.is_word c.
Proof. destruct c as [[] [] [] [] [] [] [] []]; reflexivity. Qed.

Lemma lower_cons (c : ascii) (s : string) :
  Str.lower (String c s) = String (Str.lower_char c) (Str.lower s).
Proof. reflexivity. Qed.

Lemma starts_word_app (f g : string) :
  Str.all Str.is_word f = true -> starts_word (f +:+ g) = false -> f = "".
Proof.
  destruct f as [|c f]; [easy|]. cbn [Str.all]. rewrite append_cons. cbn [starts_word].
  intros [Hc _]%andb_true_iff. congruence.
Qed.

(** A prefix made of word characters, matched without case against a text
    that starts with the word [f]: when a position that is not inside a
    word follows the match, the prefix is [f], up to case. *)
Lemma strip_prefix_word (w f g r : string) :
  Str.all Str.is_word w = true ->
  Str.all Str.is_word f = true ->
  starts_word g = false ->
  strip_prefix_ci w (f +:+ g) = Some r ->
  starts_word r = false ->
  Str.lower f = Str.lower w /\ r = g.
Proof.
  revert f. induction w as [|a w IH]; intros f Hw Hf Hg H Hr.
  - cbn [strip_prefix_ci] in H. injection H as <-.
    apply starts_word_app in Hr as ->; auto.
  - cbn [Str.all] in Hw. apply andb_true_iff in Hw as [Ha Hw].
    destruct f as [|c f].
    + change ("" +:+ g) with g in H. destruct g as [|b g]; [discriminate|].
      cbn [strip_prefix_ci] in H. cbn [starts_word] in Hg.
      destruct (Ascii.eqb_spec (Str.lower_char a) (Str.lower_char b)) as [E|];
        [|discriminate].
      apply (f_equal Str.is_word) in E. rewrite !is_word_lower in E. congruence.
    + rewrite append_cons in H. cbn [strip_prefix_ci] in H.
      cbn [Str.all] in Hf. apply andb_true_iff in Hf as [Hc Hf].
      destruct (Ascii.eqb_spec (Str.lower_char a) (Str.lower_char c)) as [E|];
        [|discriminate].
      destruct (IH f Hw Hf Hg H Hr) as [IH1 IH2].
      split; [|exact IH2]. rewrite !lower_cons. now rewrite E, IH1.
Qed.

Lemma strip_prefix_same (w f g : string) :
  Str.lower f = Str.lower w -> strip_prefix_ci w (f +:+ g) = Some g.
Proof.
  revert f. induction w as [|a w IH]; intros f H.
  - apply lower_nil in H as ->. reflexivity.
  - destruct f as [|c f]; [discriminate|]. rewrite !lower_cons in H.
    injection H as Hc H. rewrite append_cons. cbn [strip_prefix_ci].
    rewrite Hc, Ascii.eqb_refl. now apply IH.
Qed.

Lemma strip_prefix_app (a b s : string) :
  strip_prefix_ci (a +:+ b) s = strip_prefix_ci a s ≫= strip_prefix_ci b.
Proof.
  revert s. induction a as [|x a IH]; intros s; [reflexivity|].
  rewrite append_cons. destruct s as [|y s]; [reflexivity|].
  cbn [strip_prefix_ci]. destruct (Ascii.eqb _ _); [apply IH | reflexivity].
Qed.

(** After a match of a prefix that starts with [a], the text started with
    a character of the same kind as [a]. *)
Lemma strip_prefix_starts (a : ascii) (p s r : string) :
  strip_prefix_ci (String a p) s = Some r -> starts_word s = Str.is_word a.
Proof.
  destruct s as [|c s]; [discriminate|]. cbn [strip_prefix_ci starts_word].
  destruct (Ascii.eqb_spec (Str.lower_char a) (Str.lower_char c)) as [E|];
    [|discriminate].
  intros _. apply (f_equal Str.is_word) in E. rewrite !is_word_lower in E. congruence.
Qed.

Lemma all_word_lower (s : string) :
  Str.all Str.is_word (Str.lower s) = Str.all Str.is_word s.
Proof.
  induction s as [|c s IH]; [reflexivity|].
  rewrite lower_cons. cbn [Str.all]. now rewrite is_word_lower, IH.
Qed.

(** A keyword of one word at a field that is another word. *)
Lemma keyword_not_field (kw f g : string) :
  Str.all Str.is_word kw = true ->
  Str.all Str.is_word f = true ->
  starts_word g = false ->
  Str.lower f <> Str.lower kw ->
  match_keyword kw false (f +:+ g) = None.
Proof.
  intros Hkw Hf Hg Hne. unfold match_keyword.
  destruct (word_boundary false (f +:+ g)); [|reflexivity].
  destruct (strip_prefix_ci kw (f +:+ g)) as [r|] eqn:E; [|reflexivity].
  cbn [mbind option_bind]. unfold word_boundary. cbn [xorb].
  destruct (starts_word r) eqn:Hr; [reflexivity|]. cbn [negb].
  now destruct (strip_prefix_word kw f g r Hkw Hf Hg E Hr).
Qed.

(** A keyword of several words, [w1] and the rest [w2] from its first
    space on, at a field followed by a text that [w2] does not start. *)
Lemma long_keyword_not_field (w1 w2 f g : string) (prev_word : bool) :
  Str.all Str.is_word w1 = true ->
  Str.all Str.is_word f = true ->
  starts_word g = false ->
  starts_word w2 = false -> w2 <> "" ->
  strip_prefix_ci w2 g = None ->
  match_keyword (w1 +:+ w2) prev_word (f +:+ g) = None.
Proof.
  intros Hw1 Hf Hg Hw2 Hne Hno. unfold match_keyword.
  destruct (word_boundary prev_word (f +:+ g)); [|reflexivity].
  rewrite strip_prefix_app.
  destruct (strip_prefix_ci w1 (f +:+ g)) as [r1|] eqn:E1; [|reflexivity].
  cbn [mbind option_bind].
  destruct (strip_prefix_ci w2 r1) as [r|] eqn:E2; [|reflexivity].
  exfalso. destruct w2 as [|a w2]; [easy|].
  pose proof (strip_prefix_starts _ _ _ _ E2) as Hr1. cbn [starts_word] in Hw2.
  rewrite Hw2 in Hr1.
  destruct (strip_prefix_word w1 f g r1 Hw1 Hf Hg E1 Hr1) as [_ ->]. congruence.
Qed.

(** A keyword of several words at a field that is not its first word. *)
Lemma long_keyword_other_field (w1 w2 f g : string) (prev_word : bool) :
  Str.all Str.is_word w1 = true ->
  Str.all Str.is_word f = true ->
  starts_word g = false ->
  starts_word w2 = false -> w2 <> "" ->
  Str.lower f <> Str.lower w1 ->
  match_keyword (w1 +:+ w2) prev_word (f +:+ g) = None.
Proof.
  intros Hw1 Hf Hg Hw2 Hne Hno. unfold match_keyword.
  destruct (word_boundary prev_word (f +:+ g)); [|reflexivity].
  rewrite strip_prefix_app.
  destruct (strip_prefix_ci w1 (f +:+ g)) as [r1|] eqn:E1; [|reflexivity].
  cbn [mbind option_bind].
  destruct (strip_prefix_ci w2 r1) as [r|] eqn:E2; [|reflexivity].
  exfalso. destruct w2 as [|a w2]; [easy|].
  pose proof (strip_prefix_starts _ _ _ _ E2) as Hr1. cbn [starts_word] in Hw2.
  rewrite Hw2 in Hr1.
  now destruct (strip_prefix_word w1 f g r1 Hw1 Hf Hg E1 Hr1) as [? _].
Qed.

Lemma leading_word_app (f g : string) :
  Str.all Str.is_word f = true -> starts_word g = false ->
  leading_word (f +:+ g) = f.
Proof.
  intros Hf Hg. induction f as [|c f IH].
  - change ("" +:+ g) with g. destruct g as [|b g]; [reflexivity|].
    cbn [starts_word] in Hg. cbn [leading_word]. now rewrite Hg.
  - cbn [Str.all] in Hf. apply andb_true_iff in Hf as [Hc Hf].
    rewrite append_cons. cbn [leading_word]. now rewrite Hc, IH.
Qed.

Lemma drop_chars_app (f g : string) : drop_chars (String.length f) (f +:+ g) = g.
Proof. induction f as [|c f IH]; [now destruct g|]. now rewrite append_cons. Qed.

Lemma length_app (f g : string) :
  String.length (f +:+ g) = (String.length f + String.length g)%nat.
Proof. induction f as [|c f IH]; [reflexivity|]. rewrite append_cons. cbn. now rewrite IH. Qed.

Lemma substring_app (f g : string) : substring 0 (String.length f) (f +:+ g) = f.
Proof.
  induction f as [|c f IH]; [now destruct g|].
  rewrite append_cons. cbn [String.length substring]. now rewrite IH.
Qed.

Lemma tokenize_at_skip (u v : string) (prev_word : bool) (pos : nat) :
  tokenize_at prev_word (String.length u) pos (u +:+ v)
  = tokenize_at (prev_after prev_word u) 0 (pos + String.length u) v.
Proof.
  revert prev_word pos. induction u as [|c u IH]; intros prev_word pos.
  - change ("" +:+ v) with v. cbn [String.length prev_after].
    now rewrite Nat.add_0_r.
  - rewrite append_cons. cbn [String.length tokenize_at prev_after].
    rewrite IH. f_equal. lia.
Qed.

Lemma prev_after_word (u : string) (c : ascii) (prev_word : bool) :
  Str.all Str.is_word (String c u) = true -> prev_after prev_word (String c u) = true.
Proof.
  revert c prev_word. induction u as [|x u IH]; intros c prev_word H.
  - cbn in *. now rewrite andb_true_r in H.
  - cbn [Str.all] in H. apply andb_true_iff in H as [_ H].
    cbn [prev_after]. exact (IH x (Str.is_word c) H).
Qed.

(** *** One step of the loop of [_tokenize] *)

Lemma tokenize_at_step (prev_word : bool) (pos : nat) (c : ascii)
    (m rest : string) (kind : option token_kind) :
  master_re (token_spec prev_word (String c m +:+ rest)) = Some (kind, rest) ->
  tokenize_at prev_word 0 pos (String c m +:+ rest)
  = match tokenize_at (prev_after prev_word (String c m)) 0
            (pos + String.length (String c m)) rest with
    | Failed e => Failed e
    | Parsed out =>
        Parsed
          match kind with
          | None => out
          | Some STRING =>
              (STRING,
               unescape (substring 1 (String.length (String c m) - 2) (String c m)))
                :: out
          | Some kind => (kind, String c m) :: out
          end
    end.
Proof.
  intros H. rewrite append_cons in *. cbn [tokenize_at]. rewrite H.
  cbn zeta.
  replace (String.length (String c (m +:+ rest)) - String.length rest)%nat
    with (S (String.length m)) by (cbn [String.length]; rewrite length_app; lia).
  cbn [substring]. rewrite substring_app.
  replace (S (String.length m) - 1)%nat with (String.length m) by lia.
  rewrite tokenize_at_skip. cbn [prev_after String.length].
  now replace (S pos + String.length m)%nat with (pos + S (String.length m))%nat by lia.
Qed.

Lemma tokenize_at_pos (s : string) (prev_word : bool) (skip pos pos' : nat)
    (out : list (token_kind * string)) :
  tokenize_at prev_word skip pos s = Parsed out ->
  tokenize_at prev_word skip pos' s = Parsed out.
Proof.
  revert prev_word skip pos pos' out.
  induction s as [|c s IH]; intros prev_word skip pos pos' out; [easy|].
  cbn [tokenize_at]. destruct skip as [|k]; [|apply IH].
  destruct (master_re _) as [[kind rest]|]; [|discriminate].
  cbn zeta.
  destruct (tokenize_at _ _ (S pos) s) as [o|] eqn:E; [|discriminate].
  now rewrite (IH _ _ _ (S pos') _ E).
Qed.

Lemma is_space_not_word (c : ascii) : Str.is_space c = true -> Str.is_word c = false.
Proof. destruct c as [[] [] [] [] [] [] [] []]; (discriminate || reflexivity). Qed.

(** At white space the character before does not count. *)
Lemma tokenize_at_separated (tail : string) (prev_word prev_word' : bool)
    (pos pos' : nat) (out : list (token_kind * string)) :
  separated tail = true ->
  tokenize_at prev_word 0 pos tail = Parsed out ->
  tokenize_at prev_word' 0 pos' tail = Parsed out.
Proof.
  destruct tail as [|c tail]; [easy|]. cbn [separated]. intros Hc.
  assert (forall p, master_re (token_spec p (String c tail))
                    = Some (None, drop_chars (String.length (leading_space tail)) tail))
    as Hm.
  { intros p. unfold token_spec. cbn [master_re]. unfold match_space.
    cbn [leading_space]. rewrite Hc. reflexivity. }
  cbn [tokenize_at]. rewrite !Hm. cbn zeta.
  destruct (tokenize_at _ _ (S pos) tail) as [o|] eqn:E; [|discriminate].
  intros [= <-]. now rewrite (tokenize_at_pos _ _ _ _ (S pos') _ E).
Qed.

(** *** The group that matches at each kind of text *)

Lemma ident_start (c : ascii) (r : string) (prev_word : bool) :
  is_alpha c || Ascii.eqb c "_" = true ->
  Str.is_word c = true /\
  match_space (String c r) = None /\
  match_comp_op (String c r) = None /\
  strip_prefix_ci "(" (String c r) = None /\
  strip_prefix_ci ")" (String c r) = None /\
  match_string (String c r) = None /\
  match_number (String c r) = None.
Proof.
  destruct c as [[] [] [] [] [] [] [] []]; intros H;
    try (vm_compute in H; discriminate H); repeat split; reflexivity.
Qed.

Lemma digit_start (c : ascii) (r : string) (prev_word : bool) :
  Str.is_digit c = true ->
  match_space (String c r) = None /\
  Forall (fun kw => match_keyword kw prev_word (String c r) = None)
         ["IS NOT NULL"; "IS NULL"; "NOT IN"; "NOT"; "BETWEEN"; "IN"; "ILIKE";
          "LIKE"] /\
  match_comp_op (String c r) = None /\
  strip_prefix_ci "(" (String c r) = None /\
  strip_prefix_ci ")" (String c r) = None /\
  match_string (String c r) = None.
Proof.
  destruct c as [[] [] [] [] [] [] [] []]; intros H;
    try (vm_compute in H; discriminate H);
    (split; [reflexivity|]; split; [|repeat split; reflexivity]);
    repeat constructor; unfold match_keyword;
      (destruct (word_boundary _ _); reflexivity).
Qed.

Lemma master_at_field (f g : string) :
  is_field_name f = true ->
  starts_word g = false ->
  strip_prefix_ci " NOT NULL" g = None ->
  strip_prefix_ci " NULL" g = None ->
  master_re (token_spec false (f +:+ g)) = Some (Some IDENT, g).
Proof.
  intros Hf Hg H1 H2. destruct f as [|c f]; [discriminate|].
  cbn [is_field_name] in Hf.
  apply andb_true_iff in Hf as [[Hc Hr]%andb_true_iff Hk].
  destruct (ident_start c (f +:+ g) false Hc) as (Hw & S1 & S2 & S3 & S4 & S5 & S6).
  assert (Str.all Str.is_word (String c f) = true) as Hall
    by (cbn [Str.all]; now rewrite Hw, Hr).
  assert (forall kw, In kw ["NOT"; "BETWEEN"; "IN"; "ILIKE"; "LIKE"; "AND"; "OR"] ->
            match_keyword kw false (String c f +:+ g) = None) as K.
  { intros kw Hin. apply keyword_not_field; auto.
    - cbn [In] in Hin.
      repeat (destruct Hin as [<- | Hin]; [reflexivity|]). contradiction.
    - intros E. apply negb_true_iff in Hk.
      assert (Str.mem (Str.lower (String c f)) keywords = true) as Hm; [|congruence].
      apply mem_In. rewrite E. cbn [In] in Hin.
      repeat (destruct Hin as [<- | Hin]; [vm_compute; tauto|]). contradiction. }
  change (String c (f +:+ g)) with (String c f +:+ g) in *.
  unfold token_spec. rewrite S1, S2, S3, S4, S5, S6.
  change "IS NOT NULL" with ("IS" +:+ " NOT NULL").
  change "IS NULL" with ("IS" +:+ " NULL").
  change "NOT IN" with ("NOT" +:+ " IN").
  rewrite !long_keyword_not_field by (auto; discriminate).
  rewrite long_keyword_other_field; auto; try discriminate.
  2:{ intros E. apply negb_true_iff in Hk.
      assert (Str.mem (Str.lower (String c f)) keywords = true) as Hm; [|congruence].
      apply mem_In. rewrite E. vm_compute. tauto. }
  rewrite (K "NOT"), (K "BETWEEN"), (K "IN"), (K "ILIKE"), (K "LIKE"),
    (K "AND"), (K "OR") by (cbn; tauto).
  cbn [master_re]. unfold match_ident. rewrite append_cons, Hc.
  now rewrite leading_word_app, drop_chars_app.
Qed.


Lemma master_at_space (s : string) (prev_word : bool) :
  leading_space s = "" ->
  master_re (token_spec prev_word (" " +:+ s)) = Some (None, s).
Proof.
  intros H. change (" " +:+ s) with (String " " s).
  unfold token_spec. cbn [master_re]. unfold match_space.
  cbn [leading_space]. change (Str.is_space " ") with true. cbv iota.
  now rewrite H.
Qed.

Lemma master_at_comp_op (op s : string) :
  In op comparison_operators ->
  master_re (token_spec false (op +:+ " " +:+ s)) = Some (Some COMP_OP, " " +:+ s).
Proof.
  intros H. cbn [comparison_operators In] in H.
  repeat (destruct H as [<- | H]; [reflexivity|]). contradiction.
Qed.

Lemma leading_digits_app (l tail : string) :
  Str.all Str.is_digit l = true -> separated tail = true ->
  leading_digits (l +:+ tail) = l.
Proof.
  intros Hl Ht. induction l as [|c l IH].
  - change ("" +:+ tail) with tail. destruct tail as [|b tail]; [reflexivity|].
    cbn [separated] in Ht. cbn [leading_digits].
    destruct b as [[] [] [] [] [] [] [] []]; (discriminate Ht || reflexivity).
  - cbn [Str.all] in Hl. apply andb_true_iff in Hl as [Hc Hl].
    rewrite append_cons. cbn [leading_digits]. now rewrite Hc, IH.
Qed.

Lemma master_at_number (d : ascii) (l tail : string) :
  Str.all Str.is_digit (String d l) = true ->
  separated tail = true ->
  master_re (token_spec false (String d l +:+ tail)) = Some (Some NUMBER, tail).
Proof.
  intros Hl Ht.
  assert (Str.is_digit d = true) as Hd
    by (cbn [Str.all] in Hl; now apply andb_true_iff in Hl as [? _]).
  destruct (digit_start d (l +:+ tail) false Hd) as (S1 & K & S2 & S3 & S4 & S5).
  change (String d (l +:+ tail)) with (String d l +:+ tail) in *.
  unfold token_spec.
  repeat (apply Forall_cons in K as [-> K]).
  rewrite S1, S2, S3, S4, S5. cbn [master_re].
  unfold match_number. rewrite (leading_digits_app _ _ Hl Ht), drop_chars_app.
  destruct tail as [|b tail]; [reflexivity|]. cbn [separated] in Ht.
  destruct b as [[] [] [] [] [] [] [] []]; (discriminate Ht || reflexivity).
Qed.

(** A text with no quote in it. *)
Lemma string_body_plain (content tail : string) :
  Str.all (fun c => negb (Ascii.eqb c "'")) content = true ->
  separated tail = true ->
  string_body (content +:+ "'" +:+ tail) = Some (content, tail).
Proof.
  intros Hc Ht. induction content as [|c content IH].
  - change ("" +:+ "'" +:+ tail) with (String "'" tail). cbn [string_body].
    change (Ascii.eqb "'" "'") with true. cbv iota.
    destruct tail as [|b tail]; [reflexivity|]. cbn [separated] in Ht.
    destruct b as [[] [] [] [] [] [] [] []]; (discriminate Ht || reflexivity).
  - cbn [Str.all] in Hc. apply andb_true_iff in Hc as [Hq Hc].
    rewrite append_cons. cbn [string_body].
    apply negb_true_iff in Hq. rewrite Hq. now rewrite IH.
Qed.

Lemma master_at_quote (r : string) :
  master_re (token_spec false (String "'" r))
  = match string_body r with
    | Some (_, rest) => Some (Some STRING, rest)
    | None => None
    end.
Proof. unfold token_spec, match_string. now destruct (string_body r) as [[? ?]|]. Qed.

Lemma master_at_string (content tail : string) :
  Str.all (fun c => negb (Ascii.eqb c "'")) content = true ->
  separated tail = true ->
  master_re (token_spec false (("'" +:+ content +:+ "'") +:+ tail))
  = Some (Some STRING, tail).
Proof.
  intros Hc Ht. rewrite !append_assoc.
  change ("'" +:+ content +:+ "'" +:+ tail) with (String "'" (content +:+ "'" +:+ tail)).
  now rewrite master_at_quote, string_body_plain.
Qed.

Lemma unescape_plain (content : string) :
  Str.all (fun c => negb (Ascii.eqb c "'")) content = true ->
  unescape content = content.
Proof.
  induction content as [|c content IH]; [reflexivity|].
  cbn [Str.all unescape]. intros [Hq Hc]%andb_true_iff.
  apply negb_true_iff in Hq. now rewrite Hq, IH.
Qed.

Lemma substring_inner (content : string) (a b : ascii) :
  substring 1 (String.length (String a (content +:+ String b "")) - 2)
            (String a (content +:+ String b ""))
  = content.
Proof.
  cbn [String.length substring]. rewrite length_app. cbn [String.length].
  replace (S (String.length content + 1) - 2)%nat with (String.length content) by lia.
  apply substring_app.
Qed.

(** The tokens of [<field> <operator> <literal>], whatever follows. *)
Lemma tokenize_comparison (f op tail : string) (c : ascii) (m : string)
    (kind : token_kind) (ts : list (token_kind * string)) :
  is_field_name f = true ->
  In op comparison_operators ->
  Str.is_space c = false ->
  master_re (token_spec false (String c m +:+ tail)) = Some (Some kind, tail) ->
  separated tail = true ->
  _tokenize tail = Parsed ts ->
  _tokenize (f +:+ " " +:+ op +:+ " " +:+ String c m +:+ tail)
  = Parsed ((IDENT, f) :: (COMP_OP, op)
              :: match kind with
                 | STRING =>
                     (STRING,
                      unescape (substring 1 (String.length (String c m) - 2)
                                          (String c m)))
                 | _ => (kind, String c m)
                 end :: ts).
Proof.
  intros Hf Hop Hc Hm Ht Hts. unfold _tokenize in *.
  assert (exists a f', f = String a f') as (a & f' & ->)
    by (destruct f; [discriminate | eauto]).
  assert (prev_after false (String a f') = true) as Hp.
  { cbn [is_field_name] in Hf.
    apply andb_true_iff in Hf as [[Ha Hr]%andb_true_iff _].
    apply prev_after_word. cbn [Str.all].
    destruct (ident_start a "" false Ha) as [-> _]. exact Hr. }
  assert (leading_space (String c m +:+ tail) = "") as Hl
    by (rewrite append_cons; cbn [leading_space]; now rewrite Hc).
  cbn [comparison_operators In] in Hop.
  destruct Hop as [<- | [<- | [<- | [<- | [<- | [<- | [<- | []]]]]]]].
  all: rewrite (tokenize_at_step false 0 a f' _ (Some IDENT))
        by (apply master_at_field; auto).
  all: rewrite Hp.
  all: rewrite (tokenize_at_step true _ " " "" _ None) by now apply master_at_space.
  all: change (prev_after true " ") with false.
  all: match goal with
      | |- context [tokenize_at _ 0 ?p (String ?x ?o +:+ " " +:+ ?r)] =>
          rewrite (tokenize_at_step false p x o (" " +:+ r) (Some COMP_OP))
            by (apply master_at_comp_op; cbn; tauto)
      end.
  all: match goal with
      | |- context [tokenize_at ?b 0 ?p (" " +:+ ?r)] =>
          rewrite (tokenize_at_step b p " " "" r None) by now apply master_at_space
      end.
  all: change (prev_after _ " ") with false.
  all: rewrite (tokenize_at_step _ _ c m tail (Some kind)) by exact Hm.
  all: rewrite (tokenize_at_separated tail false _ 0 _ ts Ht Hts).
  all: now destruct kind.
Qed.

Section FromStringFacts.
Context {F : Type}.
Variable py_int : string -> option Z.
Variable py_float : string -> option F.

Local Abbreviation from_string_args' := (from_string_args py_int py_float).
Local Abbreviation coerce' := (_coerce py_int py_float).

(** X13: [from_string] reads [<field> <operator> <literal>] as the call
    [cls(field, operator, [_coerce(text)])], where [text] is the digits of
    a number or what stands between the quotes of a string, and it looks
    at nothing after the literal: any further tokens are dropped without
    an error.  A quoted literal is coerced like a bare one, so quoting a
    number does not keep it a string. *)
Theorem from_string_comparison (f op digits content tail : string)
    (ts : list (token_kind * string)) :
  is_field_name f = true ->
  In op comparison_operators ->
  digits <> "" -> Str.all Str.is_digit digits = true ->
  Str.all (fun c => negb (Ascii.eqb c "'")) content = true ->
  separated tail = true ->
  _tokenize tail = Parsed ts ->
  from_string_args' (f +:+ " " +:+ op +:+ " " +:+ digits +:+ tail)
  = Parsed (f, op, [coerce' digits]) /\
  from_string_args' (f +:+ " " +:+ op +:+ " " +:+ ("'" +:+ content +:+ "'") +:+ tail)
  = Parsed (f, op, [coerce' content]).
Proof.
  intros Hf Hop Hne Hd Hq Ht Hts. split.
  - destruct digits as [|d l]; [contradiction|].
    assert (Str.is_space d = false) as Hs.
    { cbn [Str.all] in Hd. apply andb_true_iff in Hd as [Hd _].
      destruct d as [[] [] [] [] [] [] [] []]; (discriminate Hd || reflexivity). }
    unfold from_string_args.
    now rewrite (tokenize_comparison f op tail d l NUMBER ts Hf Hop Hs
                   (master_at_number d l tail Hd Ht) Ht Hts).
  - unfold from_string_args.
    change ("'" +:+ content +:+ "'") with (String "'" (content +:+ "'")).
    rewrite (tokenize_comparison f op tail "'" (content +:+ "'") STRING ts Hf Hop
               eq_refl (master_at_string content tail Hq Ht) Ht Hts).
    now rewrite substring_inner, (unescape_plain _ Hq).
Qed.

End FromStringFacts.

(** *** Fields named like a keyword *)

Lemma master_re_app (l1 l2 : list (option token_kind * option string)) :
  master_re (l1 ++ l2)
  = match master_re l1 with
    | Some x => Some x
    | None => master_re l2
    end.
Proof.
  induction l1 as [|[kind [rest|]] l1 IH]; cbn [app master_re]; auto.
Qed.

Lemma master_re_In (l : list (option token_kind * option string))
    (kind : option token_kind) (rest : string) :
  master_re l = Some (kind, rest) -> In (kind, Some rest) l.
Proof.
  induction l as [|[k [r|]] l IH]; cbn [master_re]; [discriminate| |].
  - intros [= <- <-]. now left.
  - intros H. right. now apply IH.
Qed.

Lemma master_re_found (l : list (option token_kind * option string))
    (kind : option token_kind) (rest : string) :
  In (kind, Some rest) l -> master_re l <> None.
Proof.
  induction l as [|[k [r|]] l IH]; cbn [master_re In]; [easy|easy|].
  intros [[=]|H]. now apply IH.
Qed.

(** At a word that is a keyword up to case, followed by a position that is
    not inside a word, one of the groups before [IDENT] matches. *)
Lemma master_at_keyword (k g : string) :
  Str.mem (Str.lower k) keywords = true ->
  starts_word g = false ->
  exists kind rest,
    master_re (token_spec false (k +:+ g)) = Some (Some kind, rest) /\
    kind <> IDENT /\ kind <> STRING.
Proof.
  intros Hk Hg.
  assert (exists c k', k = String c k' /\ Str.is_word c = true
                       /\ Str.is_space c = false) as (c & k' & -> & Hw & Hs).
  { apply mem_In in Hk. cbn [keywords In] in Hk.
    destruct k as [|c k']; [cbn in Hk; intuition discriminate|].
    exists c, k'. split; [reflexivity|].
    rewrite <- (is_word_lower c), <- (is_space_lower c).
    rewrite lower_cons in Hk.
    repeat (destruct Hk as [[= <- _] | Hk]; [split; reflexivity|]).
    contradiction. }
  set (s := String c k' +:+ g).
  set (l1 := [(None, match_space s);
              (Some IS_NOT_NULL, match_keyword "IS NOT NULL" false s);
              (Some IS_NULL, match_keyword "IS NULL" false s);
              (Some NOT_IN, match_keyword "NOT IN" false s);
              (Some NOT, match_keyword "NOT" false s);
              (Some BETWEEN, match_keyword "BETWEEN" false s);
              (Some IN, match_keyword "IN" false s);
              (Some ILIKE, match_keyword "ILIKE" false s);
              (Some LIKE, match_keyword "LIKE" false s);
              (Some COMP_OP, match_comp_op s);
              (Some LP, strip_prefix_ci "(" s);
              (Some RP, strip_prefix_ci ")" s);
              (Some STRING, match_string s);
              (Some NUMBER, match_number s);
              (Some AND, match_keyword "AND" false s);
              (Some OR, match_keyword "OR" false s)]).
  set (l2 := [(Some IDENT, match_ident s); (Some COMMA, strip_prefix_ci "," s)]).
  change (token_spec false s) with (l1 ++ l2). rewrite master_re_app.
  assert (match_space s = None) as Hsp.
  { unfold s. rewrite append_cons. unfold match_space. cbn [leading_space].
    now rewrite Hs. }
  assert (match_string s = None) as Hst.
  { unfold s. rewrite append_cons. unfold match_string.
    destruct c as [[] [] [] [] [] [] [] []]; (discriminate Hw || reflexivity). }
  assert (forall kw, Str.lower (String c k') = Str.lower kw ->
                     match_keyword kw false s = Some g) as Hkw.
  { intros kw E. unfold match_keyword, word_boundary, s.
    rewrite (strip_prefix_same _ _ _ E). rewrite append_cons.
    cbn [starts_word xorb mbind option_bind]. now rewrite Hw, Hg. }
  assert (exists kind, In (Some kind, Some g) l1) as (kind0 & Hin0).
  { apply mem_In in Hk. cbn [keywords In] in Hk.
    destruct Hk as [Hk|[Hk|[Hk|[Hk|[Hk|[Hk|[Hk|[]]]]]]]]; symmetry in Hk;
      [exists NOT; rewrite <- (Hkw "NOT" Hk)
      |exists BETWEEN; rewrite <- (Hkw "BETWEEN" Hk)
      |exists IN; rewrite <- (Hkw "IN" Hk)
      |exists ILIKE; rewrite <- (Hkw "ILIKE" Hk)
      |exists LIKE; rewrite <- (Hkw "LIKE" Hk)
      |exists AND; rewrite <- (Hkw "AND" Hk)
      |exists OR; rewrite <- (Hkw "OR" Hk)];
      cbn [l1 In]; tauto. }
  destruct (master_re l1) as [[kind rest]|] eqn:E;
    [|now apply master_re_found in Hin0].
  apply master_re_In in E. unfold l1 in E. cbn [In] in E.
  rewrite Hsp, Hst in E.
  destruct E as [[=]|E].
  repeat (destruct E as [E | E];
          [first [discriminate E
                 |injection E as <- _; eexists _, rest;
                  split; [reflexivity | split; discriminate]]|]).
  contradiction.
Qed.

Section KeywordFields.
Context {F : Type}.
Variable py_int : string -> option Z.
Variable py_float : string -> option F.

(** X14: a name that is one of the keywords [not], [between], [in],
    [ilike], [like], [and], [or], in any case of letters, passes the check
    that the constructor makes on a field, and can never be the field of a
    condition given as text: [_tokenize] makes a keyword token of it and
    [from_string] fails, whatever follows the name. *)
Theorem keyword_fields_fail_in_strings (k g : string) :
  Str.mem (Str.lower k) keywords = true ->
  starts_word g = false ->
  is_identifier k = true /\
  exists e, from_string_args py_int py_float (k +:+ g) = Failed e.
Proof.
  intros Hk Hg. split.
  - apply is_identifier_all.
    + intros ->. discriminate Hk.
    + rewrite <- all_word_lower. apply mem_In in Hk. cbn [keywords In] in Hk.
      repeat (destruct Hk as [<- | Hk]; [reflexivity|]). contradiction.
  - destruct (master_at_keyword k g Hk Hg) as (kind & rest & Hm & Hi & Hs).
    unfold from_string_args, _tokenize.
    destruct k as [|c k]; [discriminate Hk|].
    rewrite append_cons in *. cbn [tokenize_at]. rewrite Hm. cbn zeta.
    destruct (tokenize_at _ _ _ _) as [out|e]; [|eauto].
    exists MustStartWithFieldName.
    destruct kind; try contradiction; reflexivity.
Qed.

End KeywordFields.


Lemma from_string_comparison_witness :
  let py_int := fun s => if Str.all Str.is_digit s then Some (int_of_digits s) else None in
  let py_float := fun _ : string => @None unit in
  from_string_args py_int py_float "age > 30 OR 1=1"
  = Parsed ("age", ">", [CInt 30]) /\
  from_string_args py_int py_float "age > '30' OR 1=1"
  = Parsed ("age", ">", [CInt 30]).
Proof.
  intros py_int py_float.
  refine (from_string_comparison py_int py_float "age" ">" "30" "30" " OR 1=1" _
            eq_refl _ _ eq_refl eq_refl eq_refl eq_refl).
  - cbn. tauto.
  - discriminate.
Defined.

Lemma keyword_fields_fail_in_strings_witness :
  is_identifier "Like" = true /\
  exists e,
    from_string_args (fun _ => @None Z) (fun _ => @None unit) "Like = 'a'"
    = Failed e.
Proof.
  exact (keyword_fields_fail_in_strings (fun _ => None) (fun _ => None)
           "Like" " = 'a'" eq_refl eq_refl).
Defined.


Section CoerceFacts.
Context {F : Type}.
Variable py_int : string -> option Z.
Variable py_float : string -> option F.


End CoerceFacts.



(** ** The schema cache of the corrector *)

Section SchemaCache.
Context {W : Type}.
Variable apply_coercer : coercer -> list (option W) -> string -> result (list (option W)).
Variable py_str : W -> W.

(** X16: [cols] asks the inspector for the columns of a table once.  After
    a call that succeeded, [cols] and [fix_rows] use the schema it cached,
    whatever the inspector would answer now (another schema, an error);
    a call that failed caches nothing. *)
Theorem cols_reads_the_schema_once
    (get_columns get_columns' : string -> result (list (string * string)))
    (self self' : DataCorrector) (table : string) :
  (forall meta,
     cols get_columns self table = (Ok meta, self') ->
     cols get_columns' self' table = (Ok meta, self') /\
     forall rows,
       fix_rows apply_coercer py_str get_columns' self' table rows
       = (Ok (List.map (fun row => fix_items apply_coercer py_str self' meta row [])
                       rows),
          self')) /\
  (forall e, cols get_columns self table = (Err e, self') -> self' = self).
Proof.
  split.
  - intros meta H.
    assert (col_cache self' !! table = Some meta) as Hc.
    { unfold cols in H. destruct (col_cache self !! table) as [m|] eqn:E.
      - injection H as <- <-. exact E.
      - destruct (get_columns table); [|discriminate].
        injection H as <- <-. cbn [col_cache]. apply lookup_insert_eq. }
    assert (cols get_columns' self' table = (Ok meta, self')) as Hcols
      by (unfold cols; now rewrite Hc).
    split; [exact Hcols|]. intros rows. unfold fix_rows. now rewrite Hcols.
  - intros e H. unfold cols in H.
    destruct (col_cache self !! table); [discriminate|].
    destruct (get_columns table); [discriminate|]. now injection H.
Qed.

End SchemaCache.

Lemma cols_reads_the_schema_once_witness :
  let self := DataCorrector_init "sqlite" in
  let first := fun _ : string => Ok [("id", "integer")] in
  let later := fun _ : string => @Err (list (string * string)) (LibraryError "gone") in
  exists self',
    cols first self "t" = (Ok (<["id" := "INTEGER"]> ∅), self') /\
    cols later self' "t" = (Ok (<["id" := "INTEGER"]> ∅), self').
Proof.
  intros self first later. eexists. split; [reflexivity|].
  refine (proj1 (proj1 (cols_reads_the_schema_once (W := unit)
                          (fun _ s _ => Ok s) (fun w => w) first later
                          self _ "t") _ eq_refl)).
Defined.

(** ** [select] and HAVING *)

(** X17: [select] builds the HAVING clause inside the branch of GROUP BY:
    without [group_by] (none, or an empty list) the [having] conditions are
    dropped, whatever they are: they are not compiled, not even checked,
    and take no id. *)
Theorem select_drops_having_without_group_by (self : SQLBuilder) (table : string)
    (columns : columns_arg) (conditions : option (list cond_input))
    (expression : option string) (order_by : option (list (string * string)))
    (limit offset : option Z) (group_by : option (list string))
    (having : option (list cond_input)) (having_expr : option string) (n : nat) :
  group_by = None \/ group_by = Some [] ->
  select self table columns conditions expression order_by limit offset
         group_by having having_expr n
  = select self table columns conditions expression order_by limit offset
           None None None n.
Proof. now intros [-> | ->]. Qed.

Lemma select_drops_having_without_group_by_witness :
  select (mkSQLBuilder "sqlite" ":" Str.dquote) "t" (ColStr "*") None None None
         None None (Some []) (Some [InTuple "no field" "??" (AList [])]) None 1%nat
  = (Ok ("SELECT * FROM " +:+ Str.dquote +:+ "t" +:+ Str.dquote, []), 1%nat).
Proof.
  rewrite (select_drops_having_without_group_by _ _ _ _ _ _ _ _ (Some []) _ _ _
             (or_intror eq_refl)).
  reflexivity.
Defined.


(** ** The combination expression of [build_where] *)

Lemma pretty_N_char_value (x : N) :
  (x < 10)%N -> (Z.of_nat (Str.code (pretty_N_char x)) - 48 = Z.of_N x)%Z.
Proof.
  intros H.
  assert (x = 0 \/ x = 1 \/ x = 2 \/ x = 3 \/ x = 4 \/ x = 5 \/ x = 6 \/ x = 7
          \/ x = 8 \/ x = 9)%N as Hx by lia.
  repeat (destruct Hx as [-> | Hx]; [reflexivity|]). now subst.
Qed.

Lemma int_of_digits_go (x : N) (s : string) :
  int_of_digits (pretty_N_go x s)
  = fold_left (fun acc c => 10 * acc + (Z.of_nat (Str.code c) - 48))%Z
              (list_ascii_of_string s) (Z.of_N x).
Proof.
  revert s. induction (N.lt_wf_0 x) as [x _ IH]; intros s.
  assert (x = 0 \/ 0 < x)%N as [->|Hx] by lia.
  - now rewrite pretty_N_go_0.
  - rewrite pretty_N_go_step by exact Hx.
    rewrite IH by now apply N.div_lt.
    cbn [list_ascii_of_string fold_left]. f_equal.
    rewrite pretty_N_char_value by now apply N.mod_lt.
    rewrite (N.div_mod x 10) at 3 by lia. lia.
Qed.

(** [int] reads back what [str] wrote. *)
Lemma int_of_digits_pretty (k : nat) : int_of_digits (pretty k) = Z.of_nat k.
Proof.
  unfold pretty, pretty_nat, pretty, pretty_N.
  case_decide as E; [now replace k with 0%nat by lia|].
  rewrite int_of_digits_go. cbn. lia.
Qed.

Lemma pretty_nat_cons (k : nat) : exists d r, pretty k = String d r.
Proof.
  destruct (pretty k) as [|d r] eqn:E; [|eauto].
  pose proof (int_of_digits_pretty k) as H. rewrite E in H.
  assert (k = 0%nat) as -> by (cbn in H; lia). discriminate E.
Qed.

Lemma sub_indices_skip_all (parts : list string) (r : string) (prev_word : bool) :
  sub_indices parts prev_word (String.length r) r = Ok "".
Proof.
  revert prev_word. induction r as [|c r IH]; intros prev_word; [reflexivity|].
  cbn [String.length sub_indices]. apply IH.
Qed.

Lemma sub_indices_no_digit (parts : list string) (e : string) (prev_word : bool) :
  Str.all (fun c => negb (Str.is_digit c)) e = true ->
  sub_indices parts prev_word 0 e = Ok e.
Proof.
  revert prev_word. induction e as [|c e IH]; intros prev_word; [reflexivity|].
  cbn [Str.all]. intros [Hc He]%andb_true_iff. apply negb_true_iff in Hc.
  cbn [sub_indices]. unfold match_index. cbn [leading_digits]. rewrite Hc.
  rewrite IH by exact He. now destruct prev_word.
Qed.

Lemma all_impl (p q : ascii -> bool) (s : string) :
  (forall c, p c = true -> q c = true) ->
  Str.all p s = true -> Str.all q s = true.
Proof.
  intros H. induction s as [|c s IH]; [reflexivity|].
  cbn [Str.all]. intros [Hc Hs]%andb_true_iff. now rewrite (H c Hc), IH.
Qed.

Lemma expression_re_all (e : string) :
  e <> "" ->
  Str.all (fun c => Str.is_digit c || Str.is_space c
                    || existsb (Ascii.eqb c) (list_ascii_of_string "ANDOR()")) e
  = true ->
  Re.match_anchored expression_re e = true.
Proof.
  intros Hne H. apply match_anchored_matches. now apply matches_plus_cls.
Qed.

(** X18: in the expression of [build_where] an index counts the
    conditions from 1.  The expression made of the one index [k] gives the
    fragment of the [k]-th condition, with the parameters of all the
    conditions; [0] and the indices above the number of fragments raise
    the error of the invalid index. *)
Theorem expression_of_one_index (self : SQLBuilder) (conditions : list cond_input)
    (objs : list Condition) (sql_parts : list string) (params : Dict.t pyval)
    (k n n' : nat) :
  conditions <> [] ->
  mapM from_input conditions n = (Ok objs, n') ->
  compile_conditions self objs [] [] = Ok (sql_parts, params) ->
  build_where self (Some conditions) (Some (pretty k)) n
  = (match k with
     | O => Err (InvalidIndexInExpression (pretty k))
     | S i =>
         match nth_error sql_parts i with
         | Some frag => Ok (frag, params)
         | None => Err (InvalidIndexInExpression (pretty k))
         end
     end, n').
Proof.
  intros Hne Hobjs Hparts. unfold build_where.
  destruct conditions as [|c0 conditions]; [contradiction|].
  run_M. rewrite Hobjs, Hparts.
  destruct (pretty_nat_cons k) as (d & r & E).
  assert (match_index false (pretty k) = Some (pretty k)) as Hm.
  { unfold match_index.
    rewrite (leading_digits_all _ (pretty_nat_digits k)), drop_chars_all.
    now rewrite E. }
  assert (Re.match_anchored expression_re (pretty k) = true) as Hre.
  { apply expression_re_all; [rewrite E; discriminate|].
    eapply all_impl; [|apply (pretty_nat_digits k)]. now intros c ->. }
  rewrite Hre. cbn [negb].
  rewrite E at 1. cbn [sub_indices]. rewrite <- E, Hm.
  unfold repl. rewrite int_of_digits_pretty.
  destruct k as [|i].
  - reflexivity.
  - replace (Z.of_nat (S i) - 1)%Z with (Z.of_nat i) by lia.
    replace (Z.of_nat i <? 0)%Z with false by (symmetry; apply Z.ltb_ge; lia).
    cbn [orb]. rewrite Nat2Z.id. unfold index.
    destruct (nth_error sql_parts i) as [frag|] eqn:En.
    + replace (Z.of_nat (length sql_parts) <=? Z.of_nat i)%Z with false.
      2:{ symmetry. apply Z.leb_gt.
          assert (i < length sql_parts)%nat by (apply nth_error_Some; congruence).
          lia. }
      run_M. rewrite E. cbn [String.length].
      replace (S (String.length r) - 1)%nat with (String.length r) by lia.
      rewrite sub_indices_skip_all. now rewrite append_nil_r.
    + replace (Z.of_nat (length sql_parts) <=? Z.of_nat i)%Z with true.
      2:{ symmetry. apply Z.leb_le. apply nth_error_None in En. lia. }
      reflexivity.
Qed.

(** X19: the expression is checked against a set of characters, not
    against the conditions.  An expression without a digit, made of the
    letters of AND and OR, parentheses and white space, goes into the
    statement as it is: no fragment of a condition is in the clause, and
    the parameters of all the conditions are returned all the same. *)
Theorem expression_without_index (self : SQLBuilder) (conditions : list cond_input)
    (objs : list Condition) (sql_parts : list string) (params : Dict.t pyval)
    (expression : string) (n n' : nat) :
  conditions <> [] ->
  mapM from_input conditions n = (Ok objs, n') ->
  compile_conditions self objs [] [] = Ok (sql_parts, params) ->
  expression <> "" ->
  Str.all (fun c => Str.is_space c
                    || existsb (Ascii.eqb c) (list_ascii_of_string "ANDOR()"))
          expression = true ->
  build_where self (Some conditions) (Some expression) n
  = (Ok (expression, params), n').
Proof.
  intros Hne Hobjs Hparts He Hall. unfold build_where.
  destruct conditions as [|c0 conditions]; [contradiction|].
  run_M. rewrite Hobjs, Hparts.
  rewrite sub_indices_no_digit.
  2:{ eapply all_impl; [|exact Hall]. intros c Hc.
      destruct c as [[] [] [] [] [] [] [] []]; (discriminate Hc || reflexivity). }
  rewrite expression_re_all; [reflexivity | exact He |].
  eapply all_impl; [|exact Hall]. intros c Hc.
  now rewrite <- orb_assoc, Hc, orb_true_r.
Qed.

Lemma expression_of_one_index_witness :
  let self := mkSQLBuilder "postgres" ":" Str.dquote in
  let a := mkCondition "a" "=" [VInt 1] 1 None in
  let b := mkCondition "b" "IS NULL" [] 2 None in
  build_where self (Some [InCondition a; InCondition b]) (Some "2") 3%nat
  = (Ok (Str.dquote +:+ "b" +:+ Str.dquote +:+ " IS NULL", [("a_1", VInt 1)]), 3%nat) /\
  build_where self (Some [InCondition a; InCondition b]) (Some "3") 3%nat
  = (Err (InvalidIndexInExpression "3"), 3%nat).
Proof.
  intros self a b. split.
  - exact (expression_of_one_index self [InCondition a; InCondition b] [a; b]
             _ _ 2 3 3 ltac:(discriminate) eq_refl eq_refl).
  - exact (expression_of_one_index self [InCondition a; InCondition b] [a; b]
             _ _ 3 3 3 ltac:(discriminate) eq_refl eq_refl).
Defined.

Lemma expression_without_index_witness :
  let self := mkSQLBuilder "mysql" ":" Str.dquote in
  let a := mkCondition "a" "=" [VInt 1] 1 None in
  build_where self (Some [InCondition a]) (Some "RAND()") 2%nat
  = (Ok ("RAND()", [("a_1", VInt 1)]), 2%nat).
Proof.
  intros self a.
  exact (expression_without_index self [InCondition a] [a] _ _ "RAND()" 2 2
           ltac:(discriminate) eq_refl eq_refl ltac:(discriminate) eq_refl).
Defined.


(** *** Lists of values in a condition given as text *)

Lemma master_at_paren (r : string) (prev_word : bool) :
  master_re (token_spec prev_word ("(" +:+ r)) = Some (Some LP, r) /\
  master_re (token_spec prev_word (")" +:+ r)) = Some (Some RP, r) /\
  master_re (token_spec prev_word ("," +:+ r)) = Some (Some COMMA, r).
Proof. destruct prev_word; repeat split; reflexivity. Qed.

Lemma master_at_in (o rest : string) :
  In o ["IN"; "in"; "NOT IN"; "not in"] ->
  exists kind,
    master_re (token_spec false (o +:+ " " +:+ rest)) = Some (Some kind, " " +:+ rest)
    /\ (kind = IN \/ kind = NOT_IN).
Proof.
  intros H. cbn [In] in H.
  destruct H as [<- | [<- | [<- | [<- | []]]]];
    [exists IN | exists IN | exists NOT_IN | exists NOT_IN]; split; auto.
Qed.

Lemma leading_digits_before (l tail : string) :
  Str.all Str.is_digit l = true -> starts_word tail = false ->
  leading_digits (l +:+ tail) = l.
Proof.
  intros Hl Ht. induction l as [|c l IH].
  - change ("" +:+ tail) with tail. destruct tail as [|b tail]; [reflexivity|].
    cbn [starts_word] in Ht. cbn [leading_digits].
    destruct (Str.is_digit b) eqn:E; [|reflexivity].
    apply digit_is_word in E. congruence.
  - cbn [Str.all] in Hl. apply andb_true_iff in Hl as [Hc Hl].
    rewrite append_cons. cbn [leading_digits]. now rewrite Hc, IH.
Qed.

(** A number before a comma or a closing parenthesis. *)
Lemma master_at_number_before (d c : ascii) (l tail : string) (prev_word : bool) :
  Str.all Str.is_digit (String d l) = true ->
  c = ","%char \/ c = ")"%char ->
  master_re (token_spec prev_word (String d l +:+ String c tail))
  = Some (Some NUMBER, String c tail).
Proof.
  intros Hl Hc.
  assert (Str.is_digit d = true) as Hd
    by (cbn [Str.all] in Hl; now apply andb_true_iff in Hl as [? _]).
  destruct (digit_start d (l +:+ String c tail) prev_word Hd)
    as (S1 & K & S2 & S3 & S4 & S5).
  change (String d (l +:+ String c tail)) with (String d l +:+ String c tail) in *.
  unfold token_spec.
  repeat (apply Forall_cons in K as [-> K]).
  rewrite S1, S2, S3, S4, S5. cbn [master_re].
  unfold match_number.
  rewrite (leading_digits_before _ _ Hl), drop_chars_app
    by (destruct Hc as [-> | ->]; reflexivity).
  now destruct Hc as [-> | ->].
Qed.

Lemma prev_after_digits (d : ascii) (l : string) (prev_word : bool) :
  Str.all Str.is_digit (String d l) = true ->
  prev_after prev_word (String d l) = true.
Proof. intros H. apply prev_after_word. now apply all_digits_word. Qed.

Lemma tokenize_numbers (ds : list string) (prev_word : bool) (pos : nat) :
  Forall (fun d => d <> "" /\ Str.all Str.is_digit d = true) ds ->
  tokenize_at prev_word 0 pos (Str.join ", " ds +:+ ")")
  = Parsed (number_tokens ds ++ [(RP, ")")]).
Proof.
  intros H. revert prev_word pos.
  induction H as [|d ds [Hne Hd] Hds IH]; intros prev_word pos.
  - change (Str.join ", " [] +:+ ")") with (")" +:+ "").
    now rewrite (tokenize_at_step _ _ ")" "" "" (Some RP))
      by apply master_at_paren.
  - destruct d as [|x l]; [contradiction|].
    destruct ds as [|d2 ds].
    + change (Str.join ", " [String x l]) with (String x l).
      rewrite (tokenize_at_step _ _ x l (String ")" "") (Some NUMBER))
        by (apply master_at_number_before; auto).
      change (String ")" "") with (")" +:+ "").
      now rewrite (tokenize_at_step _ _ ")" "" "" (Some RP))
        by apply master_at_paren.
    + change (Str.join ", " (String x l :: d2 :: ds))
        with (String x l +:+ ", " +:+ Str.join ", " (d2 :: ds)).
      rewrite !append_assoc.
      change (", " +:+ Str.join ", " (d2 :: ds) +:+ ")")
        with (String "," (" " +:+ Str.join ", " (d2 :: ds) +:+ ")")).
      rewrite (tokenize_at_step _ _ x l (String "," _) (Some NUMBER))
        by (apply master_at_number_before; auto).
      change (String "," (" " +:+ Str.join ", " (d2 :: ds) +:+ ")"))
        with ("," +:+ " " +:+ Str.join ", " (d2 :: ds) +:+ ")").
      rewrite (tokenize_at_step _ _ "," "" _ (Some COMMA))
        by apply master_at_paren.
      rewrite (tokenize_at_step _ _ " " "" _ None).
      2:{ apply master_at_space. apply Forall_cons in Hds as [[Hne2 Hd2] _].
          destruct d2 as [|y l2]; [contradiction|].
          assert (Str.is_space y = false) as Hy.
          { cbn [Str.all] in Hd2. apply andb_true_iff in Hd2 as [Hy _].
            destruct y as [[] [] [] [] [] [] [] []]; (discriminate Hy || reflexivity). }
          destruct ds as [|d3 ds].
          - change (Str.join ", " [String y l2]) with (String y l2).
            rewrite append_cons. cbn [leading_space]. now rewrite Hy.
          - change (Str.join ", " (String y l2 :: d3 :: ds))
              with (String y l2 +:+ ", " +:+ Str.join ", " (d3 :: ds)).
            rewrite !append_cons. cbn [leading_space]. now rewrite Hy. }
      rewrite IH. reflexivity.
Qed.

Lemma last_fmap_snoc {A} (l : list A) (x : A) :
  List.last (Some <$> (l ++ [x])) None = Some x.
Proof.
  induction l as [|a l IH]; [reflexivity|].
  cbn [app fmap list_fmap]. cbn [fmap] in IH.
  destruct (l ++ [x]) eqn:E; [now destruct l|exact IH].
Qed.


Lemma tokenize_in_list (f o : string) (ds : list string) :
  is_field_name f = true ->
  In o ["IN"; "in"; "NOT IN"; "not in"] ->
  Forall (fun d => d <> "" /\ Str.all Str.is_digit d = true) ds ->
  exists kind,
    _tokenize (f +:+ " " +:+ o +:+ " " +:+ "(" +:+ Str.join ", " ds +:+ ")")
    = Parsed ((IDENT, f) :: (kind, o) :: (LP, "(")
                :: number_tokens ds ++ [(RP, ")")])
    /\ (kind = IN \/ kind = NOT_IN).
Proof.
  intros Hf Ho Hds. unfold _tokenize.
  assert (exists a f', f = String a f') as (a & f' & ->)
    by (destruct f; [discriminate | eauto]).
  assert (prev_after false (String a f') = true) as Hp.
  { cbn [is_field_name] in Hf.
    apply andb_true_iff in Hf as [[Ha Hr]%andb_true_iff _].
    apply prev_after_word. cbn [Str.all].
    destruct (ident_start a "" false Ha) as [-> _]. exact Hr. }
  cbn [In] in Ho.
  destruct Ho as [<- | [<- | [<- | [<- | []]]]];
    [exists IN | exists IN | exists NOT_IN | exists NOT_IN]; (split; [|auto]).
  all: rewrite (tokenize_at_step false 0 a f' _ (Some IDENT))
         by (apply master_at_field; auto).
  all: rewrite Hp.
  all: rewrite (tokenize_at_step true _ " " "" _ None) by now apply master_at_space.
  all: change (prev_after true " ") with false.
  all: match goal with
       | |- context [tokenize_at false 0 ?p (String ?x ?m +:+ " " +:+ ?r)] =>
           first [rewrite (tokenize_at_step false p x m (" " +:+ r) (Some IN))
                    by reflexivity
                 |rewrite (tokenize_at_step false p x m (" " +:+ r) (Some NOT_IN))
                    by reflexivity]
       end.
  all: rewrite (tokenize_at_step _ _ " " "" _ None) by now apply master_at_space.
  all: rewrite (tokenize_at_step _ _ "(" "" _ (Some LP)) by apply master_at_paren.
  all: now rewrite tokenize_numbers by exact Hds.
Qed.

Section InList.
Context {F : Type}.
Variable py_int : string -> option Z.
Variable py_float : string -> option F.

Lemma literal_values_numbers (ds : list string) :
  literal_values py_int py_float (number_tokens ds)
  = List.map (_coerce py_int py_float) ds.
Proof.
  induction ds as [|d ds IH]; [reflexivity|].
  destruct ds as [|d2 ds]; [reflexivity|].
  change (number_tokens (d :: d2 :: ds))
    with ((NUMBER, d) :: (COMMA, ",") :: number_tokens (d2 :: ds)).
  unfold literal_values in *. cbn [omap list_omap fst snd]. cbn [omap] in IH.
  now rewrite IH.
Qed.

Lemma in_values_numbers (ds : list string) :
  in_values py_int py_float ((LP, "(") :: number_tokens ds ++ [(RP, ")")])
  = Some (List.map (_coerce py_int py_float) ds).
Proof.
  unfold in_values.
  assert (fst <$> List.last (Some <$> (LP, "(") :: number_tokens ds ++ [(RP, ")")])
                            None = Some RP) as H
    by (rewrite app_comm_cons; now rewrite last_fmap_snoc).
  rewrite (bool_decide_eq_true_2 _ H), (bool_decide_eq_true_2 (LP = LP) eq_refl).
  cbn [andb]. now rewrite removelast_last, literal_values_numbers.
Qed.

(** X20: [from_string] reads [<field> IN (<n1>, <n2>, ...)] and the same
    with NOT IN, in capitals or not, as the call
    [cls(field, 'IN' or 'NOT IN', [_coerce(n1), _coerce(n2), ...])]: one
    value for each number, in their order, the commas and the parentheses
    left out; an empty pair of parentheses gives no value. *)
Theorem from_string_in_list (f o : string) (ds : list string) :
  is_field_name f = true ->
  In o ["IN"; "in"; "NOT IN"; "not in"] ->
  Forall (fun d => d <> "" /\ Str.all Str.is_digit d = true) ds ->
  from_string_args py_int py_float
    (f +:+ " " +:+ o +:+ " " +:+ "(" +:+ Str.join ", " ds +:+ ")")
  = Parsed (f, Str.upper o, List.map (_coerce py_int py_float) ds).
Proof.
  intros Hf Ho Hds. unfold from_string_args.
  destruct (tokenize_in_list f o ds Hf Ho Hds) as (kind & -> & Hk).
  rewrite (bool_decide_eq_true_2 (IDENT = IDENT) eq_refl). cbn [negb].
  destruct Hk as [-> | ->]; now rewrite in_values_numbers.
Qed.

End InList.

Lemma from_string_in_list_witness :
  let py_int := fun s => if Str.all Str.is_digit s then Some (int_of_digits s) else None in
  let py_float := fun _ : string => @None unit in
  from_string_args py_int py_float "id not in (3, 42)"
  = Parsed ("id", "NOT IN", [CInt 3; CInt 42]).
Proof.
  intros py_int py_float.
  refine (from_string_in_list py_int py_float "id" "not in" ["3"; "42"]
            eq_refl _ _).
  - cbn. tauto.
  - repeat constructor; discriminate.
Defined.


(** ** The two type tables *)

(** X21: the tables [dtype_map] and [coercers] agree.  Whatever the
    dialect, the SQL type that [dtype_to_sql] gives for a pandas dtype that
    [dtype_map] knows has a coercer under the same dialect, found by its
    base type as [fix_rows] and [fix_df] look it up; a dtype that the
    table does not know gets the type [TEXT]. *)
Theorem dtype_to_sql_types_have_coercers (self : DataCorrector) (dtype : string) :
  (forall t,
     default ∅ (dtype_map !! db self) !! Str.lower dtype = Some t ->
     dtype_to_sql self dtype = t /\
     exists co, lookup_coercer self (before_paren t) = Some co) /\
  (default ∅ (dtype_map !! db self) !! Str.lower dtype = None ->
   dtype_to_sql self dtype = "TEXT").
Proof.
  split; [|unfold dtype_to_sql; now intros ->].
  intros t H. split; [unfold dtype_to_sql; now rewrite H|].
  unfold lookup_coercer.
  destruct (dtype_map !! db self) as [m|] eqn:E; simpl in H;
    [|now rewrite lookup_empty in H].
  apply elem_of_list_to_map_2 in E.
  repeat (apply elem_of_cons in E as [E|E];
          [injection E as -> Hm; subst m;
           repeat (apply lookup_insert_Some in H as [[_ <-]|[_ H]];
                   [vm_compute; eauto|]);
           now rewrite lookup_empty in H|]).
  now apply elem_of_nil in E.
Qed.

Lemma dtype_to_sql_types_have_coercers_witness :
  let self := DataCorrector_init "MySQL" in
  dtype_to_sql self "Bool" = "TINYINT(1)" /\
  lookup_coercer self (before_paren "TINYINT(1)") = Some AsBoolOrInt8.
Proof.
  intros self.
  destruct (proj1 (dtype_to_sql_types_have_coercers self "Bool") "TINYINT(1)" eq_refl)
    as [H1 _].
  split; [exact H1 | reflexivity].
Defined.


(** ** The aggregate of a condition *)

Lemma to_sql_starts_with_col_str (c : Condition) (d p q : string)
    (w : string -> string -> pyval -> string) (frag : string)
    (params : Dict.t pyval) :
  to_sql c d p q w = Ok (frag, params) ->
  exists rest, frag = col_str c q +:+ " " +:+ rest.
Proof.
  unfold to_sql.
  destruct (Str.mem (op c) ["IS NULL"; "IS NOT NULL"]); [intros [= <- _]; eauto|].
  destruct (String.eqb (op c) "BETWEEN").
  { destruct (index (values c) 0); [|discriminate].
    destruct (index (values c) 1); [|discriminate].
    cbn. intros [= <- _]. eexists. rewrite append_cons. reflexivity. }
  destruct (Str.mem (op c) ["IN"; "NOT IN"]); [intros [= <- _]; eauto|].
  destruct (Str.mem (op c) ["LIKE"; "ILIKE"]).
  { destruct (index (values c) 0); [|discriminate]. cbn. intros [= <- _]. eauto. }
  destruct (Str.mem (op c) ["="; "!="; "<>"; "<"; ">"; "<="; ">="]); [|discriminate].
  destruct (index (values c) 0); [|discriminate]. cbn. intros [= <- _]. eauto.
Qed.

(** X22: the aggregate of a condition given as a record is never checked.
    Whenever [from_input] accepts the record (its field and its operator
    are valid), the text of the aggregate, whatever it is, is put in upper
    case before the quoted field in every fragment that [to_sql] returns
    for the condition. *)
Theorem aggregate_is_not_validated (f o a : string) (v : option values_arg)
    (n n' : nat) (c : Condition) :
  a <> "" ->
  from_input (InRecord f o v (Some a)) n = (Ok c, n') ->
  aggregate c = Some a /\
  forall (d p q : string) (w : string -> string -> pyval -> string)
         (frag : string) (params : Dict.t pyval),
    to_sql c d p q w = Ok (frag, params) ->
    exists rest,
      frag = Str.upper a +:+ "(" +:+ q +:+ f +:+ q +:+ ")" +:+ " " +:+ rest.
Proof.
  intros Ha H. cbn [from_input] in H. unfold Condition_init in H.
  destruct (negb (is_identifier f)); [discriminate|].
  destruct (negb (Str.mem (Str.upper o) valid_operators)); [discriminate|].
  cbv [mbind mret M_bind M_ret next_id] in H. injection H as <- _.
  split; [reflexivity|]. intros d p q w frag params Hs.
  apply to_sql_starts_with_col_str in Hs as (rest & ->).
  exists rest. unfold col_str. cbn [aggregate field].
  destruct a as [|x a]; [contradiction|]. now rewrite !append_assoc.
Qed.

Lemma aggregate_is_not_validated_witness :
  let a := "count(*) FROM t; --" in
  let c := mkCondition "n" ">" [VInt 1] 5 (Some a) in
  from_input (InRecord "n" ">" (Some (AScalar (VInt 1))) (Some a)) 5%nat
  = (Ok c, 6%nat) /\
  exists rest,
    "COUNT(*) FROM T; --(" +:+ Str.dquote +:+ "n" +:+ Str.dquote +:+ ") > :n_5"
    = Str.upper a +:+ "(" +:+ Str.dquote +:+ "n" +:+ Str.dquote +:+ ")" +:+ " " +:+ rest.
Proof.
  intros a c. split; [reflexivity|].
  refine (proj2 (aggregate_is_not_validated "n" ">" a
                   (Some (AScalar (VInt 1))) 5 6 c _ eq_refl)
                "postgres" ":" Str.dquote (fun ph _ _ => ph) _ [("n_5", VInt 1)] eq_refl).
  discriminate.
Defined.
